(** * FTQ (Fixed Time Quantum microbenchmark): the driver [main] of ftq.c

    A shallow embedding of [main] (ftq.c) over the declarations of ftq.h.
    [main] parses the options, caps the sample count, allocates and zeroes
    the sample buffer, calibrates, runs the sampling core (inline or in
    threads), and writes the samples out.

    The embedding is a trace semantics: every call that leaves [main]
    (libc, pthreads, the OS layer, the sampling core) and every write to
    the volatile start flag [hounds] is an [event]; the answers of the
    outside world are read from an [env]. *)

From Stdlib Require Import ZArith List String Ascii Bool Lia.
From Stdlib Require Import Floats.SpecFloat.
Import ListNotations.
Local Open Scope Z_scope.

(** ** C integer types *)

Module CInt.

(** Reduction of a mathematical integer to an unsigned [w]-bit object. *)
Definition wrap (w z : Z) : Z := z mod 2 ^ w.

(** The same bits read as a two's complement signed [w]-bit object. *)
Definition to_signed (w z : Z) : Z :=
  let u := wrap w z in
  if u <? 2 ^ (w - 1) then u else u - 2 ^ w.

(** [int] is 32 bits wide on every platform the program builds on. *)
Definition INT_MIN : Z := - 2 ^ 31.
Definition INT_MAX : Z := 2 ^ 31 - 1.
Definition to_int (z : Z) : Z := to_signed 32 z.

(** The two data models of the POSIX systems that have [mmap]:
    they fix the width of [unsigned long] and of [size_t]. *)
Inductive data_model := ILP32 | LP64.

Definition ulong_bits (dm : data_model) : Z :=
  match dm with ILP32 => 32 | LP64 => 64 end.

(** [long] has the width of [unsigned long]. *)
Definition LONG_MIN (dm : data_model) : Z := - 2 ^ (ulong_bits dm - 1).
Definition LONG_MAX (dm : data_model) : Z := 2 ^ (ulong_bits dm - 1) - 1.

(** [unsigned long long] is 64 bits wide, [sizeof(unsigned long long)] is 8. *)
Definition ullong_bits : Z := 64.
Definition sizeof_ullong : Z := 8.

End CInt.

(** ** C floating point: IEEE 754 binary64 [double] and binary32 [float]

    The operations are those of the specification of IEEE arithmetic in
    the Standard Library ([SpecFloat]), round to nearest even, and
    expressions are evaluated in the format of their type
    (FLT_EVAL_METHOD 0). *)

Module CFloat.

Definition double := spec_float.
Definition float := spec_float.

Definition d_prec : Z := 53.
Definition d_emax : Z := 1024.
Definition f_prec : Z := 24.
Definition f_emax : Z := 128.

(** Integer to [double] and to [float]. *)
Definition d_of_Z (z : Z) : double := binary_normalize d_prec d_emax z 0 false.
Definition f_of_Z (z : Z) : float := binary_normalize f_prec f_emax z 0 false.

Definition d_mul : double -> double -> double := SFmul d_prec d_emax.
Definition d_div : double -> double -> double := SFdiv d_prec d_emax.
Definition f_mul : float -> float -> float := SFmul f_prec f_emax.

(** [double] to [float] (the assignment to [nspercycle]). *)
Definition f_of_double (d : double) : float :=
  match d with
  | S754_finite s m e => binary_round f_prec f_emax s m e
  | _ => d
  end.

(** [x == 0.0] *)
Definition is_zero (x : spec_float) : bool :=
  SFeqb x (S754_zero false).

(** The integral part of a finite value (conversion to an integer type
    truncates toward zero); [None] for infinities and NaN. *)
Definition trunc (x : spec_float) : option Z :=
  match x with
  | S754_zero _ => Some 0
  | S754_finite s m e =>
      Some (cond_Zopp s
              match e with
              | Zneg p => Zpos m / 2 ^ Zpos p
              | _ => Zpos m * 2 ^ e
              end)
  | _ => None
  end.

(** Conversion to an integer type holding [lo..hi].  When the integral
    part does not fit, C leaves the behaviour undefined: the model takes
    the value the platform produces from [undef]. *)
Definition to_integer (undef : spec_float -> Z) (lo hi : Z) (x : spec_float) : Z :=
  match trunc x with
  | Some z => if (lo <=? z) && (z <=? hi) then z else undef x
  | None => undef x
  end.


End CFloat.

(** ** libc: [atoi] *)

Module Libc.

Definition isspace (c : ascii) : bool :=
  let n := Z.of_nat (nat_of_ascii c) in
  (n =? 32) || ((9 <=? n) && (n <=? 13)).

Definition digit_of (c : ascii) : option Z :=
  let n := Z.of_nat (nat_of_ascii c) in
  if (48 <=? n) && (n <=? 57) then Some (n - 48) else None.

Fixpoint skip_space (s : string) : string :=
  match s with
  | String c s' => if isspace c then skip_space s' else s
  | EmptyString => s
  end.

Fixpoint digits (s : string) (acc : Z) : Z :=
  match s with
  | String c s' =>
      match digit_of c with
      | Some d => digits s' (10 * acc + d)
      | None => acc
      end
  | EmptyString => acc
  end.

(** The decimal integer at the head of [s]: white space, an optional
    sign, digits; 0 when there is no digit. *)
Definition decimal_prefix (s : string) : Z :=
  match skip_space s with
  | String "-"%char s' => - digits s' 0
  | String "+"%char s' => digits s' 0
  | s' => digits s' 0
  end.

(** [atoi].  The decimal value when it fits an [int].  For a value that
    does not fit, C leaves the behaviour undefined: the model takes what
    the library in use yields, [overflow], cut to an [int]. *)
Definition atoi (overflow : Z -> Z) (s : string) : Z :=
  let v := decimal_prefix s in
  if (CInt.INT_MIN <=? v) && (v <=? CInt.INT_MAX) then v
  else CInt.to_int (overflow v).

(** The GNU C library: [atoi] is [(int) strtol(s, NULL, 10)], and
    [strtol] saturates at [LONG_MIN] and [LONG_MAX]. *)
Definition glibc_overflow (dm : CInt.data_model) (v : Z) : Z :=
  Z.max (CInt.LONG_MIN dm) (Z.min (CInt.LONG_MAX dm) v).

End Libc.

(** ** The program *)

Module Ftq.

Import CInt CFloat Libc.

(** *** ftq.h *)

Definition MAX_SAMPLES : Z := 2000000.
Definition DEFAULT_COUNT : Z := 524288.
Definition DEFAULT_INTERVAL : Z := 100000.

Definition EXIT_SUCCESS : Z := 0.
Definition EXIT_FAILURE : Z := 1.

(** The globals declared [extern] in ftq.h.  The sample buffer [samples]
    is not a field: its contents are read from the environment. *)
Record globals := mkGlobals {
  interval : Z;                    (* unsigned long long *)
  numsamples : Z;                  (* unsigned long *)
  hounds : Z;                      (* volatile int *)
  ignore_wire_failures : Z;        (* int *)
  set_realtime : Z;                (* int *)
  ticksperns : double;
  test_argument : option string    (* const char *, None is NULL *)
}.

Definition set_interval (v : Z) (g : globals) : globals :=
  mkGlobals v (numsamples g) (hounds g) (ignore_wire_failures g)
            (set_realtime g) (ticksperns g) (test_argument g).
Definition set_numsamples (v : Z) (g : globals) : globals :=
  mkGlobals (interval g) v (hounds g) (ignore_wire_failures g)
            (set_realtime g) (ticksperns g) (test_argument g).
Definition set_hounds (v : Z) (g : globals) : globals :=
  mkGlobals (interval g) (numsamples g) v (ignore_wire_failures g)
            (set_realtime g) (ticksperns g) (test_argument g).
Definition set_ignore_wire_failures (v : Z) (g : globals) : globals :=
  mkGlobals (interval g) (numsamples g) (hounds g) v
            (set_realtime g) (ticksperns g) (test_argument g).
Definition set_set_realtime (v : Z) (g : globals) : globals :=
  mkGlobals (interval g) (numsamples g) (hounds g) (ignore_wire_failures g)
            v (ticksperns g) (test_argument g).
Definition set_ticksperns (v : double) (g : globals) : globals :=
  mkGlobals (interval g) (numsamples g) (hounds g) (ignore_wire_failures g)
            (set_realtime g) v (test_argument g).
Definition set_test_argument (v : option string) (g : globals) : globals :=
  mkGlobals (interval g) (numsamples g) (hounds g) (ignore_wire_failures g)
            (set_realtime g) (ticksperns g) v.

(** Modelled from the spec: the definitions of the globals (ftqcore.c)
    are not part of the sources at hand.  The start signal is
    "initialized false at process start", the calibration factor is
    "computed once if not supplied" (it starts at the 0.0 that [main]
    tests for), the sample count and the quantum start at the defaults
    of ftq.h; the two flags are defined in ftq.c as 0. *)
Definition initial_globals : globals :=
  {| interval := DEFAULT_INTERVAL;
     numsamples := DEFAULT_COUNT;
     hounds := 0;
     ignore_wire_failures := 0;
     set_realtime := 0;
     ticksperns := S754_zero false;
     test_argument := None |}.

(** *** The outside world *)

(** What the environment answers to [main]. *)
Record env := mkEnv {
  (* the platform *)
  model : data_model;              (* width of unsigned long and size_t *)
  ticks_signed : bool;             (* the typedef of ticks (OS header): a
                                      64-bit integer, signed or not *)
  sizeof_pthread_t : Z;
  conv_undef : spec_float -> Z;    (* what an out-of-range conversion of a
                                      floating value to an integer yields *)
  atoi_overflow : Z -> Z;          (* what atoi makes of a decimal value
                                      that does not fit an int *)
  (* libc, pthreads and the OS layer *)
  mmap_ok : bool;                  (* mmap did not return MAP_FAILED *)
  malloc_samples_ok : bool;        (* malloc(samples_size) is not NULL *)
  threadinit_rc : Z;
  malloc_threads_ok : bool;
  pthread_create_rc : Z -> Z;      (* by thread index *)
  pthread_join_rc : Z -> Z;
  fopen_ok : Z -> bool;            (* by file index *)
  compute_ticksperns : double;
  nsec_start : Z;                  (* the four clock readings of main *)
  getticks_start : Z;
  getticks_end : Z;
  nsec_end : Z;
  (* the sample buffer as the sampling core leaves it *)
  samples_after : Z -> Z
}.

Inductive stream := Stdout | DatFile (j : Z).

(** The observable steps of [main], in program order. *)
Inductive event :=
| EvUsage                                   (* usage(): the usage text *)
| EvWarnMax                                 (* WARNING: sample count exceeds maximum *)
| EvMmap (size : Z) (ok : bool)             (* samples = mmap(0, size, ...) *)
| EvPerrorMmap                              (* perror("Failed to mmap, will just malloc") *)
| EvMallocSamples (size : Z) (ok : bool)    (* samples = malloc(size) *)
| EvMemsetSamples (size : Z)                (* memset(samples, 0, size) *)
| EvErrStdout                               (* ERROR: cannot output to stdout for more than one thread. *)
| EvComputeTicksperns                       (* compute_ticksperns() *)
| EvThreadinit (n : Z) (rc : Z)
| EvErrThreadinit                           (* threadinit failed *)
| EvMallocThreads (size : Z) (ok : bool)
| EvMemsetThreads (size : Z)
| EvNsec (v : Z)                            (* nsec() *)
| EvGetticks (v : Z)                        (* getticks() *)
| EvPthreadCreate (i : Z) (rc : Z)          (* pthread_create(.., ftq_core, i) *)
| EvErrCreate                               (* ERROR: pthread_create() failed. *)
| EvHounds (v : Z)                          (* hounds = v *)
| EvPthreadJoin (i : Z) (rc : Z)
| EvErrJoin                                 (* ERROR: pthread_join() failed. *)
| EvFtqCore (arg : Z)                       (* ftq_core(arg), called by main *)
| EvStderrTimes (start end_ ns : Z)
| EvStderrCycles (cyclestart cycleend cycles : Z)
| EvStderrAvg (avg : double) (nspercycle : double)
| EvStderrTicksperns (t : double)
| EvStderrFrequency (f : double)
| EvFopen (outname : string) (j : Z) (ok : bool)
| EvPerrorFopen                             (* perror("can not create file") *)
| EvHeader (f : stream) (freq : double) (tpn : double) (core : Z) (unwired : bool)
| EvSample (f : stream) (ns : Z) (count : Z) (* "%lld %lld\n" *)
| EvFclose (j : Z)
| EvPthreadExit.

(** How a run ends. *)
Inductive outcome :=
| Exited (status : Z)     (* exit(status) *)
| Aborted                 (* a failed assert *)
| Crashed                 (* a null pointer dereferenced *)
| Undefined               (* a write past the end of an array: C leaves
                             the behaviour undefined, the model stops *)
| ThreadExited.           (* pthread_exit(NULL) in main *)

(** *** A monad for the effects of [main]: the globals as state, the
    trace as output, and [exit] *)

Inductive result (A : Type) :=
| Ret (a : A)
| Halt (o : outcome).
Arguments Ret {A} a.
Arguments Halt {A} o.

Definition M (A : Type) : Type := globals -> list event * globals * result A.

Definition ret {A} (a : A) : M A := fun g => ([], g, Ret a).

Definition bind {A B} (m : M A) (k : A -> M B) : M B :=
  fun g =>
    match m g with
    | (t1, g1, Ret a) =>
        match k a g1 with
        | (t2, g2, r) => (t1 ++ t2, g2, r)
        end
    | (t1, g1, Halt o) => (t1, g1, Halt o)
    end.

Definition emit (e : event) : M unit := fun g => ([e], g, Ret tt).
Definition halt {A} (o : outcome) : M A := fun g => ([], g, Halt o).
Definition get : M globals := fun g => ([], g, Ret g).
Definition modify (f : globals -> globals) : M unit := fun g => ([], f g, Ret tt).

Declare Scope ftq_scope.
Delimit Scope ftq_scope with ftq.
Notation "x <- m ;; k" := (bind m (fun x => k))
  (at level 100, m at next level, right associativity) : ftq_scope.
Notation "m ;; k" := (bind m (fun _ => k))
  (at level 100, right associativity) : ftq_scope.
Local Open Scope ftq_scope.

(** *** Option parsing: the [getopt_long] loop of [main] *)

(** The codes whose case of the [switch] reads [optarg]. *)
Inductive arg_code := Code_t | Code_o | Code_f | Code_n | Code_T | Code_a.

(** One option as [getopt_long] hands it to the [switch], with [optarg].
    The long options stand for the same codes as the short ones, but the
    table [long_options] declares every one of them without argument
    ([has_arg] is 0): [--help], [--stdout], [--ignore_wire_failures] and
    [--realtime] are [Opt_h], [Opt_s], [Opt_w] and [Opt_r], and a long
    option whose case reads [optarg] reaches the [switch] with [optarg]
    NULL, which is [Opt_null]. *)
Inductive cli_option :=
| Opt_t (optarg : string)
| Opt_s
| Opt_o (optarg : string)
| Opt_f (optarg : string)
| Opt_n (optarg : string)
| Opt_w
| Opt_T (scanned : option double)  (* what sscanf(optarg, "%lg", &ticksperns)
                                      stores: the double it read, or nothing
                                      when the text does not match *)
| Opt_r
| Opt_a (optarg : string)
| Opt_h
| Opt_other                        (* '?' or any other code: default *)
| Opt_null (c : arg_code).         (* --threads, --outname, --frequency,
                                      --numsamples, --ticksperns,
                                      --argument: optarg is NULL *)

(** The locals of [main] that the options set. *)
Record locals := mkLocals {
  numthreads : Z;                  (* int *)
  use_threads : Z;                 (* int *)
  use_stdout : Z;                  (* int *)
  outname : string
}.

Definition initial_locals : locals :=
  {| numthreads := 1; use_threads := 0; use_stdout := 0; outname := "ftq" |}.

(** [(unsigned long long) x] for a double [x]. *)
Definition ull_of_double (e : env) (x : double) : Z :=
  wrap ullong_bits (to_integer (conv_undef e) 0 (2 ^ ullong_bits - 1) x).

(** The literal [1e9]. *)
Definition d_1e9 : double := d_of_Z 1000000000.

(** The quantum length for [-f optarg]:
    [(unsigned long long) (1e9 / atoi(optarg))]. *)
Definition interval_of_frequency (e : env) (optarg : string) : Z :=
  ull_of_double e (d_div d_1e9 (d_of_Z (atoi (atoi_overflow e) optarg))).

(** [static char outname[255]]: the longest string it holds has 254
    characters. *)
Definition OUTNAME_SIZE : Z := 255.
Definition fits_outname (s : string) : bool :=
  Z.of_nat (String.length s) <? OUTNAME_SIZE.

(** The [switch (c)] of the option loop. *)
Definition option_case (e : env) (o : cli_option) (l : locals) : M locals :=
  match o with
  | Opt_t optarg =>
      ret (mkLocals (atoi (atoi_overflow e) optarg) 1 (use_stdout l)
                    (outname l))
  | Opt_s =>
      ret (mkLocals (numthreads l) (use_threads l) 1 (outname l))
  | Opt_o optarg =>
      (* sprintf(outname, "%s", optarg) *)
      if fits_outname optarg
      then ret (mkLocals (numthreads l) (use_threads l) (use_stdout l) optarg)
      else halt Undefined
  | Opt_f optarg =>
      modify (set_interval (interval_of_frequency e optarg)) ;; ret l
  | Opt_n optarg =>
      modify (set_numsamples
                (wrap (ulong_bits (model e))
                      (atoi (atoi_overflow e) optarg))) ;;
      ret l
  | Opt_w =>
      modify (fun g => set_ignore_wire_failures
                         (to_int (ignore_wire_failures g + 1)) g) ;;
      ret l
  | Opt_T (Some d) => modify (set_ticksperns d) ;; ret l
  | Opt_T None => ret l
  | Opt_r => modify (set_set_realtime 1) ;; ret l
  | Opt_a optarg => modify (set_test_argument (Some optarg)) ;; ret l
  | Opt_h | Opt_other => emit EvUsage ;; halt (Exited EXIT_FAILURE)
  | Opt_null Code_a => modify (set_test_argument None) ;; ret l
  | Opt_null _ =>
      (* atoi(NULL), sprintf(outname, "%s", NULL), sscanf(NULL, ...) *)
      halt Crashed
  end.

(** [while (1) { c = getopt_long(...); if (c == -1) break; switch ... }] *)
Fixpoint parse_options (e : env) (opts : list cli_option) (l : locals)
  : M locals :=
  match opts with
  | [] => ret l
  | o :: opts' => l' <- option_case e o l ;; parse_options e opts' l'
  end.

(** *** Sanity check and sample storage *)

(** [if (numsamples > MAX_SAMPLES) { ...; numsamples = MAX_SAMPLES; }] *)
Definition sanity_check : M unit :=
  g <- get ;;
  if numsamples g >? MAX_SAMPLES
  then emit EvWarnMax ;; modify (set_numsamples MAX_SAMPLES)
  else ret tt.

(** Multiplication in [size_t]. *)
Definition size_mul (e : env) (a b : Z) : Z :=
  wrap (ulong_bits (model e)) (a * b).

(** [sizeof(unsigned long long) * numsamples * 2 * numthreads] *)
Definition samples_size (e : env) (nsamples nthreads : Z) : Z :=
  size_mul e (size_mul e (size_mul e sizeof_ullong nsamples) 2)
           (wrap (ulong_bits (model e)) nthreads).

(** [mmap], on failure [malloc] and [assert(samples)], then [memset]. *)
Definition allocate_samples (e : env) (l : locals) : M unit :=
  g <- get ;;
  let size := samples_size e (numsamples g) (numthreads l) in
  emit (EvMmap size (mmap_ok e)) ;;
  (if mmap_ok e then ret tt
   else
     emit EvPerrorMmap ;;
     emit (EvMallocSamples size (malloc_samples_ok e)) ;;
     if malloc_samples_ok e then ret tt else halt Aborted) ;;
  emit (EvMemsetSamples size).

(** [if (use_stdout == 1 && numthreads > 1) { ...; exit(EXIT_FAILURE); }] *)
Definition check_stdout (l : locals) : M unit :=
  if (use_stdout l =? 1) && (numthreads l >? 1)
  then
    emit EvErrStdout ;;
    halt (Exited EXIT_FAILURE)
  else ret tt.

(** [if (ticksperns == 0.0) ticksperns = compute_ticksperns();] *)
Definition calibrate (e : env) : M unit :=
  g <- get ;;
  if is_zero (ticksperns g)
  then emit EvComputeTicksperns ;; modify (set_ticksperns (compute_ticksperns e))
  else ret tt.

(** *** Sampling: threads, or the core called inline *)

(** A value of type [ticks]. *)
Definition to_ticks (e : env) (z : Z) : Z :=
  if ticks_signed e then to_signed 64 z else wrap 64 z.

(** [(ticks) x] for a floating [x]. *)
Definition ticks_of_float (e : env) (x : spec_float) : Z :=
  to_ticks e
    (if ticks_signed e
     then to_integer (conv_undef e) (- 2 ^ 63) (2 ^ 63 - 1) x
     else to_integer (conv_undef e) 0 (2 ^ 64 - 1) x).

(** [start], [end], [cyclestart], [cycleend]. *)
Record timing := mkTiming {
  start : Z;
  end_ : Z;
  cyclestart : Z;
  cycleend : Z
}.

(** [for (i = 0; i < numthreads; i++) { rc = pthread_create(&threads[i],
    NULL, ftq_core, i); if (rc) { ...; exit(EXIT_FAILURE); } }]
    with [n] iterations left and the counter at [i]. *)
Fixpoint create_loop (e : env) (n : nat) (i : Z) : M unit :=
  match n with
  | O => ret tt
  | S n' =>
      let rc := pthread_create_rc e i in
      emit (EvPthreadCreate i rc) ;;
      if rc =? 0 then create_loop e n' (i + 1)
      else
        emit EvErrCreate ;;
        halt (Exited EXIT_FAILURE)
  end.

(** The same loop over [pthread_join]. *)
Fixpoint join_loop (e : env) (n : nat) (i : Z) : M unit :=
  match n with
  | O => ret tt
  | S n' =>
      let rc := pthread_join_rc e i in
      emit (EvPthreadJoin i rc) ;;
      if rc =? 0 then join_loop e n' (i + 1)
      else
        emit EvErrJoin ;;
        halt (Exited EXIT_FAILURE)
  end.

(** [hounds = v] *)
Definition write_hounds (v : Z) : M unit :=
  emit (EvHounds v) ;; modify (set_hounds v).

(** The branch [use_threads == 1]. *)
Definition run_threads (e : env) (l : locals) : M timing :=
  let rc := threadinit_rc e in
  emit (EvThreadinit (numthreads l) rc) ;;
  (if rc <? 0 then emit EvErrThreadinit ;; halt Aborted
   else ret tt) ;;
  let size := size_mul e (sizeof_pthread_t e)
                       (wrap (ulong_bits (model e)) (numthreads l)) in
  emit (EvMallocThreads size (malloc_threads_ok e)) ;;
  (* memset(threads, 0, size); assert(threads != NULL); *)
  (if malloc_threads_ok e then emit (EvMemsetThreads size)
   else if size =? 0 then emit (EvMemsetThreads size) ;; halt Aborted
   else halt Crashed) ;;
  let t0 := to_ticks e (nsec_start e) in
  let c0 := to_ticks e (getticks_start e) in
  emit (EvNsec t0) ;;
  emit (EvGetticks c0) ;;
  create_loop e (Z.to_nat (numthreads l)) 0 ;;
  write_hounds 1 ;;
  join_loop e (Z.to_nat (numthreads l)) 0 ;;
  let c1 := to_ticks e (getticks_end e) in
  let t1 := to_ticks e (nsec_end e) in
  emit (EvGetticks c1) ;;
  emit (EvNsec t1) ;;
  ret (mkTiming t0 t1 c0 c1).

(** The [else] branch: the core is called by [main] itself. *)
Definition run_inline (e : env) : M timing :=
  write_hounds 1 ;;
  let t0 := to_ticks e (nsec_start e) in
  let c0 := to_ticks e (getticks_start e) in
  emit (EvNsec t0) ;;
  emit (EvGetticks c0) ;;
  emit (EvFtqCore 0) ;;
  let c1 := to_ticks e (getticks_end e) in
  let t1 := to_ticks e (nsec_end e) in
  emit (EvGetticks c1) ;;
  emit (EvNsec t1) ;;
  ret (mkTiming t0 t1 c0 c1).

(** *** Reporting *)

(** [samples[idx]] once sampling is over. *)
Definition sample (e : env) (idx : Z) : Z :=
  wrap ullong_bits (samples_after e idx).

(** [nspercycle = (1.0 * ns) / cycles;] ([float] object). *)
Definition nspercycle_of (ns cycles : Z) : float :=
  f_of_double (d_div (d_mul (d_of_Z 1) (d_of_Z ns)) (d_of_Z cycles)).

(** The first field of a data line:
    [(ticks) (nspercycle * (samples[k] - base))], printed with [%lld]. *)
Definition elapsed_ns (e : env) (nspercycle : float) (base ts : Z) : Z :=
  to_signed 64
    (ticks_of_float e
       (f_mul nspercycle (f_of_Z (wrap ullong_bits (ts - base))))).

(** One [fprintf(f, "%lld %lld\n", ...)] for the pair at index [k]. *)
Definition sample_line (e : env) (f : stream) (nspercycle : float)
    (base : Z) (k : Z) : event :=
  EvSample f (elapsed_ns e nspercycle base (sample e k))
             (to_signed 64 (sample e (k + 1))).

(** [header(f, nspercycle, core)] *)
Definition header (f : stream) (nspercycle : float) (core : Z) : M unit :=
  g <- get ;;
  emit (EvHeader f (d_div d_1e9 (d_of_Z (interval g))) (ticksperns g) core
                 (negb (ignore_wire_failures g =? 0))).

(** [for (i = 0, base = samples[0]; i < numsamples; i++) fprintf(stdout,
    ..., samples[i * 2] ..., samples[i * 2 + 1]);] *)
Fixpoint stdout_loop (e : env) (nspercycle : float) (base : Z)
    (n : nat) (i : Z) : M unit :=
  match n with
  | O => ret tt
  | S n' =>
      emit (sample_line e Stdout nspercycle base (i * 2)) ;;
      stdout_loop e nspercycle base n' (i + 1)
  end.

(** Index arithmetic of the per-file loop, in [unsigned long]:
    [j * numsamples * 2 + i * 2]. *)
Definition slot (e : env) (nsamples j i : Z) : Z :=
  let w := ulong_bits (model e) in
  wrap w (wrap w (wrap w (j * nsamples) * 2) + i * 2).

(** [for (i = 0, base = samples[numsamples * j * 2]; i < numsamples; i++)
    fprintf(fp, ..., samples[j * numsamples * 2 + i * 2] ...,
    samples[j * numsamples * 2 + i * 2 + 1]);] *)
Fixpoint file_loop (e : env) (nspercycle : float) (nsamples j base : Z)
    (n : nat) (i : Z) : M unit :=
  match n with
  | O => ret tt
  | S n' =>
      emit (sample_line e (DatFile j) nspercycle base (slot e nsamples j i)) ;;
      file_loop e nspercycle nsamples j base n' (i + 1)
  end.

(** [for (j = 0; j < numthreads; j++) { ... }] *)
Fixpoint files_loop (e : env) (l : locals) (nspercycle : float)
    (nsamples : Z) (n : nat) (j : Z) : M unit :=
  match n with
  | O => ret tt
  | S n' =>
      emit (EvFopen (outname l) j (fopen_ok e j)) ;;
      (if fopen_ok e j then ret tt
       else emit EvPerrorFopen ;; halt (Exited EXIT_FAILURE)) ;;
      header (DatFile j) nspercycle j ;;
      let base := to_ticks e (sample e (slot e nsamples j 0)) in
      file_loop e nspercycle nsamples j base (Z.to_nat nsamples) 0 ;;
      emit (EvFclose j) ;;
      files_loop e l nspercycle nsamples n' (j + 1)
  end.

(** From "We now have the total ns used" to the end of the output. *)
Definition report (e : env) (l : locals) (t : timing) : M unit :=
  let ns := to_ticks e (end_ t - start t) in
  let cycles := to_ticks e (cycleend t - cyclestart t) in
  emit (EvStderrTimes (to_signed 64 (start t)) (to_signed 64 (end_ t))
                      (to_signed 64 ns)) ;;
  emit (EvStderrCycles (to_signed 64 (cyclestart t)) (to_signed 64 (cycleend t))
                       (to_signed 64 cycles)) ;;
  let nspercycle := nspercycle_of ns cycles in
  emit (EvStderrAvg (d_div (d_mul (d_of_Z 1) (d_of_Z cycles)) (d_of_Z ns))
                    nspercycle) ;;
  g <- get ;;
  emit (EvStderrTicksperns (ticksperns g)) ;;
  emit (EvStderrFrequency (d_div d_1e9 (d_of_Z (interval g)))) ;;
  if use_stdout l =? 1
  then
    header Stdout nspercycle 0 ;;
    stdout_loop e nspercycle (to_ticks e (sample e 0))
                (Z.to_nat (numsamples g)) 0
  else
    files_loop e l nspercycle (numsamples g) (Z.to_nat (numthreads l)) 0.

(** *** [main] *)

Definition main (e : env) (opts : list cli_option) : M unit :=
  l <- parse_options e opts initial_locals ;;
  sanity_check ;;
  allocate_samples e l ;;
  check_stdout l ;;
  calibrate e ;;
  t <- (if use_threads l =? 1 then run_threads e l else run_inline e) ;;
  report e l t ;;
  if use_threads l =? 0 then halt (Exited EXIT_SUCCESS)
  else emit EvPthreadExit ;; halt ThreadExited.

(** A run from the initial globals [g0]: trace, final globals, outcome. *)
Definition run (e : env) (opts : list cli_option) (g0 : globals)
  : list event * globals * result unit :=
  main e opts g0.

Definition trace_of (e : env) (opts : list cli_option) (g0 : globals)
  : list event := fst (fst (run e opts g0)).
Definition final_globals (e : env) (opts : list cli_option) (g0 : globals)
  : globals := snd (fst (run e opts g0)).
Definition outcome_of (e : env) (opts : list cli_option) (g0 : globals)
  : result unit := snd (run e opts g0).

End Ftq.

(** ** Observations on traces *)

Module Obs.

Import CInt CFloat Libc Ftq.
Local Open Scope ftq_scope.

(** The part of [main] an event comes from, in program order: option
    parsing (0), the sanity check (1), sample storage (2), the stdout
    check (3), calibration (4), sampling (5), reporting (6), the final
    [pthread_exit] (7). *)
Definition stage_of (ev : event) : nat :=
  match ev with
  | EvUsage => 0
  | EvWarnMax => 1
  | EvMmap _ _ | EvPerrorMmap | EvMallocSamples _ _ | EvMemsetSamples _ => 2
  | EvErrStdout => 3
  | EvComputeTicksperns => 4
  | EvThreadinit _ _ | EvErrThreadinit | EvMallocThreads _ _
  | EvMemsetThreads _ | EvNsec _ | EvGetticks _ | EvPthreadCreate _ _
  | EvErrCreate | EvHounds _ | EvPthreadJoin _ _ | EvErrJoin
  | EvFtqCore _ => 5
  | EvStderrTimes _ _ _ | EvStderrCycles _ _ _ | EvStderrAvg _ _
  | EvStderrTicksperns _ | EvStderrFrequency _ | EvFopen _ _ _
  | EvPerrorFopen | EvHeader _ _ _ _ _ | EvSample _ _ _ | EvFclose _ => 6
  | EvPthreadExit => 7
  end%nat.

(** The stages of a trace never decrease, starting at [k] or later. *)
Fixpoint staged (k : nat) (tr : list event) : bool :=
  match tr with
  | [] => true
  | ev :: tr' => (k <=? stage_of ev)%nat && staged (stage_of ev) tr'
  end.

(** No event of a stage after [k]. *)
Definition upto (k : nat) (tr : list event) : bool :=
  forallb (fun ev => (stage_of ev <=? k)%nat) tr.

(** No event of a stage before [k]. *)
Definition from (k : nat) (tr : list event) : bool :=
  forallb (fun ev => (k <=? stage_of ev)%nat) tr.

(** Kinds of events. *)
Definition is_hounds (ev : event) : bool :=
  match ev with EvHounds _ => true | _ => false end.
Definition is_create (ev : event) : bool :=
  match ev with EvPthreadCreate _ _ => true | _ => false end.
Definition is_join (ev : event) : bool :=
  match ev with EvPthreadJoin _ _ => true | _ => false end.
Definition is_core (ev : event) : bool :=
  match ev with EvFtqCore _ => true | _ => false end.
Definition is_clock (ev : event) : bool :=
  match ev with EvNsec _ | EvGetticks _ => true | _ => false end.
Definition is_calibration (ev : event) : bool :=
  match ev with EvComputeTicksperns => true | _ => false end.
(** The allocation of the sample buffer. *)
Definition is_allocation (ev : event) : bool :=
  match ev with EvMmap _ _ | EvMallocSamples _ _ => true | _ => false end.
(** Calls into the thread layer. *)
Definition is_concurrency (ev : event) : bool :=
  match ev with
  | EvThreadinit _ _ | EvPthreadCreate _ _ | EvPthreadJoin _ _
  | EvPthreadExit => true
  | _ => false
  end.
Definition is_sample (ev : event) : bool :=
  match ev with EvSample _ _ _ => true | _ => false end.

Definition count (p : event -> bool) (tr : list event) : nat :=
  List.length (filter p tr).

Definition none (p : event -> bool) (tr : list event) : bool :=
  forallb (fun ev => negb (p ev)) tr.

(** [main] cut at its stages. *)
Definition setup (e : env) (opts : list cli_option) : M locals :=
  l <- parse_options e opts initial_locals ;;
  sanity_check ;;
  allocate_samples e l ;;
  check_stdout l ;;
  calibrate e ;;
  ret l.

Definition sampling (e : env) (l : locals) : M timing :=
  if use_threads l =? 1 then run_threads e l else run_inline e.

Definition finish (l : locals) : M unit :=
  if use_threads l =? 0 then halt (Exited EXIT_SUCCESS)
  else emit EvPthreadExit ;; halt ThreadExited.

(** A computation whose events all lie in the stages [a..b], in order. *)
Definition within {A} (a b : nat) (m : M A) : Prop :=
  forall g, staged a (fst (fst (m g))) = true /\
            upto b (fst (fst (m g))) = true.

(** A computation that leaves the projection [f] of the globals alone. *)
Definition keeps {A X} (f : globals -> X) (m : M A) : Prop :=
  forall g, f (snd (fst (m g))) = f g.

(** The successful [pthread_create] / [pthread_join] calls for the
    threads [0 .. n-1], in index order. *)
Definition creates_ok (n : nat) : list event :=
  map (fun i => EvPthreadCreate (Z.of_nat i) 0) (seq 0 n).
Definition joins_ok (n : nat) : list event :=
  map (fun i => EvPthreadJoin (Z.of_nat i) 0) (seq 0 n).

(** The options that matter to a claim. *)
Definition is_opt_t (o : cli_option) : bool :=
  match o with Opt_t _ => true | _ => false end.
Definition is_opt_n (o : cli_option) : bool :=
  match o with Opt_n _ => true | _ => false end.

(** The options that end the option loop, and the run with it: those
    that lead to [usage], a long option whose case dereferences the NULL
    [optarg], and a [-o] whose argument does not fit [outname]. *)
Definition ends_parsing (o : cli_option) : bool :=
  match o with
  | Opt_h | Opt_other => true
  | Opt_null Code_a => false
  | Opt_null _ => true
  | Opt_o optarg => negb (fits_outname optarg)
  | _ => false
  end.

(** The value the last [-T] that scanned stored, if any. *)
Fixpoint supplied_ticksperns (opts : list cli_option) (acc : option double)
  : option double :=
  match opts with
  | [] => acc
  | Opt_T (Some d) :: opts' => supplied_ticksperns opts' (Some d)
  | _ :: opts' => supplied_ticksperns opts' acc
  end.

(** Whether a [-T] option is on the command line. *)
Definition explicit_ticksperns (opts : list cli_option) : bool :=
  existsb (fun o => match o with Opt_T _ => true | _ => false end) opts.

(** What the option loop leaves: the locals and the globals, when it
    runs to its end. *)
Definition parsed (e : env) (opts : list cli_option) (g0 : globals)
  : option (locals * globals) :=
  match parse_options e opts initial_locals g0 with
  | (_, g, Ret l) => Some (l, g)
  | (_, _, Halt _) => None
  end.

(** The ways the option loop ends a run: in [usage], whose text is the
    only output; on a null pointer; past the end of [outname]. *)
Definition parse_stop (t : list event) (o : outcome) : Prop :=
  t = [EvUsage] /\ o = Exited EXIT_FAILURE \/
  t = [] /\ (o = Crashed \/ o = Undefined).

(** The pieces of the setup stage, spelled out. *)
Definition cap (g : globals) : globals :=
  if numsamples g >? MAX_SAMPLES then set_numsamples MAX_SAMPLES g else g.

Definition warn_trace (g : globals) : list event :=
  if numsamples g >? MAX_SAMPLES then [EvWarnMax] else [].

Definition alloc_trace (e : env) (size : Z) : list event :=
  EvMmap size (mmap_ok e)
  :: (if mmap_ok e then []
      else [EvPerrorMmap; EvMallocSamples size (malloc_samples_ok e)]).

Definition alloc_ok (e : env) : bool := mmap_ok e || malloc_samples_ok e.

Definition rejected (l : locals) : bool :=
  (use_stdout l =? 1) && (numthreads l >? 1).

Definition calib_trace (g : globals) : list event :=
  if is_zero (ticksperns g) then [EvComputeTicksperns] else [].

Definition calibrated (e : env) (g : globals) : globals :=
  if is_zero (ticksperns g) then set_ticksperns (compute_ticksperns e) g
  else g.

(** The clock readings of [main] as values of type [ticks]. *)
Definition measured (e : env) : timing :=
  {| start := to_ticks e (nsec_start e);
     end_ := to_ticks e (nsec_end e);
     cyclestart := to_ticks e (getticks_start e);
     cycleend := to_ticks e (getticks_end e) |}.

Definition threads_size (e : env) (l : locals) : Z :=
  size_mul e (sizeof_pthread_t e) (wrap (ulong_bits (model e)) (numthreads l)).

(** The sampling stage of a run that gets through it, sequential path:
    the start signal, the start readings, the core, the end readings. *)
Definition inline_sampling (e : env) : list event :=
  [EvHounds 1;
   EvNsec (start (measured e)); EvGetticks (cyclestart (measured e));
   EvFtqCore 0;
   EvGetticks (cycleend (measured e)); EvNsec (end_ (measured e))].

(** What the threaded path does before it creates a thread: thread
    set-up and the start readings. *)
Definition threads_prologue (e : env) (l : locals) : list event :=
  [EvThreadinit (numthreads l) (threadinit_rc e);
   EvMallocThreads (threads_size e l) true;
   EvMemsetThreads (threads_size e l);
   EvNsec (start (measured e)); EvGetticks (cyclestart (measured e))].

(** The sampling stage of a run that gets through it, threaded path:
    the prologue, every thread created, the start signal, every thread
    joined, the end readings. *)
Definition threaded_sampling (e : env) (l : locals) : list event :=
  threads_prologue e l
  ++ creates_ok (Z.to_nat (numthreads l))
  ++ [EvHounds 1]
  ++ joins_ok (Z.to_nat (numthreads l))
  ++ [EvGetticks (cycleend (measured e)); EvNsec (end_ (measured e))].

(** The elapsed nanoseconds of a data line as [main] computes them: the
    distance in ticks to the first timestamp of the slice, times the
    average nanoseconds per tick of the run just measured,
    [(end - start) / (cycleend - cyclestart)], held in a [float]. *)
Definition run_nspercycle (e : env) : float :=
  nspercycle_of
    (to_ticks e (end_ (measured e) - start (measured e)))
    (to_ticks e (cycleend (measured e) - cyclestart (measured e))).

Definition reported_ns (e : env) (first ts : Z) : Z :=
  to_signed 64
    (ticks_of_float e
       (f_mul (run_nspercycle e) (f_of_Z (wrap ullong_bits (ts - first))))).

(** The data lines of thread [j] for [n] samples per thread. *)
Definition thread_lines (e : env) (f : stream) (n j : Z) : list event :=
  map (fun i =>
         EvSample f
           (reported_ns e (sample e (slot e n j 0))
                          (sample e (slot e n j (Z.of_nat i))))
           (to_signed 64 (sample e (slot e n j (Z.of_nat i) + 1))))
      (seq 0 (Z.to_nat n)).

(** The trace of the setup stage when it hands over to sampling. *)
Definition setup_trace (e : env) (l : locals) (g1 : globals) : list event :=
  let size := samples_size e (numsamples (cap g1)) (numthreads l) in
  warn_trace g1 ++ alloc_trace e size ++ [EvMemsetSamples size]
    ++ calib_trace (cap g1).

(** The last event and the outcome of a run that gets through the report. *)
Definition finish_trace (l : locals) : list event :=
  if use_threads l =? 0 then [] else [EvPthreadExit].
Definition finish_outcome (l : locals) : outcome :=
  if use_threads l =? 0 then Exited EXIT_SUCCESS else ThreadExited.

(** [main] from the sampling stage on. *)
Definition after_setup (e : env) (l : locals) : M unit :=
  t <- sampling e l ;; report e l t ;; finish l.

(** What [main] does once the sample buffer is cleared, from the
    globals [g1] the option loop left. *)
Definition continuation (e : env) (l : locals) (g1 : globals)
  : list event * globals * result unit :=
  if rejected l then ([EvErrStdout], cap g1, Halt (Exited EXIT_FAILURE))
  else
    match after_setup e l (calibrated e (cap g1)) with
    | (t, g, r) => (calib_trace (cap g1) ++ t, g, r)
    end.

(** The same environment with a [mmap] that succeeds. *)
Definition primary_ok (e : env) : env :=
  mkEnv (model e) (ticks_signed e) (sizeof_pthread_t e) (conv_undef e)
        (atoi_overflow e) true (malloc_samples_ok e) (threadinit_rc e)
        (malloc_threads_ok e)
        (pthread_create_rc e) (pthread_join_rc e) (fopen_ok e)
        (compute_ticksperns e) (nsec_start e) (getticks_start e)
        (getticks_end e) (nsec_end e) (samples_after e).




End Obs.

(** ** The claims of the specification where the program differs, as the
    specification words them *)

Module Stated.

Import CInt CFloat Libc Ftq Obs.

(** Data lines computed from the calibration factor: the elapsed time is
    [(timestamp - first_timestamp) * nanoseconds_per_tick] with
    [nanoseconds_per_tick = derive ticks_per_ns], whatever [derive] is. *)
Definition calibrated_ns (derive : double -> float) (e : env) (tpn : double)
    (first ts : Z) : Z :=
  to_signed 64
    (ticks_of_float e
       (f_mul (derive tpn) (f_of_Z (wrap ullong_bits (ts - first))))).

Definition calibrated_lines (derive : double -> float) (e : env)
    (tpn : double) (n : nat) : list event :=
  map (fun i =>
         EvSample Stdout
           (calibrated_ns derive e tpn (sample e 0) (sample e (Z.of_nat i * 2)))
           (to_signed 64 (sample e (Z.of_nat i * 2 + 1))))
      (seq 0 n).

(** The data lines of a run are those computed from the calibration
    factor of that run. *)
Definition lines_from_calibration (derive : double -> float) (e : env)
    (opts : list cli_option) (g0 : globals) (n : nat) : Prop :=
  filter is_sample (trace_of e opts g0) =
  calibrated_lines derive e (ticksperns (final_globals e opts g0)) n.

(** Stdout output with more than one thread is rejected before any
    allocation of the sample buffer and before any thread creation. *)
Definition rejected_before_allocation (e : env) (opts : list cli_option)
    (g0 : globals) : Prop :=
  forall l g1, parsed e opts g0 = Some (l, g1) ->
    use_stdout l = 1 -> numthreads l > 1 ->
    outcome_of e opts g0 = Halt (Exited EXIT_FAILURE) /\
    none is_allocation (trace_of e opts g0) = true /\
    none is_create (trace_of e opts g0) = true.

(** With [numthreads = 1] no thread is spawned, no concurrency primitive
    is invoked, and [main] calls the sampling core itself. *)
Definition one_worker_is_sequential (e : env) (opts : list cli_option)
    (g0 : globals) : Prop :=
  forall l g1, parsed e opts g0 = Some (l, g1) ->
    numthreads l = 1 ->
    none is_concurrency (trace_of e opts g0) = true /\
    In (EvFtqCore 0) (trace_of e opts g0).

(** The start readings come immediately before the start signal: the
    trace has [nsec()], [getticks()], [hounds = ..] in a row. *)
Fixpoint start_right_before_release (tr : list event) : bool :=
  match tr with
  | EvNsec _ :: tr' =>
      match tr' with
      | EvGetticks _ :: EvHounds _ :: _ => true
      | _ => start_right_before_release tr'
      end
  | _ :: tr' => start_right_before_release tr'
  | [] => false
  end.

(** The weaker reading: when the start signal is written, both start
    readings have been taken. *)
Fixpoint start_before_release (seen_nsec seen_ticks : bool)
    (tr : list event) : bool :=
  match tr with
  | [] => true
  | EvHounds _ :: tr' =>
      seen_nsec && seen_ticks && start_before_release seen_nsec seen_ticks tr'
  | EvNsec _ :: tr' => start_before_release true seen_ticks tr'
  | EvGetticks _ :: tr' => start_before_release seen_nsec true tr'
  | _ :: tr' => start_before_release seen_nsec seen_ticks tr'
  end.

(** The ordering of the clock readings as the specification has it. *)
Definition start_read_right_before_release (e : env)
    (opts : list cli_option) (g0 : globals) : Prop :=
  start_right_before_release (trace_of e opts g0) = true.
Definition start_read_before_release (e : env)
    (opts : list cli_option) (g0 : globals) : Prop :=
  start_before_release false false (trace_of e opts g0) = true.

(** The calibration routine runs exactly when no [-T] is given, and a
    value given with [-T] is the calibration factor of the run. *)
Definition calibrates_iff_not_supplied (e : env) (opts : list cli_option)
    (g0 : globals) : Prop :=
  (In EvComputeTicksperns (trace_of e opts g0) <->
   explicit_ticksperns opts = false) /\
  (forall d, supplied_ticksperns opts None = Some d ->
             ticksperns (final_globals e opts g0) = d).


(** The text of a negative integer: a minus sign, then digits only, not
    all of them 0. *)
Fixpoint all_digits (s : string) : bool :=
  match s with
  | String c s' =>
      match digit_of c with Some _ => all_digits s' | None => false end
  | EmptyString => true
  end.
Definition negative_integer (s : string) : bool :=
  match s with
  | String "-"%char s' => all_digits s' && (0 <? digits s' 0)
  | _ => false
  end.

(** With [-n s] for a negative integer [s], the sample count in effect
    is [MAX_SAMPLES]. *)
Definition negative_count_becomes_max (e : env) (s : string) (g0 : globals)
  : Prop :=
  negative_integer s = true ->
  numsamples (final_globals e [Opt_n s] g0) = MAX_SAMPLES.

End Stated.

(** ** A concrete machine and concrete command lines *)

Module Example.

Import CInt CFloat Libc Ftq Obs.

(** An LP64 machine with the GNU C library where every call succeeds;
    the run takes 2000 ns and 4000 ticks, and the buffer holds the pair
    (100 k + 7, 100 k + 107) at the even index k. *)
Definition linux : env :=
  {| model := LP64;
     ticks_signed := false;
     sizeof_pthread_t := 8;
     conv_undef := fun _ => 2 ^ 63;
     atoi_overflow := glibc_overflow LP64;
     mmap_ok := true;
     malloc_samples_ok := true;
     threadinit_rc := 0;
     malloc_threads_ok := true;
     pthread_create_rc := fun _ => 0;
     pthread_join_rc := fun _ => 0;
     fopen_ok := fun _ => true;
     compute_ticksperns := d_of_Z 3;
     nsec_start := 1000;
     getticks_start := 5000;
     getticks_end := 9000;
     nsec_end := 3000;
     samples_after := fun k => 100 * k + 7 |}.

(** The same machine and the same buffer, but the run took 4000 ns. *)
Definition linux_slow : env :=
  mkEnv (model linux) (ticks_signed linux) (sizeof_pthread_t linux)
        (conv_undef linux) (atoi_overflow linux) (mmap_ok linux)
        (malloc_samples_ok linux)
        (threadinit_rc linux) (malloc_threads_ok linux)
        (pthread_create_rc linux) (pthread_join_rc linux) (fopen_ok linux)
        (compute_ticksperns linux) (nsec_start linux) (getticks_start linux)
        (getticks_end linux) 5000 (samples_after linux).

(** The same machine with a [mmap] that fails. *)
Definition linux_no_mmap : env :=
  mkEnv (model linux) (ticks_signed linux) (sizeof_pthread_t linux)
        (conv_undef linux) (atoi_overflow linux) false
        (malloc_samples_ok linux)
        (threadinit_rc linux) (malloc_threads_ok linux)
        (pthread_create_rc linux) (pthread_join_rc linux) (fopen_ok linux)
        (compute_ticksperns linux) (nsec_start linux) (getticks_start linux)
        (getticks_end linux) (nsec_end linux) (samples_after linux).

(** [ftq -T 2 -n 2 -s] *)
Definition argv_T2_n2_s : list cli_option :=
  [Opt_T (Some (d_of_Z 2)); Opt_n "2"; Opt_s].
(** [ftq -s -t 2] *)
Definition argv_s_t2 : list cli_option := [Opt_s; Opt_t "2"].
(** [ftq -t 1 -n 2] *)
Definition argv_t1_n2 : list cli_option := [Opt_t "1"; Opt_n "2"].
(** [ftq -t 2 -n 2] *)
Definition argv_t2_n2 : list cli_option := [Opt_t "2"; Opt_n "2"].
(** [ftq -n 2] *)
Definition argv_n2 : list cli_option := [Opt_n "2"].
(** [ftq -T 0 -n 2] *)
Definition argv_T0_n2 : list cli_option :=
  [Opt_T (Some (S754_zero false)); Opt_n "2"].
(** [ftq -n -5 -s] *)
Definition argv_nminus5_s : list cli_option := [Opt_n "-5"; Opt_s].
(** [ftq -n -4294967295] *)
Definition argv_nminus2p32 : list cli_option := [Opt_n "-4294967295"].
(** [ftq -f 0 -n 2 -s] *)
Definition argv_f0_n2_s : list cli_option := [Opt_f "0"; Opt_n "2"; Opt_s].

End Example.

(** ** The output of the report, spelled out *)

Module Shape.

Import CInt CFloat Libc Ftq Obs.

(** The five lines [main] writes to stderr once sampling is over. *)
Definition summary_trace (e : env) (t : timing) (g : globals) : list event :=
  let ns := to_ticks e (end_ t - start t) in
  let cycles := to_ticks e (cycleend t - cyclestart t) in
  [EvStderrTimes (to_signed 64 (start t)) (to_signed 64 (end_ t))
                 (to_signed 64 ns);
   EvStderrCycles (to_signed 64 (cyclestart t)) (to_signed 64 (cycleend t))
                  (to_signed 64 cycles);
   EvStderrAvg (d_div (d_mul (d_of_Z 1) (d_of_Z cycles)) (d_of_Z ns))
               (nspercycle_of ns cycles);
   EvStderrTicksperns (ticksperns g);
   EvStderrFrequency (d_div d_1e9 (d_of_Z (interval g)))].

(** The [float] the report multiplies by, for the timing [t]. *)
Definition nspercycle_for (e : env) (t : timing) : float :=
  nspercycle_of (to_ticks e (end_ t - start t))
                (to_ticks e (cycleend t - cyclestart t)).

(** What [header(f, nspercycle, core)] prints under the globals [g]. *)
Definition header_event (f : stream) (core : Z) (g : globals) : event :=
  EvHeader f (d_div d_1e9 (d_of_Z (interval g))) (ticksperns g) core
           (negb (ignore_wire_failures g =? 0)).

(** The output of the stdout path: the header for core 0 and one line
    per sample of the first slice. *)
Definition stdout_output (e : env) (x : float) (g : globals) : list event :=
  header_event Stdout 0 g
  :: map (fun i => sample_line e Stdout x (to_ticks e (sample e 0))
                               (Z.of_nat i * 2))
         (seq 0 (Z.to_nat (numsamples g))).

(** The data lines of the file of thread [j]. *)
Definition file_lines (e : env) (x : float) (ns : Z) (j : nat) : list event :=
  map (fun i =>
         sample_line e (DatFile (Z.of_nat j)) x
           (to_ticks e (sample e (slot e ns (Z.of_nat j) 0)))
           (slot e ns (Z.of_nat j) (Z.of_nat i)))
      (seq 0 (Z.to_nat ns)).

(** Everything written for thread [j] when its file opens: [fopen], the
    header for core [j], the data lines, [fclose]. *)
Definition file_block (e : env) (l : locals) (x : float) (ns : Z)
    (g : globals) (j : nat) : list event :=
  [EvFopen (outname l) (Z.of_nat j) true;
   header_event (DatFile (Z.of_nat j)) (Z.of_nat j) g]
  ++ file_lines e x ns j
  ++ [EvFclose (Z.of_nat j)].

(** The [fopen] that fails and its [perror]. *)
Definition fopen_failure (l : locals) (j : nat) : list event :=
  [EvFopen (outname l) (Z.of_nat j) false; EvPerrorFopen].

Definition is_header (ev : event) : bool :=
  match ev with EvHeader _ _ _ _ _ => true | _ => false end.
Definition is_fopen (ev : event) : bool :=
  match ev with EvFopen _ _ _ => true | _ => false end.

(** What is written to the stream [f]. *)
Definition stream_eqb (f f' : stream) : bool :=
  match f, f' with
  | Stdout, Stdout => true
  | DatFile j, DatFile j' => j =? j'
  | _, _ => false
  end.
Definition is_header_on (f : stream) (ev : event) : bool :=
  match ev with EvHeader f' _ _ _ _ => stream_eqb f f' | _ => false end.
Definition is_sample_on (f : stream) (ev : event) : bool :=
  match ev with EvSample f' _ _ => stream_eqb f f' | _ => false end.

(** A run that went through to its last statement. *)
Definition completed (r : result unit) : bool :=
  match r with
  | Halt (Exited 0) => true
  | Halt ThreadExited => true
  | _ => false
  end.

End Shape.

(** ** Machines on which something fails *)

Module Failing.

Import CInt CFloat Libc Ftq Obs.

(** [Example.linux] with other answers from the thread layer and from
    [fopen]. *)
Definition with_failures (init_rc : Z) (create_rc join_rc : Z -> Z)
    (open_ok : Z -> bool) : env :=
  mkEnv (model Example.linux) (ticks_signed Example.linux)
        (sizeof_pthread_t Example.linux) (conv_undef Example.linux)
        (atoi_overflow Example.linux)
        (mmap_ok Example.linux) (malloc_samples_ok Example.linux)
        init_rc (malloc_threads_ok Example.linux)
        create_rc join_rc open_ok
        (compute_ticksperns Example.linux) (nsec_start Example.linux)
        (getticks_start Example.linux) (getticks_end Example.linux)
        (nsec_end Example.linux) (samples_after Example.linux).

(** The second [pthread_create] returns EAGAIN. *)
Definition create_fails : env :=
  with_failures 0 (fun i => if i =? 1 then 11 else 0) (fun _ => 0)
                (fun _ => true).

(** The second [pthread_join] returns ESRCH. *)
Definition join_fails : env :=
  with_failures 0 (fun _ => 0) (fun i => if i =? 1 then 3 else 0)
                (fun _ => true).

(** [threadinit] returns -1. *)
Definition threadinit_fails : env :=
  with_failures (-1) (fun _ => 0) (fun _ => 0) (fun _ => true).

(** The second output file cannot be created. *)
Definition fopen_fails : env :=
  with_failures 0 (fun _ => 0) (fun _ => 0) (fun j => negb (j =? 1)).

(** [ftq -t 3 -n 2] *)
Definition argv_t3_n2 : list cli_option := [Opt_t "3"; Opt_n "2"].
(** [ftq -t 0 -n 2] *)
Definition argv_t0_n2 : list cli_option := [Opt_t "0"; Opt_n "2"].

End Failing.

(** ** What the option loop leaves, and what [main] reads of it *)

Module Options.

Import CInt CFloat Libc Ftq Obs.

(** The value carried by the last option that [sel] selects. *)
Fixpoint last_of {A} (sel : cli_option -> option A)
    (opts : list cli_option) : option A :=
  match opts with
  | [] => None
  | o :: opts' =>
      match last_of sel opts' with
      | Some a => Some a
      | None => sel o
      end
  end.

Definition arg_t (o : cli_option) : option string :=
  match o with Opt_t s => Some s | _ => None end.
Definition arg_o (o : cli_option) : option string :=
  match o with Opt_o s => Some s | _ => None end.
Definition arg_f (o : cli_option) : option string :=
  match o with Opt_f s => Some s | _ => None end.
Definition arg_n (o : cli_option) : option string :=
  match o with Opt_n s => Some s | _ => None end.
(** [test_argument = optarg]: the argument of [-a], or the NULL that
    [--argument] leaves in [optarg]. *)
Definition arg_a (o : cli_option) : option (option string) :=
  match o with
  | Opt_a s => Some (Some s)
  | Opt_null Code_a => Some None
  | _ => None
  end.
Definition arg_T (o : cli_option) : option double :=
  match o with Opt_T (Some d) => Some d | _ => None end.

Definition is_opt_s (o : cli_option) : bool :=
  match o with Opt_s => true | _ => false end.
Definition is_opt_w (o : cli_option) : bool :=
  match o with Opt_w => true | _ => false end.
Definition is_opt_r (o : cli_option) : bool :=
  match o with Opt_r => true | _ => false end.
Definition is_opt_a (o : cli_option) : bool :=
  match o with Opt_a _ | Opt_null Code_a => true | _ => false end.

(** How many times [-w] is given. *)
Definition count_w (opts : list cli_option) : nat :=
  List.length (filter is_opt_w opts).

(** The globals without [set_realtime] and [test_argument]. *)
Definition view (g : globals) : Z * Z * Z * Z * double :=
  (interval g, numsamples g, hounds g, ignore_wire_failures g, ticksperns g).

(** Two computations that, from globals with the same view, emit the
    same events, end the same way and leave globals with the same view. *)
Definition sim {A} (m m' : M A) : Prop :=
  forall g g', view g = view g' ->
    fst (fst (m g)) = fst (fst (m' g')) /\
    snd (m g) = snd (m' g') /\
    view (snd (fst (m g))) = view (snd (fst (m' g'))).

(** The command line without its [-r] and [-a] options ([--realtime]
    and [--argument] included). *)
Definition strip (opts : list cli_option) : list cli_option :=
  filter (fun o => negb (is_opt_r o || is_opt_a o)) opts.


(** [ftq -r -n 2 -a x -w -o out -t 2 --argument] *)
Definition argv_r_a_n2 : list cli_option :=
  [Opt_r; Opt_n "2"; Opt_a "x"; Opt_w; Opt_o "out"; Opt_t "2";
   Opt_null Code_a].

End Options.
(** ** Laws of the monad and the stage discipline *)

Import CInt CFloat Libc Ftq Obs.
Local Open Scope ftq_scope.

Lemma bind_assoc {A B C} (m : M A) (k : A -> M B) (h : B -> M C) g :
  bind (bind m k) h g = bind m (fun x => bind (k x) h) g.
Proof.
  unfold bind. destruct (m g) as [[t1 g1] [a|o]]; [|reflexivity].
  destruct (k a g1) as [[t2 g2] [b|o]]; [|reflexivity].
  destruct (h b g2) as [[t3 g3] r]. now rewrite app_assoc.
Qed.

Lemma bind_ext {A B} (m : M A) (k k' : A -> M B) g :
  (forall a g', k a g' = k' a g') -> bind m k g = bind m k' g.
Proof.
  intros H. unfold bind. destruct (m g) as [[t1 g1] [a|o]]; [|reflexivity].
  now rewrite H.
Qed.

Lemma bind_ret_l {A B} (a : A) (k : A -> M B) g : bind (ret a) k g = k a g.
Proof. unfold bind, ret. now destruct (k a g) as [[t1 g1] r]. Qed.

Lemma bind_emit {B} ev (k : unit -> M B) g :
  bind (emit ev) k g =
  match k tt g with (t, g', r) => (ev :: t, g', r) end.
Proof. reflexivity. Qed.

Lemma bind_halt {A B} o (k : A -> M B) g :
  bind (halt o) k g = ([], g, Halt o).
Proof. reflexivity. Qed.

Lemma bind_modify {B} f (k : unit -> M B) g :
  bind (modify f) k g = k tt (f g).
Proof. unfold bind, modify. now destruct (k tt (f g)) as [[t g'] r]. Qed.

Lemma bind_get {B} (k : globals -> M B) g : bind get k g = k g g.
Proof. unfold bind, get. now destruct (k g g) as [[t g'] r]. Qed.

(** One step of symbolic execution. *)
Tactic Notation "step" :=
  first [ rewrite bind_assoc | rewrite bind_emit | rewrite bind_ret_l
        | rewrite bind_halt | rewrite bind_modify | rewrite bind_get ];
  cbv beta.
Tactic Notation "step" "in" hyp(H) :=
  first [ rewrite bind_assoc in H | rewrite bind_emit in H
        | rewrite bind_ret_l in H | rewrite bind_halt in H
        | rewrite bind_modify in H | rewrite bind_get in H ];
  cbv beta in H.

(** [main] is its four stages in sequence. *)
Lemma main_stages e opts g :
  main e opts g =
  (l <- setup e opts ;; t <- sampling e l ;; report e l t ;; finish l) g.
Proof.
  unfold main, setup. rewrite bind_assoc. apply bind_ext; intros l g1.
  do 4 (rewrite bind_assoc; apply bind_ext; intros [] ?).
  now rewrite bind_ret_l.
Qed.

Lemma staged_weaken a b tr : (a <= b)%nat -> staged b tr = true -> staged a tr = true.
Proof.
  destruct tr as [|ev tr]; simpl; [easy|].
  rewrite !andb_true_iff, !Nat.leb_le. intros ? [? ?]. split; [lia|easy].
Qed.

Lemma upto_weaken a b tr : (a <= b)%nat -> upto a tr = true -> upto b tr = true.
Proof.
  unfold upto. rewrite !forallb_forall. intros Hab H ev Hin.
  specialize (H ev Hin). rewrite Nat.leb_le in *. lia.
Qed.

Lemma staged_app a b t1 t2 :
  (a <= b)%nat -> staged a t1 = true -> upto b t1 = true ->
  staged b t2 = true -> staged a (t1 ++ t2) = true.
Proof.
  revert a. induction t1 as [|ev t1 IH]; simpl; intros a Hab H1 Hu H2.
  - now apply staged_weaken with b.
  - rewrite andb_true_iff in *. destruct H1 as [Ha H1], Hu as [Hb Hu].
    rewrite Nat.leb_le in Hb. split; [easy|]. now apply IH.
Qed.

Lemma staged_from k tr : staged k tr = true -> from k tr = true.
Proof.
  revert k. induction tr as [|ev tr IH]; simpl; intros k H; [easy|].
  rewrite andb_true_iff in *. destruct H as [Hk H]. split; [easy|].
  apply IH. rewrite Nat.leb_le in Hk. now apply staged_weaken with (stage_of ev).
Qed.

(** In a staged trace, what follows an event is of its stage or later,
    what precedes it of its stage or earlier. *)
Lemma staged_split k l1 ev l2 :
  staged k (l1 ++ ev :: l2) = true ->
  upto (stage_of ev) l1 = true /\ from (stage_of ev) l2 = true.
Proof.
  revert k. induction l1 as [|x l1 IH]; simpl; intros k H.
  - rewrite andb_true_iff in H. split; [easy|]. now apply staged_from.
  - rewrite andb_true_iff in H. destruct H as [_ H].
    destruct (IH _ H) as [H1 H2]. split; [|easy].
    rewrite andb_true_iff. split; [|easy].
    apply staged_from in H. unfold from in H. rewrite forallb_app in H.
    rewrite andb_true_iff in H. destruct H as [_ H]. simpl in H.
    now rewrite andb_true_iff in H.
Qed.

Lemma within_ret {A} a b (x : A) : within a b (ret x).
Proof. now intros g. Qed.

Lemma within_halt {A} a b o : within a b (@halt A o).
Proof. now intros g. Qed.

Lemma within_get a b : within a b get.
Proof. now intros g. Qed.

Lemma within_modify a b f : within a b (modify f).
Proof. now intros g. Qed.

Lemma within_emit a b ev :
  (a <= stage_of ev <= b)%nat -> within a b (emit ev).
Proof.
  intros [H1 H2] g. unfold upto. simpl. rewrite !andb_true_r, !Nat.leb_le. easy.
Qed.

Lemma within_bind {A B} a b c (m : M A) (k : A -> M B) :
  (a <= b <= c)%nat -> within a b m -> (forall x, within b c (k x)) ->
  within a c (bind m k).
Proof.
  intros [Hab Hbc] Hm Hk g. unfold bind.
  destruct (Hm g) as [H1 H2]. destruct (m g) as [[t1 g1] [x|o]]; simpl in *.
  - destruct (Hk x g1) as [H3 H4]. destruct (k x g1) as [[t2 g2] r]; simpl in *.
    split; [now apply staged_app with b|].
    unfold upto in *. rewrite forallb_app, H4, andb_true_r.
    now apply upto_weaken with b.
  - split; [easy|]. now apply upto_weaken with b.
Qed.

Lemma within_weaken {A} a b a' b' (m : M A) :
  (a' <= a)%nat -> (b <= b')%nat -> within a b m -> within a' b' m.
Proof.
  intros Ha Hb H g. destruct (H g). split.
  - now apply staged_weaken with a.
  - now apply upto_weaken with b.
Qed.

Lemma within_if {A} a b (c : bool) (m1 m2 : M A) :
  within a b m1 -> within a b m2 -> within a b (if c then m1 else m2).
Proof. now destruct c. Qed.

(** All events of one stage. *)
Ltac one_stage k :=
  repeat first
    [ apply within_ret | apply within_halt | apply within_get
    | apply within_modify
    | apply within_emit; simpl; lia
    | apply within_if
    | apply (within_bind k k k); [lia | | intros ?] ].

Lemma within_parse e opts l : within 0 0 (parse_options e opts l).
Proof.
  revert l. induction opts as [|o opts IH]; intros l; simpl; [apply within_ret|].
  apply (within_bind 0 0 0); [lia| |intros; apply IH].
  destruct o as [| |s| | | |[d|]| | | | |[]]; simpl; one_stage 0%nat.
Qed.

Lemma within_sanity : within 1 1 sanity_check.
Proof. unfold sanity_check. one_stage 1%nat. Qed.

Lemma within_allocate e l : within 2 2 (allocate_samples e l).
Proof. unfold allocate_samples. one_stage 2%nat. Qed.

Lemma within_check l : within 3 3 (check_stdout l).
Proof. unfold check_stdout. one_stage 3%nat. Qed.

Lemma within_calibrate e : within 4 4 (calibrate e).
Proof. unfold calibrate. one_stage 4%nat. Qed.

Lemma within_setup e opts : within 0 4 (setup e opts).
Proof.
  unfold setup.
  apply (within_bind 0 0 4); [lia|apply within_parse|intros l].
  apply (within_bind 0 1 4); [lia| |intros _].
  { apply within_weaken with 1%nat 1%nat; [lia..|apply within_sanity]. }
  apply (within_bind 1 2 4); [lia| |intros _].
  { apply within_weaken with 2%nat 2%nat; [lia..|apply within_allocate]. }
  apply (within_bind 2 3 4); [lia| |intros _].
  { apply within_weaken with 3%nat 3%nat; [lia..|apply within_check]. }
  apply (within_bind 3 4 4); [lia| |intros _; apply within_ret].
  apply within_weaken with 4%nat 4%nat; [lia..|apply within_calibrate].
Qed.

Lemma within_create_loop e n i : within 5 5 (create_loop e n i).
Proof. revert i. induction n as [|n IH]; intros i; simpl; one_stage 5%nat. apply IH. Qed.

Lemma within_join_loop e n i : within 5 5 (join_loop e n i).
Proof. revert i. induction n as [|n IH]; intros i; simpl; one_stage 5%nat. apply IH. Qed.

Lemma within_sampling e l : within 5 5 (sampling e l).
Proof.
  unfold sampling, run_threads, run_inline, write_hounds.
  one_stage 5%nat; first [apply within_create_loop | apply within_join_loop].
Qed.

Lemma within_stdout_loop e x b n i : within 6 6 (stdout_loop e x b n i).
Proof. revert i. induction n as [|n IH]; intros i; simpl; one_stage 6%nat. apply IH. Qed.

Lemma within_file_loop e x ns j b n i : within 6 6 (file_loop e x ns j b n i).
Proof. revert i. induction n as [|n IH]; intros i; simpl; one_stage 6%nat. apply IH. Qed.

Lemma within_files_loop e l x ns n j : within 6 6 (files_loop e l x ns n j).
Proof.
  revert j. induction n as [|n IH]; intros j; simpl; unfold header;
    one_stage 6%nat; first [apply within_file_loop | apply IH].
Qed.

Lemma within_report e l t : within 6 6 (report e l t).
Proof.
  unfold report, header.
  one_stage 6%nat; first [apply within_stdout_loop | apply within_files_loop].
Qed.

Lemma within_finish l : within 7 7 (finish l).
Proof. unfold finish. one_stage 7%nat. Qed.

Lemma within_main e opts : within 0 7 (main e opts).
Proof.
  intros g. rewrite main_stages. revert g.
  apply (within_bind 0 4 7); [lia|apply within_setup|intros l].
  apply (within_bind 4 5 7); [lia| |intros t].
  { apply within_weaken with 5%nat 5%nat; [lia..|apply within_sampling]. }
  apply (within_bind 5 6 7); [lia| |intros _].
  { apply within_weaken with 6%nat 6%nat; [lia..|apply within_report]. }
  apply within_weaken with 7%nat 7%nat; [lia..|apply within_finish].
Qed.

(** ** The option loop *)

(** Case analysis on an option, with the test of [-o] decided. *)
Ltac option_cases o :=
  destruct o as [s| |s|s|s| |[d|]| |s| | |[]];
  cbn [option_case] in *;
  try match goal with
      | |- context [fits_outname ?x] => destruct (fits_outname x) eqn:Hfit
      | H : context [fits_outname ?x] |- _ =>
          destruct (fits_outname x) eqn:Hfit
      end.

(** The option loop is silent unless it ends in [usage], and it never
    touches the start signal. *)
Lemma parse_cases e opts l g :
  exists g', hounds g' = hounds g /\
    ((exists t o, parse_options e opts l g = (t, g', Halt o) /\
                  parse_stop t o) \/
     exists l', parse_options e opts l g = ([], g', Ret l')).
Proof.
  revert l g. induction opts as [|o opts IH]; intros l g; cbn [parse_options].
  - exists g. split; [easy|]. right. now exists l.
  - unfold bind.
    option_cases o; simpl;
      try (exists g; split; [easy|]; left; eexists _, _;
           split; [reflexivity|]; unfold parse_stop; tauto);
      match goal with
      | |- context [parse_options e opts ?l' ?g'] =>
          destruct (IH l' g') as [g2 [Hh [[t [o [H Hs]]]|[l2 H]]]]; rewrite H;
          exists g2; (split; [exact Hh|]);
          [left; now exists t, o|right; now exists l2]
      end.
Qed.

Lemma parse_stop_trace t o :
  parse_stop t o -> (t = [EvUsage] \/ t = []) /\ upto 0 t = true.
Proof. intros [[-> _]|[-> _]]; split; auto. Qed.

Lemma parse_stop_outcome t o :
  parse_stop t o ->
  o = Exited EXIT_FAILURE \/ o = Crashed \/ o = Undefined.
Proof. intros [[_ ->]|[_ [->| ->]]]; auto. Qed.

Lemma parse_app e o1 o2 l g :
  parse_options e (o1 ++ o2) l g =
  bind (parse_options e o1 l) (fun l' => parse_options e o2 l') g.
Proof.
  revert l g. induction o1 as [|o o1 IH]; intros l g; simpl.
  - now rewrite bind_ret_l.
  - rewrite bind_assoc. apply bind_ext. intros; apply IH.
Qed.

(** Without an option that ends it the loop returns. *)
Lemma parse_returns e opts l g :
  existsb ends_parsing opts = false ->
  exists l' g', parse_options e opts l g = ([], g', Ret l').
Proof.
  revert l g. induction opts as [|o opts IH]; intros l g;
    cbn [parse_options existsb]; intros H.
  - now exists l, g.
  - apply orb_false_iff in H. destruct H as [Ho H]. unfold bind.
    destruct o as [s| |s|s|s| |[d|]| |s| | |[]];
      cbn [ends_parsing option_case] in *; try discriminate;
      try (apply negb_false_iff in Ho; rewrite Ho);
      simpl;
      match goal with
      | |- context [parse_options e opts ?l' ?g'] =>
          destruct (IH l' g' H) as [l2 [g2 E]]; rewrite E; now exists l2, g2
      end.
Qed.

(** A loop that returns met no option that ends it. *)
Lemma parse_returned e opts l g l' g' :
  parse_options e opts l g = ([], g', Ret l') ->
  existsb ends_parsing opts = false.
Proof.
  revert l g. induction opts as [|o opts IH]; intros l g;
    cbn [parse_options existsb]; intros E; [reflexivity|].
  unfold bind in E.
  option_cases o; simpl in *; try discriminate;
    match type of E with
    | context [parse_options e opts ?l1 ?g1] =>
        destruct (parse_options e opts l1 g1) as [[t2 g2] [l2|o2]] eqn:E2;
        [|discriminate]; inversion E; subst; rewrite ?Hfit;
        apply (IH _ _ E2)
    end.
Qed.

(** Options other than [-n] leave [numsamples] alone. *)
Lemma parse_keeps_numsamples e opts l g l' g' :
  existsb is_opt_n opts = false ->
  parse_options e opts l g = ([], g', Ret l') ->
  numsamples g' = numsamples g.
Proof.
  revert l g. induction opts as [|o opts IH]; intros l g; simpl; intros H E.
  - now inversion E.
  - apply orb_false_iff in H. destruct H as [Ho H]. unfold bind in E.
    option_cases o; simpl in *; try discriminate;
      match type of E with
      | context [parse_options e opts ?l1 ?g1] =>
          destruct (parse_options e opts l1 g1) as [[t2 g2] [l2|o2]] eqn:E2;
          [|discriminate]; inversion E; subst; now rewrite (IH _ _ H E2)
      end.
Qed.


(** Only [-t] sets [use_threads] and [numthreads]. *)
Lemma parse_no_t e opts l g l' g' :
  existsb is_opt_t opts = false ->
  parse_options e opts l g = ([], g', Ret l') ->
  use_threads l' = use_threads l /\ numthreads l' = numthreads l.
Proof.
  revert l g. induction opts as [|o opts IH]; intros l g; simpl; intros H E.
  - now inversion E.
  - apply orb_false_iff in H. destruct H as [Ho H]. unfold bind in E.
    option_cases o; simpl in *; try discriminate;
      match type of E with
      | context [parse_options e opts ?l1 ?g1] =>
          destruct (parse_options e opts l1 g1) as [[t2 g2] [l2|o2]] eqn:E2;
          [|discriminate]; inversion E; subst; apply (IH _ _ H E2)
      end.
Qed.

Lemma supplied_some opts d :
  exists d', supplied_ticksperns opts (Some d) = Some d'.
Proof.
  revert d. induction opts as [|o opts IH]; intros d; simpl; [now exists d|].
  destruct o as [s| |s|s|s| |[d1|]| |s| | |[]]; apply IH.
Qed.

(** [ticksperns] after the loop is what the last scanning [-T] stored. *)
Lemma parse_ticksperns_acc e opts acc l g l' g' :
  match acc with Some d => ticksperns g = d | None => True end ->
  parse_options e opts l g = ([], g', Ret l') ->
  ticksperns g' =
  match supplied_ticksperns opts acc with
  | Some d => d
  | None => ticksperns g
  end.
Proof.
  revert acc l g. induction opts as [|o opts IH]; intros acc l g; simpl; intros I E.
  - inversion E; subst. now destruct acc.
  - unfold bind in E.
    option_cases o; simpl in *; try discriminate;
      match type of E with
      | context [parse_options e opts ?l1 ?g1] =>
          destruct (parse_options e opts l1 g1) as [[t2 g2] [l2|o2]] eqn:E2;
          [|discriminate]; inversion E; subst
      end;
      try (refine (IH acc _ _ _ E2); exact I).
    match goal with
    | |- context [supplied_ticksperns opts (Some ?x)] =>
        pose proof (fun I' => IH (Some x) _ _ I' E2) as R;
        specialize (R eq_refl);
        destruct (supplied_some opts x) as [d' Hd]
    end.
    rewrite Hd in *. exact R.
Qed.

Lemma parse_ticksperns e opts l g l' g' :
  parse_options e opts l g = ([], g', Ret l') ->
  ticksperns g' =
  match supplied_ticksperns opts None with
  | Some d => d
  | None => ticksperns g
  end.
Proof. now apply parse_ticksperns_acc. Qed.

(** ** The setup stage *)

Lemma parsed_some e opts g0 l g1 :
  parsed e opts g0 = Some (l, g1) <->
  parse_options e opts initial_locals g0 = ([], g1, Ret l).
Proof.
  unfold parsed.
  destruct (parse_cases e opts initial_locals g0)
    as [g' [_ [[t [o [H _]]]|[l' H]]]];
    rewrite H; split; intros E; inversion E; subst; reflexivity.
Qed.

Lemma parsed_none e opts g0 :
  parsed e opts g0 = None ->
  exists t g' o, main e opts g0 = (t, g', Halt o) /\ parse_stop t o /\
                 hounds g' = hounds g0.
Proof.
  unfold parsed, main, bind.
  destruct (parse_cases e opts initial_locals g0)
    as [g' [Hh [[t [o [H Hs]]]|[l' H]]]];
    rewrite H; [|discriminate]. now exists t, g', o.
Qed.

(** No event of a later stage, and no completion, in a run that the
    option loop ends. *)
Lemma parsed_none_run e opts g0 :
  parsed e opts g0 = None ->
  upto 0 (trace_of e opts g0) = true /\
  (outcome_of e opts g0 = Halt (Exited EXIT_FAILURE) \/
   outcome_of e opts g0 = Halt Crashed \/
   outcome_of e opts g0 = Halt Undefined) /\
  hounds (final_globals e opts g0) = hounds g0.
Proof.
  intros Hp. destruct (parsed_none _ _ _ Hp) as [t [g' [o [H [Hs Hh]]]]].
  unfold trace_of, outcome_of, final_globals, run. rewrite H. cbn [fst snd].
  split; [apply (parse_stop_trace _ _ Hs)|]. split; [|exact Hh].
  destruct (parse_stop_outcome _ _ Hs) as [->|[->| ->]]; auto.
Qed.

(** The setup stage in closed form. *)
Lemma setup_run e opts g0 l g1 :
  parsed e opts g0 = Some (l, g1) ->
  let size := samples_size e (numsamples (cap g1)) (numthreads l) in
  setup e opts g0 =
  if alloc_ok e then
    if rejected l then
      (warn_trace g1 ++ alloc_trace e size ++ [EvMemsetSamples size; EvErrStdout],
       cap g1, Halt (Exited EXIT_FAILURE))
    else
      (warn_trace g1 ++ alloc_trace e size ++ [EvMemsetSamples size]
         ++ calib_trace (cap g1),
       calibrated e (cap g1), Ret l)
  else (warn_trace g1 ++ alloc_trace e size, cap g1, Halt Aborted).
Proof.
  intros H. apply parsed_some in H. unfold setup, bind at 1. rewrite H.
  unfold sanity_check, allocate_samples, check_stdout, calibrate,
    cap, warn_trace, alloc_trace, alloc_ok, rejected, calib_trace, calibrated.
  unfold bind, get, emit, modify, ret, halt. simpl.
  destruct (numsamples g1 >? MAX_SAMPLES); simpl;
    destruct (mmap_ok e); simpl;
    try destruct (malloc_samples_ok e); simpl;
    destruct ((use_stdout l =? 1) && (numthreads l >? 1)); simpl;
    try destruct (is_zero (ticksperns g1)); simpl; reflexivity.
Qed.

(** ** The sampling stage *)

Lemma run_inline_run e g :
  run_inline e g = (inline_sampling e, set_hounds 1 g, Ret (measured e)).
Proof. reflexivity. Qed.

(** The creation loop either creates every thread or stops at the first
    failure; so does the join loop. *)
Lemma create_loop_step e n i g :
  create_loop e (S n) i g =
  if pthread_create_rc e i =? 0 then
    match create_loop e n (i + 1) g with
    | (t, g', r) => (EvPthreadCreate i (pthread_create_rc e i) :: t, g', r)
    end
  else ([EvPthreadCreate i (pthread_create_rc e i); EvErrCreate], g, Halt (Exited EXIT_FAILURE)).
Proof.
  simpl. unfold bind, emit. simpl.
  destruct (pthread_create_rc e i =? 0); [|reflexivity].
  now destruct (create_loop e n (i + 1) g) as [[t g'] r].
Qed.

Lemma create_loop_cases e n a g :
  create_loop e n (Z.of_nat a) g =
    (map (fun i => EvPthreadCreate (Z.of_nat i) 0) (seq a n), g, Ret tt) \/
  exists k rc, (k < n)%nat /\ rc <> 0 /\
    create_loop e n (Z.of_nat a) g =
      (map (fun i => EvPthreadCreate (Z.of_nat i) 0) (seq a k)
         ++ [EvPthreadCreate (Z.of_nat (a + k)) rc; EvErrCreate],
       g, Halt (Exited EXIT_FAILURE)).
Proof.
  revert a g. induction n as [|n IH]; intros a g; [now left|].
  rewrite create_loop_step.
  destruct (pthread_create_rc e (Z.of_nat a) =? 0) eqn:E.
  - apply Z.eqb_eq in E. rewrite E.
    replace (Z.of_nat a + 1) with (Z.of_nat (S a)) by lia.
    destruct (IH (S a) g) as [H|[k [rc [Hk [Hrc H]]]]]; rewrite H.
    + now left.
    + right. exists (S k), rc. repeat split; [lia|easy|].
      simpl. now replace (a + S k)%nat with (S (a + k))%nat by lia.
  - apply Z.eqb_neq in E. right.
    exists 0%nat, (pthread_create_rc e (Z.of_nat a)).
    repeat split; [lia|easy|]. simpl. now rewrite Nat.add_0_r.
Qed.

Lemma join_loop_step e n i g :
  join_loop e (S n) i g =
  if pthread_join_rc e i =? 0 then
    match join_loop e n (i + 1) g with
    | (t, g', r) => (EvPthreadJoin i (pthread_join_rc e i) :: t, g', r)
    end
  else ([EvPthreadJoin i (pthread_join_rc e i); EvErrJoin], g, Halt (Exited EXIT_FAILURE)).
Proof.
  simpl. unfold bind, emit. simpl.
  destruct (pthread_join_rc e i =? 0); [|reflexivity].
  now destruct (join_loop e n (i + 1) g) as [[t g'] r].
Qed.

Lemma join_loop_cases e n a g :
  join_loop e n (Z.of_nat a) g =
    (map (fun i => EvPthreadJoin (Z.of_nat i) 0) (seq a n), g, Ret tt) \/
  exists k rc, (k < n)%nat /\ rc <> 0 /\
    join_loop e n (Z.of_nat a) g =
      (map (fun i => EvPthreadJoin (Z.of_nat i) 0) (seq a k)
         ++ [EvPthreadJoin (Z.of_nat (a + k)) rc; EvErrJoin],
       g, Halt (Exited EXIT_FAILURE)).
Proof.
  revert a g. induction n as [|n IH]; intros a g; [now left|].
  rewrite join_loop_step.
  destruct (pthread_join_rc e (Z.of_nat a) =? 0) eqn:E.
  - apply Z.eqb_eq in E. rewrite E.
    replace (Z.of_nat a + 1) with (Z.of_nat (S a)) by lia.
    destruct (IH (S a) g) as [H|[k [rc [Hk [Hrc H]]]]]; rewrite H.
    + now left.
    + right. exists (S k), rc. repeat split; [lia|easy|].
      simpl. now replace (a + S k)%nat with (S (a + k))%nat by lia.
  - apply Z.eqb_neq in E. right.
    exists 0%nat, (pthread_join_rc e (Z.of_nat a)).
    repeat split; [lia|easy|]. simpl. now rewrite Nat.add_0_r.
Qed.

Lemma none_app p t1 t2 : none p (t1 ++ t2) = none p t1 && none p t2.
Proof. apply forallb_app. Qed.

Lemma count_app p t1 t2 : count p (t1 ++ t2) = (count p t1 + count p t2)%nat.
Proof. unfold count. now rewrite filter_app, length_app. Qed.

Lemma none_count p tr : none p tr = true -> count p tr = 0%nat.
Proof.
  unfold none, count. induction tr as [|ev tr IH]; simpl; [easy|].
  rewrite andb_true_iff. intros [H1 H2]. destruct (p ev); [discriminate|auto].
Qed.



Lemma none_map {X} p (f : X -> event) xs :
  (forall x, p (f x) = false) -> none p (map f xs) = true.
Proof.
  intros H. unfold none. rewrite forallb_forall. intros ev Hin.
  apply in_map_iff in Hin. destruct Hin as [x [<- _]]. now rewrite H.
Qed.

Lemma all_map {X} p (f : X -> event) xs :
  (forall x, p (f x) = true) -> filter p (map f xs) = map f xs.
Proof.
  intros H. induction xs as [|x xs IH]; simpl; [easy|]. now rewrite H, IH.
Qed.

(** Events of a kind [p] that belongs to stages before [k] do not occur
    from stage [k] on, and the other way round. *)
Lemma from_none k p tr :
  (forall ev, p ev = true -> (stage_of ev < k)%nat) ->
  from k tr = true -> none p tr = true.
Proof.
  intros Hp. unfold from, none. rewrite !forallb_forall. intros H ev Hin.
  specialize (H ev Hin). apply Nat.leb_le in H.
  destruct (p ev) eqn:E; [|easy]. apply Hp in E. lia.
Qed.

Lemma upto_none k p tr :
  (forall ev, p ev = true -> (k < stage_of ev)%nat) ->
  upto k tr = true -> none p tr = true.
Proof.
  intros Hp. unfold upto, none. rewrite !forallb_forall. intros H ev Hin.
  specialize (H ev Hin). apply Nat.leb_le in H.
  destruct (p ev) eqn:E; [|easy]. apply Hp in E. lia.
Qed.

(** The three ways through the sampling stage: it completes; a join
    fails after the start signal; it stops before the start signal. *)
Lemma sampling_cases e l g :
  sampling e l g =
    (if use_threads l =? 1 then threaded_sampling e l else inline_sampling e,
     set_hounds 1 g, Ret (measured e)) \/
  (use_threads l = 1 /\ exists k rc,
     (k < Z.to_nat (numthreads l))%nat /\ rc <> 0 /\
     sampling e l g =
       (threads_prologue e l ++ creates_ok (Z.to_nat (numthreads l))
          ++ [EvHounds 1] ++ joins_ok k
          ++ [EvPthreadJoin (Z.of_nat k) rc; EvErrJoin],
        set_hounds 1 g, Halt (Exited EXIT_FAILURE))) \/
  (use_threads l = 1 /\ exists tr o,
     sampling e l g = (tr, g, Halt o) /\ none is_hounds tr = true /\
     none is_join tr = true /\ none is_core tr = true).
Proof.
  unfold sampling. destruct (use_threads l =? 1) eqn:Et; [|now left].
  apply Z.eqb_eq in Et.
  destruct (run_threads e l g) as [[tr g'] r] eqn:E.
  unfold run_threads, write_hounds in E. fold (threads_size e l) in E.
  repeat (step in E).
  destruct (threadinit_rc e <? 0).
  { repeat (step in E). inversion E; subst.
    right; right. split; [easy|]. eexists _, _. now repeat split. }
  repeat (step in E).
  destruct (malloc_threads_ok e).
  2:{ destruct (threads_size e l =? 0); repeat (step in E); inversion E; subst;
        right; right; (split; [easy|]); eexists _, _; now repeat split. }
  repeat (step in E). unfold bind at 1 in E.
  change 0 with (Z.of_nat 0) in E at 1.
  destruct (create_loop_cases e (Z.to_nat (numthreads l)) 0 g)
    as [H|[k [rc [Hk [Hrc H]]]]]; rewrite H in E; clear H.
  2:{ inversion E; subst. right; right. split; [easy|].
      eexists _, _. split; [reflexivity|].
      simpl. rewrite !none_app. simpl. rewrite !andb_true_r.
      repeat split; now apply none_map. }
  repeat (step in E). unfold bind at 1 in E.
  change 0 with (Z.of_nat 0) in E at 1.
  destruct (join_loop_cases e (Z.to_nat (numthreads l)) 0 (set_hounds 1 g))
    as [H|[k [rc [Hk [Hrc H]]]]]; rewrite H in E; clear H.
  - repeat (step in E). inversion E; subst. left.
    unfold threaded_sampling, threads_prologue, creates_ok, joins_ok, measured.
    reflexivity.
  - inversion E; subst. right; left. split; [easy|]. exists k, rc.
    split; [easy|]. split; [easy|].
    unfold threads_prologue, creates_ok, joins_ok, measured.
    reflexivity.
Qed.

(** ** The reporting stage *)

(** Reporting and the final exit leave the globals alone. *)
Lemma keeps_ret {A X} (f : globals -> X) (x : A) : keeps f (ret x).
Proof. now intros g. Qed.
Lemma keeps_halt {A X} (f : globals -> X) o : keeps f (@halt A o).
Proof. now intros g. Qed.
Lemma keeps_emit {X} (f : globals -> X) ev : keeps f (emit ev).
Proof. now intros g. Qed.
Lemma keeps_get {X} (f : globals -> X) : keeps f get.
Proof. now intros g. Qed.
Lemma keeps_bind {A B X} (f : globals -> X) (m : M A) (k : A -> M B) :
  keeps f m -> (forall x, keeps f (k x)) -> keeps f (bind m k).
Proof.
  intros Hm Hk g. unfold bind. specialize (Hm g).
  destruct (m g) as [[t1 g1] [x|o]]; simpl in *; [|easy].
  specialize (Hk x g1). destruct (k x g1) as [[t2 g2] r]; simpl in *. congruence.
Qed.
Lemma keeps_if {A X} (f : globals -> X) (c : bool) (m1 m2 : M A) :
  keeps f m1 -> keeps f m2 -> keeps f (if c then m1 else m2).
Proof. now destruct c. Qed.

Ltac keeps_tac :=
  repeat first
    [ apply keeps_ret | apply keeps_halt | apply keeps_get | apply keeps_emit
    | apply keeps_if | apply keeps_bind; [|intros ?] ].

Lemma keeps_stdout_loop {X} (f : globals -> X) e x b n i :
  keeps f (stdout_loop e x b n i).
Proof. revert i. induction n as [|n IH]; intros i; simpl; keeps_tac. apply IH. Qed.

Lemma keeps_file_loop {X} (f : globals -> X) e x ns j b n i :
  keeps f (file_loop e x ns j b n i).
Proof. revert i. induction n as [|n IH]; intros i; simpl; keeps_tac. apply IH. Qed.

Lemma keeps_files_loop {X} (f : globals -> X) e l x ns n j :
  keeps f (files_loop e l x ns n j).
Proof.
  revert j. induction n as [|n IH]; intros j; simpl; unfold header; keeps_tac;
    first [apply keeps_file_loop | apply IH].
Qed.

Lemma keeps_report {X} (f : globals -> X) e l t : keeps f (report e l t).
Proof.
  unfold report, header; keeps_tac;
    first [apply keeps_stdout_loop | apply keeps_files_loop].
Qed.

Lemma keeps_finish {X} (f : globals -> X) l : keeps f (finish l).
Proof. unfold finish; keeps_tac. Qed.

(** The subtraction [samples[k] - base] is done in [unsigned long long]:
    the signedness of [ticks] does not show. *)
Lemma wrap_sub_to_ticks e ts b :
  wrap ullong_bits (ts - to_ticks e b) = wrap ullong_bits (ts - b).
Proof.
  unfold to_ticks, to_signed, wrap, ullong_bits.
  destruct (ticks_signed e).
  - destruct (b mod 2 ^ 64 <? 2 ^ (64 - 1)).
    + now rewrite Zminus_mod_idemp_r.
    + replace (ts - (b mod 2 ^ 64 - 2 ^ 64))
        with (ts - b mod 2 ^ 64 + 1 * 2 ^ 64) by ring.
      now rewrite Z_mod_plus_full, Zminus_mod_idemp_r.
  - now rewrite Zminus_mod_idemp_r.
Qed.

Lemma elapsed_reported e b ts :
  elapsed_ns e (run_nspercycle e) (to_ticks e b) ts = reported_ns e b ts.
Proof. unfold elapsed_ns, reported_ns. now rewrite wrap_sub_to_ticks. Qed.

(** The data loop of the stdout path prints the pairs [0 .. n-1]. *)
Lemma stdout_loop_run e x b n a g :
  stdout_loop e x b n (Z.of_nat a) g =
  (map (fun i => sample_line e Stdout x b (Z.of_nat i * 2)) (seq a n), g, Ret tt).
Proof.
  revert a. induction n as [|n IH]; intros a; simpl; [reflexivity|].
  step. replace (Z.of_nat a + 1) with (Z.of_nat (S a)) by lia. now rewrite IH.
Qed.

Lemma file_loop_run e x ns j b n a g :
  file_loop e x ns j b n (Z.of_nat a) g =
  (map (fun i => sample_line e (DatFile j) x b (slot e ns j (Z.of_nat i)))
       (seq a n), g, Ret tt).
Proof.
  revert a. induction n as [|n IH]; intros a; simpl; [reflexivity|].
  step. replace (Z.of_nat a + 1) with (Z.of_nat (S a)) by lia. now rewrite IH.
Qed.

(** Every data line of the per-file path is a line of some thread
    [a <= j < a + n], relative to the first pair of that thread's slice. *)
Lemma files_loop_lines e l x ns n a g f u v :
  In (EvSample f u v) (fst (fst (files_loop e l x ns n (Z.of_nat a) g))) ->
  exists j i, (a <= j < a + n)%nat /\ (i < Z.to_nat ns)%nat /\
    EvSample f u v =
    sample_line e (DatFile (Z.of_nat j)) x
      (to_ticks e (sample e (slot e ns (Z.of_nat j) 0)))
      (slot e ns (Z.of_nat j) (Z.of_nat i)).
Proof.
  revert a g. induction n as [|n IH]; intros a g; simpl; [easy|].
  step. destruct (fopen_ok e (Z.of_nat a)).
  2:{ repeat step. simpl. intros [H|[H|[]]]; discriminate. }
  unfold header. repeat step. unfold bind at 1.
  change 0 with (Z.of_nat 0) at 2. rewrite file_loop_run. step.
  replace (Z.of_nat a + 1) with (Z.of_nat (S a)) by lia.
  specialize (IH (S a) g).
  destruct (files_loop e l x ns n (Z.of_nat (S a)) g) as [[t2 g2] r2].
  simpl. intros [H|[H|H]]; try discriminate.
  rewrite in_app_iff in H. destruct H as [H|[H|H]]; try discriminate.
  - apply in_map_iff in H. destruct H as [i [H Hi]]. apply in_seq in Hi.
    exists a, i. repeat split; [lia..|]. now rewrite H.
  - destruct (IH H) as [j [i [Hj [Hi E]]]]. exists j, i. repeat split; [lia..|easy].
Qed.

(** ** Whole runs *)

Lemma cap_numsamples g :
  numsamples (cap g) = Z.min (numsamples g) MAX_SAMPLES.
Proof.
  unfold cap. destruct (numsamples g >? MAX_SAMPLES) eqn:E; simpl.
  - apply Z.gtb_lt in E. lia.
  - rewrite Z.gtb_ltb in E. apply Z.ltb_ge in E. lia.
Qed.

(** A run whose allocation fails stops there. *)
Lemma main_alloc_failed e opts g0 l g1 :
  parsed e opts g0 = Some (l, g1) -> alloc_ok e = false ->
  main e opts g0 =
  (warn_trace g1
     ++ alloc_trace e (samples_size e (numsamples (cap g1)) (numthreads l)),
   cap g1, Halt Aborted).
Proof.
  intros Hp Ha. rewrite main_stages. unfold bind at 1.
  rewrite (setup_run _ _ _ _ _ Hp). cbv zeta. now rewrite Ha.
Qed.

(** A run that asks for stdout and several threads stops at the check. *)
Lemma main_rejected e opts g0 l g1 :
  parsed e opts g0 = Some (l, g1) -> alloc_ok e = true -> rejected l = true ->
  let size := samples_size e (numsamples (cap g1)) (numthreads l) in
  main e opts g0 =
  (warn_trace g1 ++ alloc_trace e size ++ [EvMemsetSamples size; EvErrStdout],
   cap g1, Halt (Exited EXIT_FAILURE)).
Proof.
  intros Hp Ha Hr. rewrite main_stages. unfold bind at 1.
  rewrite (setup_run _ _ _ _ _ Hp). cbv zeta. now rewrite Ha, Hr.
Qed.

(** Any other run goes through setup and into sampling. *)
Lemma main_run e opts g0 l g1 :
  parsed e opts g0 = Some (l, g1) -> alloc_ok e = true -> rejected l = false ->
  main e opts g0 =
  match sampling e l (calibrated e (cap g1)) with
  | (ts, g3, Halt o) => (setup_trace e l g1 ++ ts, g3, Halt o)
  | (ts, g3, Ret t) =>
      match report e l t g3 with
      | (tr, _, Halt o) => (setup_trace e l g1 ++ ts ++ tr, g3, Halt o)
      | (tr, _, Ret _) =>
          (setup_trace e l g1 ++ ts ++ tr ++ finish_trace l, g3,
           Halt (finish_outcome l))
      end
  end.
Proof.
  intros Hp Ha Hr. rewrite main_stages. unfold bind at 1.
  rewrite (setup_run _ _ _ _ _ Hp). cbv zeta. rewrite Ha, Hr.
  unfold setup_trace.
  unfold bind at 1.
  destruct (sampling e l (calibrated e (cap g1))) as [[ts g3] [t|o]];
    [|reflexivity].
  unfold bind at 1.
  pose proof (keeps_report (fun g => g) e l t g3) as Hk. simpl in Hk.
  destruct (report e l t g3) as [[tr g4] [[]|o]]; simpl in Hk; subst g4;
    [|reflexivity].
  unfold finish, finish_trace, finish_outcome.
  destruct (use_threads l =? 0); simpl; rewrite ?app_nil_r; reflexivity.
Qed.

(** The sampling stage changes nothing in the globals but [hounds]. *)
Lemma sampling_globals e l g :
  snd (fst (sampling e l g)) = g \/
  snd (fst (sampling e l g)) = set_hounds 1 g.
Proof.
  destruct (sampling_cases e l g) as [H|[[_ [k [rc [_ [_ H]]]]]|[_ [tr [o [H _]]]]]];
    rewrite H; auto.
Qed.

(** The globals at the end of a run, from those the option loop left. *)
Lemma final_cases e opts g0 l g1 :
  parsed e opts g0 = Some (l, g1) ->
  final_globals e opts g0 = cap g1 \/
  final_globals e opts g0 = calibrated e (cap g1) \/
  final_globals e opts g0 = set_hounds 1 (calibrated e (cap g1)).
Proof.
  intros Hp. unfold final_globals, run.
  destruct (alloc_ok e) eqn:Ha.
  2:{ rewrite (main_alloc_failed _ _ _ _ _ Hp Ha). now left. }
  destruct (rejected l) eqn:Hr.
  { rewrite (main_rejected _ _ _ _ _ Hp Ha Hr). now left. }
  rewrite (main_run _ _ _ _ _ Hp Ha Hr).
  pose proof (sampling_globals e l (calibrated e (cap g1))) as Hs.
  destruct (sampling e l (calibrated e (cap g1))) as [[ts g3] [t|o]];
    simpl in Hs.
  - destruct (report e l t g3) as [[tr g4] [[]|o]]; simpl; destruct Hs; auto.
  - simpl; destruct Hs; auto.
Qed.

Lemma final_numsamples e opts g0 l g1 :
  parsed e opts g0 = Some (l, g1) ->
  numsamples (final_globals e opts g0) = Z.min (numsamples g1) MAX_SAMPLES.
Proof.
  intros Hp. rewrite <- cap_numsamples.
  destruct (final_cases _ _ _ _ _ Hp) as [H|[H|H]]; rewrite H;
    unfold calibrated; destruct (is_zero (ticksperns (cap g1))); reflexivity.
Qed.


(** Every run that leaves the option loop starts with the sanity check
    and the allocation. *)
Lemma trace_starts e opts g0 l g1 :
  parsed e opts g0 = Some (l, g1) ->
  exists rest,
    trace_of e opts g0 =
    warn_trace g1
      ++ alloc_trace e (samples_size e (numsamples (cap g1)) (numthreads l))
      ++ rest.
Proof.
  intros Hp. unfold trace_of, run.
  destruct (alloc_ok e) eqn:Ha.
  2:{ rewrite (main_alloc_failed _ _ _ _ _ Hp Ha). exists []. simpl.
      now rewrite app_nil_r. }
  destruct (rejected l) eqn:Hr.
  { rewrite (main_rejected _ _ _ _ _ Hp Ha Hr). now eexists. }
  rewrite (main_run _ _ _ _ _ Hp Ha Hr). unfold setup_trace.
  destruct (sampling e l (calibrated e (cap g1))) as [[ts g3] [t|o]].
  - destruct (report e l t g3) as [[tr g4] [[]|o]]; cbn [fst];
      rewrite <- !app_assoc; eexists; reflexivity.
  - cbn [fst]. rewrite <- !app_assoc. eexists; reflexivity.
Qed.

(** ** The claims *)

(** C6. For every requested per-thread sample count [n] (the value of
    [numsamples] when the option loop ends), the sample count in effect
    for the run is [min n MAX_SAMPLES], and the cap comes before the
    allocation: the run begins with the warning (when [n] exceeds the
    maximum) followed by [mmap] (and, when it fails, [malloc]) of a size
    computed from the capped count. *)
Theorem C6_sample_count_capped e opts g0 l g1 :
  parsed e opts g0 = Some (l, g1) ->
  numsamples (final_globals e opts g0) = Z.min (numsamples g1) MAX_SAMPLES /\
  exists rest,
    trace_of e opts g0 =
    (if numsamples g1 >? MAX_SAMPLES then [EvWarnMax] else [])
      ++ alloc_trace e
           (samples_size e (Z.min (numsamples g1) MAX_SAMPLES) (numthreads l))
      ++ rest.
Proof.
  intros Hp. split; [now apply final_numsamples with l|].
  destruct (trace_starts _ _ _ _ _ Hp) as [rest H]. exists rest.
  now rewrite <- cap_numsamples.
Qed.

Lemma C6_witness :
  numsamples
    (final_globals Example.linux [Opt_n "3000000"; Opt_t "4"] initial_globals)
  = 2000000 /\
  exists rest,
    trace_of Example.linux [Opt_n "3000000"; Opt_t "4"] initial_globals =
    [EvWarnMax; EvMmap 128000000 true] ++ rest.
Proof.
  apply (C6_sample_count_capped Example.linux
           [Opt_n "3000000"; Opt_t "4"] initial_globals
           (mkLocals 4 1 0 "ftq") (set_numsamples 3000000 initial_globals)).
  reflexivity.
Defined.

(** The last [-n] on a command line that is parsed to the end decides
    [numsamples]; the last [-f] decides [interval]. *)
Lemma parsed_last_n e pre s post g0 :
  existsb ends_parsing (pre ++ post) = false ->
  existsb is_opt_n post = false ->
  exists l g1,
    parsed e (pre ++ Opt_n s :: post) g0 = Some (l, g1) /\
    numsamples g1 = wrap (ulong_bits (model e)) (atoi (atoi_overflow e) s).
Proof.
  rewrite existsb_app, orb_false_iff. intros [Hpre Hpost] Hn.
  destruct (parse_returns e pre initial_locals g0 Hpre) as [l1 [g' E1]].
  destruct (parse_returns e post l1
              (set_numsamples (wrap (ulong_bits (model e)) (atoi (atoi_overflow e) s)) g') Hpost)
    as [l2 [g2 E2]].
  exists l2, g2. split.
  - apply parsed_some. rewrite parse_app. unfold bind at 1. rewrite E1.
    simpl. repeat step. now rewrite E2.
  - now rewrite (parse_keeps_numsamples _ _ _ _ _ _ Hn E2).
Qed.


(** [atoi] returns an [int]. *)
Lemma atoi_range ov s : INT_MIN <= atoi ov s <= INT_MAX.
Proof.
  unfold atoi. cbv zeta.
  destruct ((INT_MIN <=? decimal_prefix s) && (decimal_prefix s <=? INT_MAX))
    eqn:E.
  - apply andb_true_iff in E. destruct E as [E1 E2].
    apply Z.leb_le in E1, E2. lia.
  - unfold to_int, to_signed, wrap, INT_MIN, INT_MAX.
    pose proof (Z.mod_pos_bound (ov (decimal_prefix s)) (2 ^ 32) ltac:(lia))
      as H.
    destruct (ov (decimal_prefix s) mod 2 ^ 32 <? 2 ^ (32 - 1)) eqn:E'.
    + apply Z.ltb_lt in E'. lia.
    + apply Z.ltb_ge in E'. lia.
Qed.

(** [atoi] is exact on the texts of the values of [int]. *)
Lemma atoi_exact ov s :
  INT_MIN <= decimal_prefix s <= INT_MAX -> atoi ov s = decimal_prefix s.
Proof.
  intros [H1 H2]. unfold atoi. cbv zeta.
  apply Z.leb_le in H1, H2. now rewrite H1, H2.
Qed.

(** A negative [int] stored in an [unsigned long]. *)
Lemma wrap_negative_int dm z :
  INT_MIN <= z < 0 ->
  wrap (ulong_bits dm) z = 2 ^ ulong_bits dm + z /\
  wrap (ulong_bits dm) z > MAX_SAMPLES.
Proof.
  unfold wrap, INT_MIN, MAX_SAMPLES. intros H.
  assert (Hw : 2 ^ 32 <= 2 ^ ulong_bits dm) by (destruct dm; simpl; lia).
  assert (E : z mod 2 ^ ulong_bits dm = 2 ^ ulong_bits dm + z).
  { symmetry. apply Z.mod_unique with (-1); lia. }
  rewrite E. lia.
Qed.

(** A non-negative [int] stored in an [unsigned long]. *)
Lemma wrap_nonnegative_int dm z :
  0 <= z <= INT_MAX -> wrap (ulong_bits dm) z = z.
Proof.
  unfold wrap, INT_MAX. intros H.
  assert (Hw : 2 ^ 32 <= 2 ^ ulong_bits dm) by (destruct dm; simpl; lia).
  apply Z.mod_small. lia.
Qed.

(** C9 (as stated) fails: [-4294967295] is a negative integer, the GNU
    [atoi] on LP64 turns it into 1 (its low 32 bits), and the run
    [ftq -n -4294967295] keeps a sample count of 1. *)
Lemma C9_counterexample :
  ~ Stated.negative_count_becomes_max
      Example.linux "-4294967295" initial_globals.
Proof.
  intros H. specialize (H eq_refl).
  assert (E : numsamples (final_globals Example.linux
                            [Opt_n "-4294967295"] initial_globals) = 1)
    by (vm_compute; reflexivity).
  rewrite E in H. discriminate H.
Qed.

(** C9 (amended). What decides is the [int] that [atoi] makes of the
    argument of the last [-n] of a command line that is parsed to its
    end.  [atoi] is exact on the integers from [INT_MIN] to -1.  When
    its result is negative, the value stored in the unsigned
    [numsamples] is [2^w + atoi s], which exceeds [MAX_SAMPLES]: the run
    opens with the warning and the sample count in effect is exactly
    [MAX_SAMPLES].  When its result is not negative (also for a negative
    integer below [INT_MIN] that the library turns into a non-negative
    [int]), that result is the value stored, and the count in effect is
    the smaller of it and [MAX_SAMPLES]. *)
Theorem C9_negative_count_becomes_max e pre s post g0 :
  existsb ends_parsing (pre ++ post) = false ->
  existsb is_opt_n post = false ->
  (INT_MIN <= decimal_prefix s < 0 ->
   atoi (atoi_overflow e) s = decimal_prefix s) /\
  (atoi (atoi_overflow e) s < 0 ->
   exists l g1 rest,
     parsed e (pre ++ Opt_n s :: post) g0 = Some (l, g1) /\
     numsamples g1 = 2 ^ ulong_bits (model e) + atoi (atoi_overflow e) s /\
     numsamples g1 > MAX_SAMPLES /\
     trace_of e (pre ++ Opt_n s :: post) g0 = EvWarnMax :: rest /\
     numsamples (final_globals e (pre ++ Opt_n s :: post) g0) = MAX_SAMPLES) /\
  (0 <= atoi (atoi_overflow e) s ->
   exists l g1,
     parsed e (pre ++ Opt_n s :: post) g0 = Some (l, g1) /\
     numsamples g1 = atoi (atoi_overflow e) s /\
     numsamples (final_globals e (pre ++ Opt_n s :: post) g0)
       = Z.min (atoi (atoi_overflow e) s) MAX_SAMPLES).
Proof.
  intros Hu Hn.
  destruct (parsed_last_n e pre s post g0 Hu Hn) as [l [g1 [Hp Hv]]].
  pose proof (atoi_range (atoi_overflow e) s) as Hr.
  split; [|split].
  - intros H. apply atoi_exact. unfold INT_MAX. lia.
  - intros Hneg.
    destruct (wrap_negative_int (model e) (atoi (atoi_overflow e) s))
      as [W1 W2]; [lia|].
    rewrite <- Hv in W1, W2.
    destruct (trace_starts _ _ _ _ _ Hp) as [rest Ht].
    assert (Hgt : (numsamples g1 >? MAX_SAMPLES) = true)
      by (apply Z.gtb_lt; lia).
    exists l, g1. eexists. repeat split; [exact Hp|exact W1|exact W2| |].
    + rewrite Ht. unfold warn_trace. rewrite Hgt. reflexivity.
    + rewrite (final_numsamples _ _ _ _ _ Hp). lia.
  - intros Hpos.
    rewrite (wrap_nonnegative_int (model e)) in Hv by lia.
    exists l, g1. split; [exact Hp|]. split; [exact Hv|].
    now rewrite (final_numsamples _ _ _ _ _ Hp), Hv.
Qed.

Lemma C9_witness :
  (exists l g1 rest,
     parsed Example.linux Example.argv_nminus5_s initial_globals
       = Some (l, g1) /\
     numsamples g1 = 2 ^ 64 + -5 /\
     numsamples g1 > MAX_SAMPLES /\
     trace_of Example.linux Example.argv_nminus5_s initial_globals
       = EvWarnMax :: rest /\
     numsamples (final_globals Example.linux Example.argv_nminus5_s
                   initial_globals) = MAX_SAMPLES) /\
  (exists l g1,
     parsed Example.linux Example.argv_nminus2p32 initial_globals
       = Some (l, g1) /\
     numsamples g1 = 1 /\
     numsamples (final_globals Example.linux Example.argv_nminus2p32
                   initial_globals) = 1).
Proof.
  split.
  - apply (C9_negative_count_becomes_max Example.linux [] "-5" [Opt_s]
             initial_globals); reflexivity.
  - apply (C9_negative_count_becomes_max Example.linux [] "-4294967295" []
             initial_globals); [reflexivity|reflexivity|].
    vm_compute. discriminate.
Defined.





(** C2 (as stated) fails: [ftq -s -t 2] is rejected only after the
    sample buffer has been mapped and cleared. *)
Lemma C2_counterexample :
  ~ Stated.rejected_before_allocation
      Example.linux Example.argv_s_t2 initial_globals.
Proof.
  intros H.
  destruct (H (mkLocals 2 1 1 "ftq") initial_globals eq_refl eq_refl eq_refl)
    as [_ [Ha _]].
  vm_compute in Ha. discriminate.
Qed.

(** C2 (amended). For every configuration that asks for stdout output
    with more than one thread, the run ends in a fatal error before
    calibration and before any call into the thread layer, but after the
    sample buffer has been allocated: the trace is the sanity warning (if
    any), the allocation, and, when the allocation succeeded, the
    clearing of the buffer and the error message, with
    [exit(EXIT_FAILURE)]; when both allocations failed the run has
    already aborted. *)
Theorem C2_rejected_after_allocation e opts g0 l g1 :
  parsed e opts g0 = Some (l, g1) ->
  use_stdout l = 1 -> numthreads l > 1 ->
  let size := samples_size e (numsamples (cap g1)) (numthreads l) in
  trace_of e opts g0 =
    warn_trace g1 ++ alloc_trace e size
      ++ (if alloc_ok e then [EvMemsetSamples size; EvErrStdout] else []) /\
  outcome_of e opts g0 =
    Halt (if alloc_ok e then Exited EXIT_FAILURE else Aborted) /\
  none is_concurrency (trace_of e opts g0) = true /\
  none is_core (trace_of e opts g0) = true /\
  none is_calibration (trace_of e opts g0) = true.
Proof.
  intros Hp Hs Hn size.
  assert (Hr : rejected l = true).
  { unfold rejected. rewrite Hs. simpl. apply Z.gtb_lt. lia. }
  assert (Hm : main e opts g0 =
               (warn_trace g1 ++ alloc_trace e size
                  ++ (if alloc_ok e then [EvMemsetSamples size; EvErrStdout]
                      else []),
                cap g1,
                Halt (if alloc_ok e then Exited EXIT_FAILURE else Aborted))).
  { destruct (alloc_ok e) eqn:Ha.
    - now rewrite (main_rejected _ _ _ _ _ Hp Ha Hr).
    - rewrite (main_alloc_failed _ _ _ _ _ Hp Ha). now rewrite app_nil_r. }
  unfold trace_of, outcome_of, run. rewrite Hm. cbn [fst snd].
  split; [reflexivity|]. split; [reflexivity|].
  assert (Hu : upto 3 (warn_trace g1 ++ alloc_trace e size
                  ++ (if alloc_ok e then [EvMemsetSamples size; EvErrStdout]
                      else [])) = true).
  { unfold upto, warn_trace, alloc_trace. rewrite !forallb_app.
    destruct (numsamples g1 >? MAX_SAMPLES), (mmap_ok e), (alloc_ok e);
      reflexivity. }
  repeat split; apply upto_none with 3%nat; try exact Hu;
    intros []; simpl; intros; (discriminate || lia).
Qed.

Lemma C2_witness :
  trace_of Example.linux Example.argv_s_t2 initial_globals =
    [EvMmap 16777216 true; EvMemsetSamples 16777216; EvErrStdout] /\
  outcome_of Example.linux Example.argv_s_t2 initial_globals =
    Halt (Exited EXIT_FAILURE) /\
  none is_concurrency
    (trace_of Example.linux Example.argv_s_t2 initial_globals) = true /\
  none is_core (trace_of Example.linux Example.argv_s_t2 initial_globals) = true /\
  none is_calibration
    (trace_of Example.linux Example.argv_s_t2 initial_globals) = true.
Proof.
  apply (C2_rejected_after_allocation Example.linux Example.argv_s_t2
           initial_globals (mkLocals 2 1 1 "ftq") initial_globals);
    [reflexivity | reflexivity | reflexivity].
Defined.

(** ** Whether [mmap] succeeded matters to the allocation only *)

Lemma bind_cong {A B} (m m' : M A) (k k' : A -> M B) g :
  (forall g', m g' = m' g') -> (forall a g', k a g' = k' a g') ->
  bind m k g = bind m' k' g.
Proof.
  intros Hm Hk. unfold bind. rewrite Hm.
  destruct (m' g) as [[t1 g1] [a|o]]; [|reflexivity]. now rewrite Hk.
Qed.

Lemma create_loop_primary e n i g :
  create_loop (primary_ok e) n i g = create_loop e n i g.
Proof.
  revert i g. induction n as [|n IH]; intros i g; [reflexivity|].
  rewrite !create_loop_step. cbn [primary_ok pthread_create_rc]. now rewrite IH.
Qed.

Lemma join_loop_primary e n i g :
  join_loop (primary_ok e) n i g = join_loop e n i g.
Proof.
  revert i g. induction n as [|n IH]; intros i g; [reflexivity|].
  rewrite !join_loop_step. cbn [primary_ok pthread_join_rc]. now rewrite IH.
Qed.

Lemma stdout_loop_primary e x b n i g :
  stdout_loop (primary_ok e) x b n i g = stdout_loop e x b n i g.
Proof.
  revert i g. induction n as [|n IH]; intros i g; [reflexivity|].
  simpl. apply bind_cong; [reflexivity|intros; apply IH].
Qed.

Lemma file_loop_primary e x ns j b n i g :
  file_loop (primary_ok e) x ns j b n i g = file_loop e x ns j b n i g.
Proof.
  revert i g. induction n as [|n IH]; intros i g; [reflexivity|].
  simpl. apply bind_cong; [reflexivity|intros; apply IH].
Qed.

Lemma files_loop_primary e l x ns n j g :
  files_loop (primary_ok e) l x ns n j g = files_loop e l x ns n j g.
Proof.
  revert j g. induction n as [|n IH]; intros j g; [reflexivity|].
  simpl. repeat (apply bind_cong; [reflexivity|intros]).
  apply bind_cong; [intros; apply file_loop_primary|intros].
  apply bind_cong; [reflexivity|intros; apply IH].
Qed.

Lemma sampling_primary e l g : sampling (primary_ok e) l g = sampling e l g.
Proof.
  unfold sampling. destruct (use_threads l =? 1); [|reflexivity].
  unfold run_threads. repeat (apply bind_cong; [reflexivity|intros]).
  apply bind_cong; [intros; apply create_loop_primary|intros].
  apply bind_cong; [reflexivity|intros].
  apply bind_cong; [intros; apply join_loop_primary|intros]. reflexivity.
Qed.

Lemma report_primary e l t g : report (primary_ok e) l t g = report e l t g.
Proof.
  unfold report. repeat (apply bind_cong; [reflexivity|intros]).
  destruct (use_stdout l =? 1).
  - apply bind_cong; [reflexivity|intros]. apply stdout_loop_primary.
  - apply files_loop_primary.
Qed.

Lemma after_setup_primary e l g :
  after_setup (primary_ok e) l g = after_setup e l g.
Proof.
  unfold after_setup. apply bind_cong; [apply sampling_primary|intros].
  apply bind_cong; [apply report_primary|reflexivity].
Qed.

Lemma continuation_primary e l g1 :
  continuation (primary_ok e) l g1 = continuation e l g1.
Proof.
  unfold continuation. destruct (rejected l); [reflexivity|].
  change (calibrated (primary_ok e) (cap g1)) with (calibrated e (cap g1)).
  now rewrite after_setup_primary.
Qed.

Lemma parse_primary e opts l g :
  parse_options (primary_ok e) opts l g = parse_options e opts l g.
Proof.
  revert l g. induction opts as [|o opts IH]; intros l g; [reflexivity|].
  simpl. apply bind_cong; [intros; now destruct o|intros; apply IH].
Qed.

Lemma parsed_primary e opts g0 : parsed (primary_ok e) opts g0 = parsed e opts g0.
Proof. unfold parsed. now rewrite parse_primary. Qed.

Lemma from_weaken a b tr : (a <= b)%nat -> from b tr = true -> from a tr = true.
Proof.
  unfold from. rewrite !forallb_forall. intros Hab H ev Hin.
  specialize (H ev Hin). rewrite Nat.leb_le in *. lia.
Qed.

Lemma within_after_setup e l : within 5 7 (after_setup e l).
Proof.
  unfold after_setup.
  apply (within_bind 5 5 7); [lia|apply within_sampling|intros t].
  apply (within_bind 5 6 7); [lia| |intros _].
  { apply within_weaken with 6%nat 6%nat; [lia..|apply within_report]. }
  apply within_weaken with 7%nat 7%nat; [lia..|apply within_finish].
Qed.

(** What follows the clearing of the buffer belongs to the later stages. *)
Lemma continuation_from e l g1 :
  from 3 (fst (fst (continuation e l g1))) = true.
Proof.
  unfold continuation. destruct (rejected l); [reflexivity|].
  pose proof (within_after_setup e l (calibrated e (cap g1))) as [Hs _].
  destruct (after_setup e l (calibrated e (cap g1))) as [[t g] r].
  cbn [fst] in *. unfold from. rewrite forallb_app. apply andb_true_iff. split.
  - unfold calib_trace. now destruct (is_zero (ticksperns (cap g1))).
  - apply staged_from in Hs. apply from_weaken with 5%nat; [lia|exact Hs].
Qed.

(** A run whose allocation succeeds clears the buffer and goes on. *)
Lemma main_alloc_ok e opts g0 l g1 :
  parsed e opts g0 = Some (l, g1) -> alloc_ok e = true ->
  let size := samples_size e (numsamples (cap g1)) (numthreads l) in
  main e opts g0 =
  match continuation e l g1 with
  | (rest, g, r) =>
      (warn_trace g1 ++ alloc_trace e size ++ EvMemsetSamples size :: rest, g, r)
  end.
Proof.
  intros Hp Ha size. rewrite main_stages. unfold bind at 1.
  rewrite (setup_run _ _ _ _ _ Hp). cbv zeta. rewrite Ha.
  unfold continuation. fold size. destruct (rejected l); [reflexivity|].
  fold (after_setup e l).
  destruct (after_setup e l (calibrated e (cap g1))) as [[t g] r].
  now rewrite <- !app_assoc.
Qed.

(** C8. A failed [mmap] does not end the run: [malloc] is tried next,
    with the same size; the run aborts there only when [malloc] fails as
    well; when [malloc] succeeds the run goes on exactly as it does after
    a successful [mmap] (same events after the allocation, same outcome,
    same globals).  On both successful paths the buffer is cleared right
    after the allocation, before any event of the later stages, so
    before any thread is created or the core is called. *)
Theorem C8_allocation_fallback e opts g0 l g1 :
  parsed e opts g0 = Some (l, g1) ->
  let size := samples_size e (numsamples (cap g1)) (numthreads l) in
  (mmap_ok e = false ->
   exists rest,
     trace_of e opts g0 =
     warn_trace g1
       ++ [EvMmap size false; EvPerrorMmap;
           EvMallocSamples size (malloc_samples_ok e)] ++ rest) /\
  (mmap_ok e = false -> malloc_samples_ok e = false ->
   outcome_of e opts g0 = Halt Aborted /\
   trace_of e opts g0 =
     warn_trace g1
       ++ [EvMmap size false; EvPerrorMmap; EvMallocSamples size false]) /\
  (mmap_ok e = false -> malloc_samples_ok e = true ->
   exists rest,
     trace_of e opts g0 =
       warn_trace g1
         ++ [EvMmap size false; EvPerrorMmap; EvMallocSamples size true]
         ++ EvMemsetSamples size :: rest /\
     trace_of (primary_ok e) opts g0 =
       warn_trace g1 ++ [EvMmap size true] ++ EvMemsetSamples size :: rest /\
     outcome_of e opts g0 = outcome_of (primary_ok e) opts g0 /\
     final_globals e opts g0 = final_globals (primary_ok e) opts g0) /\
  (alloc_ok e = true ->
   exists pre rest,
     trace_of e opts g0 = pre ++ EvMemsetSamples size :: rest /\
     upto 2 pre = true /\ from 3 rest = true /\
     none is_create pre = true /\ none is_core pre = true).
Proof.
  intros Hp size. split; [|split; [|split]].
  - intros Hm. destruct (trace_starts _ _ _ _ _ Hp) as [rest Ht].
    exists rest. rewrite Ht. unfold alloc_trace. now rewrite Hm.
  - intros Hm Hf.
    assert (Ha : alloc_ok e = false) by (unfold alloc_ok; now rewrite Hm, Hf).
    unfold outcome_of, trace_of, run.
    rewrite (main_alloc_failed _ _ _ _ _ Hp Ha).
    unfold alloc_trace. now rewrite Hm, Hf.
  - intros Hm Hf.
    assert (Ha : alloc_ok e = true) by (unfold alloc_ok; now rewrite Hm, Hf).
    assert (Hp' : parsed (primary_ok e) opts g0 = Some (l, g1))
      by now rewrite parsed_primary.
    unfold outcome_of, trace_of, final_globals, run.
    rewrite (main_alloc_ok _ _ _ _ _ Hp Ha).
    rewrite (main_alloc_ok _ _ _ _ _ Hp' eq_refl).
    rewrite continuation_primary.
    destruct (continuation e l g1) as [[rest g] r]. exists rest.
    unfold alloc_trace. rewrite Hm, Hf. now cbn.
  - intros Ha. unfold trace_of, run. rewrite (main_alloc_ok _ _ _ _ _ Hp Ha).
    destruct (continuation e l g1) as [[rest g] r] eqn:Ec. cbn [fst].
    exists (warn_trace g1 ++ alloc_trace e size), rest.
    assert (Hpre : upto 2 (warn_trace g1 ++ alloc_trace e size) = true).
    { unfold upto, warn_trace, alloc_trace. rewrite forallb_app.
      destruct (numsamples g1 >? MAX_SAMPLES), (mmap_ok e); reflexivity. }
    split; [now rewrite <- app_assoc|]. split; [exact Hpre|].
    split.
    + pose proof (continuation_from e l g1) as Hc. now rewrite Ec in Hc.
    + split; apply upto_none with 2%nat; try exact Hpre;
        intros []; simpl; intros; (discriminate || lia).
Qed.

Lemma C8_witness :
  let size := 64 in
  (mmap_ok Example.linux_no_mmap = false ->
   exists rest,
     trace_of Example.linux_no_mmap Example.argv_t2_n2 initial_globals =
     [] ++ [EvMmap size false; EvPerrorMmap; EvMallocSamples size true] ++ rest) /\
  (mmap_ok Example.linux_no_mmap = false ->
   malloc_samples_ok Example.linux_no_mmap = false ->
   outcome_of Example.linux_no_mmap Example.argv_t2_n2 initial_globals
     = Halt Aborted /\
   trace_of Example.linux_no_mmap Example.argv_t2_n2 initial_globals =
     [] ++ [EvMmap size false; EvPerrorMmap; EvMallocSamples size false]) /\
  (mmap_ok Example.linux_no_mmap = false ->
   malloc_samples_ok Example.linux_no_mmap = true ->
   exists rest,
     trace_of Example.linux_no_mmap Example.argv_t2_n2 initial_globals =
       [] ++ [EvMmap size false; EvPerrorMmap; EvMallocSamples size true]
         ++ EvMemsetSamples size :: rest /\
     trace_of (primary_ok Example.linux_no_mmap) Example.argv_t2_n2
       initial_globals =
       [] ++ [EvMmap size true] ++ EvMemsetSamples size :: rest /\
     outcome_of Example.linux_no_mmap Example.argv_t2_n2 initial_globals =
       outcome_of (primary_ok Example.linux_no_mmap) Example.argv_t2_n2
         initial_globals /\
     final_globals Example.linux_no_mmap Example.argv_t2_n2 initial_globals =
       final_globals (primary_ok Example.linux_no_mmap) Example.argv_t2_n2
         initial_globals) /\
  (alloc_ok Example.linux_no_mmap = true ->
   exists pre rest,
     trace_of Example.linux_no_mmap Example.argv_t2_n2 initial_globals
       = pre ++ EvMemsetSamples size :: rest /\
     upto 2 pre = true /\ from 3 rest = true /\
     none is_create pre = true /\ none is_core pre = true).
Proof.
  apply (C8_allocation_fallback Example.linux_no_mmap Example.argv_t2_n2
           initial_globals (mkLocals 2 1 0 "ftq")
           (set_numsamples 2 initial_globals)).
  reflexivity.
Defined.

(** A run that gets past the stdout check: setup, then the later stages. *)
Lemma main_sampling e opts g0 l g1 :
  parsed e opts g0 = Some (l, g1) -> alloc_ok e = true -> rejected l = false ->
  main e opts g0 =
  match after_setup e l (calibrated e (cap g1)) with
  | (t, g, r) => (setup_trace e l g1 ++ t, g, r)
  end.
Proof.
  intros Hp Ha Hr. rewrite main_stages. unfold bind at 1.
  rewrite (setup_run _ _ _ _ _ Hp). cbv zeta. rewrite Ha, Hr.
  fold (after_setup e l). unfold setup_trace.
  now destruct (after_setup e l (calibrated e (cap g1))) as [[t g] r].
Qed.

(** A run whose sampling stage completes goes on with the report. *)
Lemma main_completed e opts g0 l g1 ts g3 t :
  parsed e opts g0 = Some (l, g1) -> alloc_ok e = true -> rejected l = false ->
  sampling e l (calibrated e (cap g1)) = (ts, g3, Ret t) ->
  exists post o,
    main e opts g0 = (setup_trace e l g1 ++ ts ++ post, g3, Halt o) /\
    from 6 post = true /\
    (forall ev, In ev post ->
                In ev (fst (fst (report e l t g3))) \/ ev = EvPthreadExit).
Proof.
  intros Hp Ha Hr Hs. rewrite (main_run _ _ _ _ _ Hp Ha Hr), Hs.
  pose proof (within_report e l t g3) as [H6 _]. apply staged_from in H6.
  destruct (report e l t g3) as [[tr g4] [[]|o]]; cbn [fst] in *.
  - exists (tr ++ finish_trace l), (finish_outcome l).
    split; [reflexivity|]. split.
    + unfold from in *. rewrite forallb_app. apply andb_true_iff. split; [exact H6|].
      unfold finish_trace. now destruct (use_threads l =? 0).
    + intros ev Hin. apply in_app_or in Hin. destruct Hin as [Hin|Hin]; [now left|].
      unfold finish_trace in Hin. destruct (use_threads l =? 0); [easy|].
      destruct Hin as [<-|[]]. now right.
  - exists tr, o. split; [reflexivity|]. split; [exact H6|]. now left.
Qed.

(** A run whose sampling stage stops ends there. *)
Lemma main_sampling_stopped e opts g0 l g1 ts g3 o :
  parsed e opts g0 = Some (l, g1) -> alloc_ok e = true -> rejected l = false ->
  sampling e l (calibrated e (cap g1)) = (ts, g3, Halt o) ->
  main e opts g0 = (setup_trace e l g1 ++ ts, g3, Halt o).
Proof.
  intros Hp Ha Hr Hs. now rewrite (main_run _ _ _ _ _ Hp Ha Hr), Hs.
Qed.

Lemma after_setup_globals e l g :
  snd (fst (after_setup e l g)) = g \/
  snd (fst (after_setup e l g)) = set_hounds 1 g.
Proof.
  unfold after_setup, bind.
  pose proof (sampling_globals e l g) as Hs.
  destruct (sampling e l g) as [[ts g3] [t|o]]; cbn [fst snd] in *; [|exact Hs].
  pose proof (keeps_report (fun x => x) e l t g3) as Hk.
  destruct (report e l t g3) as [[tr g4] [[]|o]]; cbn [fst snd] in *;
    [|now subst g4].
  pose proof (keeps_finish (fun x => x) l g4) as Hf.
  destruct (finish l g4) as [[tf g5] r]; cbn [fst snd] in *. now subst.
Qed.

Lemma setup_trace_upto e l g1 : upto 4 (setup_trace e l g1) = true.
Proof.
  unfold upto, setup_trace, warn_trace, alloc_trace, calib_trace.
  rewrite !forallb_app.
  destruct (numsamples g1 >? MAX_SAMPLES), (mmap_ok e),
    (is_zero (ticksperns (cap g1))); reflexivity.
Qed.

Lemma upto_not_In k tr ev :
  upto k tr = true -> (k < stage_of ev)%nat -> ~ In ev tr.
Proof.
  unfold upto. rewrite forallb_forall. intros H Hk Hin.
  specialize (H ev Hin). apply Nat.leb_le in H. lia.
Qed.

Lemma upto_app k t1 t2 : upto k (t1 ++ t2) = upto k t1 && upto k t2.
Proof. apply forallb_app. Qed.

Lemma from_app k t1 t2 : from k (t1 ++ t2) = from k t1 && from k t2.
Proof. apply forallb_app. Qed.

Lemma parsed_hounds e opts g0 l g1 :
  parsed e opts g0 = Some (l, g1) -> hounds g1 = hounds g0.
Proof.
  intros Hp. apply parsed_some in Hp.
  destruct (parse_cases e opts initial_locals g0)
    as [g' [Hh [[t [o [H _]]]|[l' H]]]];
    rewrite H in Hp; inversion Hp; now subst.
Qed.

Lemma cap_ticksperns g : ticksperns (cap g) = ticksperns g.
Proof. unfold cap. now destruct (numsamples g >? MAX_SAMPLES). Qed.

Lemma cap_hounds g : hounds (cap g) = hounds g.
Proof. unfold cap. now destruct (numsamples g >? MAX_SAMPLES). Qed.

Lemma calibrated_hounds e g : hounds (calibrated e g) = hounds g.
Proof. unfold calibrated. now destruct (is_zero (ticksperns g)). Qed.

(** C7 (as stated) fails: with [ftq -T 0 -n 2] a value is supplied, and
    the calibration routine runs all the same. *)
Lemma C7_counterexample :
  ~ Stated.calibrates_iff_not_supplied
      Example.linux Example.argv_T0_n2 initial_globals.
Proof.
  intros [H _].
  assert (Hin : In EvComputeTicksperns
                  (trace_of Example.linux Example.argv_T0_n2 initial_globals)).
  { vm_compute. do 2 right. now left. }
  apply H in Hin. discriminate.
Qed.

(** C7 (amended). In every run that gets past the stdout check, the
    calibration routine is called exactly when [ticksperns] is 0.0 once
    the options are parsed, that is when no [-T] stored a value or the
    value stored compares equal to zero; it is called at most once, and
    before any call into the thread layer or into the sampling core.  A
    value that does not compare equal to zero is the calibration factor
    until the run ends. *)
Theorem C7_calibration_when_zero e opts g0 l g1 :
  parsed e opts g0 = Some (l, g1) -> alloc_ok e = true -> rejected l = false ->
  ticksperns g1 =
    match supplied_ticksperns opts None with
    | Some d => d
    | None => ticksperns g0
    end /\
  count is_calibration (trace_of e opts g0) =
    (if is_zero (ticksperns g1) then 1 else 0)%nat /\
  (forall pre ev post,
     trace_of e opts g0 = pre ++ ev :: post ->
     is_concurrency ev = true \/ is_core ev = true ->
     none is_calibration post = true) /\
  ticksperns (final_globals e opts g0) =
    if is_zero (ticksperns g1) then compute_ticksperns e else ticksperns g1.
Proof.
  intros Hp Ha Hr. split; [|split; [|split]].
  - apply parsed_some in Hp. exact (parse_ticksperns _ _ _ _ _ _ Hp).
  - unfold trace_of, run. rewrite (main_sampling _ _ _ _ _ Hp Ha Hr).
    pose proof (within_after_setup e l (calibrated e (cap g1))) as [Hs _].
    destruct (after_setup e l (calibrated e (cap g1))) as [[t g] r].
    cbn [fst] in *. rewrite count_app.
    rewrite (none_count is_calibration t).
    2:{ apply from_none with 5%nat; [|now apply staged_from].
        intros []; simpl; intros; (discriminate || lia). }
    unfold setup_trace, warn_trace, alloc_trace, calib_trace.
    rewrite cap_ticksperns, !count_app.
    destruct (numsamples g1 >? MAX_SAMPLES), (mmap_ok e),
      (is_zero (ticksperns g1)); reflexivity.
  - intros pre ev post Ht Hev.
    pose proof (within_main e opts g0) as [Hs _].
    fold (run e opts g0) in Hs. fold (trace_of e opts g0) in Hs.
    rewrite Ht in Hs. apply staged_split in Hs. destruct Hs as [_ Hs].
    apply from_none with (stage_of ev); [|exact Hs].
    intros ev' Hc. destruct ev'; try discriminate.
    destruct ev; simpl in *; destruct Hev; (discriminate || lia).
  - unfold final_globals, run. rewrite (main_sampling _ _ _ _ _ Hp Ha Hr).
    pose proof (after_setup_globals e l (calibrated e (cap g1))) as Hg.
    destruct (after_setup e l (calibrated e (cap g1))) as [[t g] r].
    cbn [fst snd] in *.
    assert (E : ticksperns g = ticksperns (calibrated e (cap g1)))
      by (destruct Hg as [-> | ->]; reflexivity).
    rewrite E. unfold calibrated. rewrite cap_ticksperns.
    destruct (is_zero (ticksperns g1)); [reflexivity|apply cap_ticksperns].
Qed.

Lemma C7_witness :
  ticksperns (set_numsamples 2 (set_ticksperns (d_of_Z 2) initial_globals))
    = d_of_Z 2 /\
  count is_calibration
    (trace_of Example.linux Example.argv_T2_n2_s initial_globals) = 0%nat /\
  (forall pre ev post,
     trace_of Example.linux Example.argv_T2_n2_s initial_globals
       = pre ++ ev :: post ->
     is_concurrency ev = true \/ is_core ev = true ->
     none is_calibration post = true) /\
  ticksperns (final_globals Example.linux Example.argv_T2_n2_s initial_globals)
    = d_of_Z 2.
Proof.
  apply (C7_calibration_when_zero Example.linux Example.argv_T2_n2_s
           initial_globals (mkLocals 1 0 1 "ftq")
           (set_numsamples 2 (set_ticksperns (d_of_Z 2) initial_globals)));
    reflexivity.
Defined.

(** Events of one stage only. *)
Lemma stage_none k p tr :
  (forall ev, p ev = true -> stage_of ev <> k) ->
  staged k tr = true -> upto k tr = true -> none p tr = true.
Proof.
  intros Hp Hs Hu. apply staged_from in Hs.
  unfold from, upto, none in *. rewrite forallb_forall in *. intros ev Hin.
  specialize (Hs ev Hin). specialize (Hu ev Hin). rewrite Nat.leb_le in *.
  destruct (p ev) eqn:E; [|reflexivity]. apply Hp in E. lia.
Qed.

(** C3 (as stated) fails: [ftq -t 1 -n 2] has [numthreads = 1], and the
    run goes through [threadinit], [pthread_create], [pthread_join] and
    [pthread_exit]. *)
Lemma C3_counterexample :
  ~ Stated.one_worker_is_sequential
      Example.linux Example.argv_t1_n2 initial_globals.
Proof.
  intros H.
  destruct (H (mkLocals 1 1 0 "ftq") (set_numsamples 2 initial_globals)
              eq_refl eq_refl) as [Hc _].
  vm_compute in Hc. discriminate.
Qed.


(** C4 (as stated) fails on the sequential path: [ftq -n 2] writes the
    start signal first and reads the start time and cycle count after it;
    not even the weaker reading "before", without "immediately", holds. *)
Lemma C4_counterexample :
  ~ Stated.start_read_right_before_release
      Example.linux Example.argv_n2 initial_globals /\
  ~ Stated.start_read_before_release
      Example.linux Example.argv_n2 initial_globals.
Proof. split; intros H; vm_compute in H; discriminate. Qed.

(** C4 (amended). In every run that gets through sampling (it prints
    its timing summary), the trace is setup, then the sampling stage,
    then the report, and the sampling stage has one of two shapes.
    Threaded path ([-t] given): thread set-up, the start timestamp and
    the start cycle count, every [pthread_create], the start signal,
    every [pthread_join], the end cycle count and the end timestamp; the
    start readings come before the start signal, with the thread
    creations in between.  Sequential path: the start signal first, then
    the start timestamp and cycle count, the call of the sampling core,
    the end cycle count and the end timestamp.  On both paths the end
    readings come only after every measurement instance has finished,
    and no clock reading or write of the start signal occurs outside the
    sampling stage. *)
Theorem C4_clock_readings_order e opts g0 a b c :
  In (EvStderrTimes a b c) (trace_of e opts g0) ->
  exists l g1 post,
    parsed e opts g0 = Some (l, g1) /\
    trace_of e opts g0 =
      setup_trace e l g1
        ++ (if use_threads l =? 1 then threaded_sampling e l
            else inline_sampling e)
        ++ post /\
    upto 4 (setup_trace e l g1) = true /\ from 6 post = true.
Proof.
  intros Hin.
  destruct (parsed e opts g0) as [[l g1]|] eqn:Hp.
  2:{ exfalso. revert Hin. apply upto_not_In with 0%nat; [|simpl; lia].
      apply (parsed_none_run _ _ _ Hp). }
  destruct (alloc_ok e) eqn:Ha.
  2:{ unfold trace_of, run in Hin.
      rewrite (main_alloc_failed _ _ _ _ _ Hp Ha) in Hin. cbn [fst] in Hin.
      exfalso. revert Hin. apply upto_not_In with 2%nat; [|simpl; lia].
      unfold upto, warn_trace, alloc_trace. rewrite forallb_app.
      destruct (numsamples g1 >? MAX_SAMPLES), (mmap_ok e); reflexivity. }
  destruct (rejected l) eqn:Hr.
  { unfold trace_of, run in Hin.
    rewrite (main_rejected _ _ _ _ _ Hp Ha Hr) in Hin. cbn [fst] in Hin.
    exfalso. revert Hin. apply upto_not_In with 3%nat; [|simpl; lia].
    unfold upto, warn_trace, alloc_trace. rewrite !forallb_app.
    destruct (numsamples g1 >? MAX_SAMPLES), (mmap_ok e); reflexivity. }
  unfold trace_of, run in *. rewrite (main_run _ _ _ _ _ Hp Ha Hr) in *.
  pose proof (within_sampling e l (calibrated e (cap g1))) as [_ Hu5].
  destruct (sampling_cases e l (calibrated e (cap g1)))
    as [H|[[_ [k [rc [_ [_ H]]]]]|[_ [tr [o [H _]]]]]];
    rewrite H in *; cbn [fst] in *.
  - exists l, g1.
    pose proof (within_report e l (measured e)
                  (set_hounds 1 (calibrated e (cap g1)))) as [H6 _].
    apply staged_from in H6.
    destruct (report e l (measured e) (set_hounds 1 (calibrated e (cap g1))))
      as [[tr g4] [[]|o]]; cbn [fst] in *.
    + exists (tr ++ finish_trace l). repeat split; auto using setup_trace_upto.
      rewrite from_app, H6. unfold finish_trace.
      now destruct (use_threads l =? 0).
    + exists tr. repeat split; auto using setup_trace_upto.
  - exfalso. revert Hin. apply upto_not_In with 5%nat; [|simpl; lia].
    rewrite upto_app, Hu5, andb_true_r.
    apply upto_weaken with 4%nat; [lia|apply setup_trace_upto].
  - exfalso. revert Hin. apply upto_not_In with 5%nat; [|simpl; lia].
    rewrite upto_app, Hu5, andb_true_r.
    apply upto_weaken with 4%nat; [lia|apply setup_trace_upto].
Qed.

Lemma C4_witness :
  exists l g1 post,
    parsed Example.linux Example.argv_t2_n2 initial_globals = Some (l, g1) /\
    trace_of Example.linux Example.argv_t2_n2 initial_globals =
      setup_trace Example.linux l g1
        ++ (if use_threads l =? 1 then threaded_sampling Example.linux l
            else inline_sampling Example.linux)
        ++ post /\
    upto 4 (setup_trace Example.linux l g1) = true /\ from 6 post = true.
Proof.
  apply (C4_clock_readings_order Example.linux Example.argv_t2_n2
           initial_globals 1000 3000 2000).
  vm_compute. do 15 right. now left.
Defined.

(** ** The start signal *)





(** ** The data lines *)

Lemma stdout_loop_all e x b n g :
  stdout_loop e x b n 0 g =
  (map (fun i => sample_line e Stdout x b (Z.of_nat i * 2)) (seq 0 n), g, Ret tt).
Proof. exact (stdout_loop_run e x b n 0%nat g). Qed.

(** The data lines of the report, for the timing [main] measured. *)
Lemma report_lines e l g f a b :
  In (EvSample f a b) (fst (fst (report e l (measured e) g))) ->
  (use_stdout l = 1 /\ f = Stdout /\
   exists i, (i < Z.to_nat (numsamples g))%nat /\
     a = reported_ns e (sample e 0) (sample e (Z.of_nat i * 2)) /\
     b = to_signed 64 (sample e (Z.of_nat i * 2 + 1))) \/
  (use_stdout l <> 1 /\
   exists j i, (j < Z.to_nat (numthreads l))%nat /\
     (i < Z.to_nat (numsamples g))%nat /\
     f = DatFile (Z.of_nat j) /\
     a = reported_ns e (sample e (slot e (numsamples g) (Z.of_nat j) 0))
           (sample e (slot e (numsamples g) (Z.of_nat j) (Z.of_nat i))) /\
     b = to_signed 64
           (sample e (slot e (numsamples g) (Z.of_nat j) (Z.of_nat i) + 1))).
Proof.
  unfold report. fold (run_nspercycle e). repeat step.
  destruct (use_stdout l =? 1) eqn:Es.
  - apply Z.eqb_eq in Es. unfold header. repeat step.
    rewrite stdout_loop_all. cbn [fst].
    intros Hin. left. split; [exact Es|].
    repeat (destruct Hin as [Hin|Hin]; [discriminate|]).
    apply in_map_iff in Hin. destruct Hin as [i [E Hi]]. apply in_seq in Hi.
    unfold sample_line in E. rewrite elapsed_reported in E.
    inversion E; subst. split; [reflexivity|]. exists i. repeat split. lia.
  - apply Z.eqb_neq in Es. intros Hin. right. split; [exact Es|].
    assert (Hin' : In (EvSample f a b)
              (fst (fst (files_loop e l (run_nspercycle e) (numsamples g)
                           (Z.to_nat (numthreads l)) (Z.of_nat 0) g)))).
    { change (Z.of_nat 0) with 0.
      destruct (files_loop e l (run_nspercycle e) (numsamples g)
                  (Z.to_nat (numthreads l)) 0 g) as [[t g'] r].
      cbn [fst] in *.
      repeat (destruct Hin as [Hin|Hin]; [discriminate|]). exact Hin. }
    apply files_loop_lines in Hin'.
    destruct Hin' as [j [i [Hj [Hi E]]]].
    unfold sample_line in E. rewrite elapsed_reported in E.
    inversion E; subst. exists j, i. repeat split; try lia.
Qed.

(** In the first slice the index arithmetic does not wrap. *)
Lemma slot_first e n i :
  0 <= i < MAX_SAMPLES -> slot e n 0 i = i * 2.
Proof.
  unfold slot, wrap, MAX_SAMPLES. intros H.
  assert (Hw : 2 ^ 32 <= 2 ^ ulong_bits (model e))
    by (destruct (model e); simpl; lia).
  change (0 * n) with 0. change (0 mod 2 ^ ulong_bits (model e)) with 0.
  rewrite Z.add_0_l. apply Z.mod_small. lia.
Qed.

(** C1 (as stated) fails: two runs of [ftq -T 2 -n 2 -s] with the same
    calibration factor and the same sample buffer, one lasting 2000 ns
    and one 4000 ns for the same 4000 ticks, print different elapsed
    times for the same sample (100 and 200), so the elapsed time is not
    computed from the calibration factor, whatever the derivation. *)
Lemma C1_counterexample :
  ~ exists derive,
      Stated.lines_from_calibration derive Example.linux
        Example.argv_T2_n2_s initial_globals 2 /\
      Stated.lines_from_calibration derive Example.linux_slow
        Example.argv_T2_n2_s initial_globals 2.
Proof.
  intros [derive [H1 H2]].
  unfold Stated.lines_from_calibration in H1, H2.
  assert (T1 : filter is_sample
                 (trace_of Example.linux Example.argv_T2_n2_s initial_globals)
               = [EvSample Stdout 0 107; EvSample Stdout 100 307])
    by (vm_compute; reflexivity).
  assert (T2 : filter is_sample
                 (trace_of Example.linux_slow Example.argv_T2_n2_s
                    initial_globals)
               = [EvSample Stdout 0 107; EvSample Stdout 200 307])
    by (vm_compute; reflexivity).
  assert (P1 : ticksperns (final_globals Example.linux Example.argv_T2_n2_s
                             initial_globals) = d_of_Z 2)
    by (vm_compute; reflexivity).
  assert (P2 : ticksperns (final_globals Example.linux_slow
                             Example.argv_T2_n2_s initial_globals) = d_of_Z 2)
    by (vm_compute; reflexivity).
  rewrite T1, P1 in H1. rewrite T2, P2 in H2. clear T1 T2 P1 P2.
  unfold Stated.calibrated_lines in H1, H2. cbn [map seq] in H1, H2.
  injection H1 as _ E1. injection H2 as _ E2.
  assert (S0 : sample Example.linux_slow 0 = sample Example.linux 0)
    by reflexivity.
  assert (S2 : sample Example.linux_slow 2 = sample Example.linux 2)
    by reflexivity.
  assert (TF : forall x, ticks_of_float Example.linux_slow x
                         = ticks_of_float Example.linux x)
    by reflexivity.
  unfold Stated.calibrated_ns in E1, E2.
  rewrite S0, S2, TF in E2. rewrite <- E1 in E2. discriminate E2.
Qed.

(** C1 (amended). Every data line the reporter emits carries two
    integers.  The first is the distance in ticks from the first
    timestamp of the same thread's slice to the timestamp of the sample,
    multiplied in single precision by the nanoseconds per tick measured
    over this very run, [(end - start) / (cycleend - cyclestart)], and
    truncated; the calibration factor [ticksperns] does not enter (it is
    only printed in the header).  The second is the work count of the
    sample.  Stdout carries the slice of thread 0, the file of thread [j]
    the slice of thread [j]. *)
Theorem C1_data_lines e opts g0 f a b :
  In (EvSample f a b) (trace_of e opts g0) ->
  exists l g1 j i,
    parsed e opts g0 = Some (l, g1) /\
    0 <= i < numsamples (cap g1) /\
    (f = Stdout /\ use_stdout l = 1 /\ j = 0 \/
     f = DatFile j /\ use_stdout l <> 1 /\ 0 <= j < numthreads l) /\
    a = reported_ns e (sample e (slot e (numsamples (cap g1)) j 0))
          (sample e (slot e (numsamples (cap g1)) j i)) /\
    b = to_signed 64 (sample e (slot e (numsamples (cap g1)) j i + 1)).
Proof.
  intros Hin.
  destruct (parsed e opts g0) as [[l g1]|] eqn:Hp.
  2:{ exfalso. revert Hin. apply upto_not_In with 0%nat; [|simpl; lia].
      apply (parsed_none_run _ _ _ Hp). }
  destruct (alloc_ok e) eqn:Ha.
  2:{ unfold trace_of, run in Hin.
      rewrite (main_alloc_failed _ _ _ _ _ Hp Ha) in Hin. cbn [fst] in Hin.
      exfalso. revert Hin. apply upto_not_In with 2%nat; [|simpl; lia].
      unfold upto, warn_trace, alloc_trace. rewrite forallb_app.
      destruct (numsamples g1 >? MAX_SAMPLES), (mmap_ok e); reflexivity. }
  destruct (rejected l) eqn:Hr.
  { unfold trace_of, run in Hin.
    rewrite (main_rejected _ _ _ _ _ Hp Ha Hr) in Hin. cbn [fst] in Hin.
    exfalso. revert Hin. apply upto_not_In with 3%nat; [|simpl; lia].
    unfold upto, warn_trace, alloc_trace. rewrite !forallb_app.
    destruct (numsamples g1 >? MAX_SAMPLES), (mmap_ok e); reflexivity. }
  unfold trace_of, run in Hin.
  pose proof (within_sampling e l (calibrated e (cap g1))) as [_ Hu5].
  assert (Hstop : forall ts, upto 5 ts = true ->
                    ~ In (EvSample f a b) (setup_trace e l g1 ++ ts)).
  { intros ts Hts. apply upto_not_In with 5%nat; [|simpl; lia].
    rewrite upto_app, Hts, andb_true_r.
    apply upto_weaken with 4%nat; [lia|apply setup_trace_upto]. }
  destruct (sampling_cases e l (calibrated e (cap g1)))
    as [H|[[_ [k [rc [_ [_ H]]]]]|[_ [tr [o [H _]]]]]]; rewrite H in Hu5;
    cbn [fst] in Hu5.
  2,3: rewrite (main_sampling_stopped _ _ _ _ _ _ _ _ Hp Ha Hr H) in Hin;
       now apply Hstop in Hin.
  destruct (main_completed _ _ _ _ _ _ _ _ Hp Ha Hr H) as [post [o [E [_ Hpost]]]].
  rewrite E in Hin. cbn [fst] in Hin. rewrite app_assoc in Hin.
  apply in_app_or in Hin. destruct Hin as [Hin|Hin];
    [now apply Hstop in Hin|].
  destruct (Hpost _ Hin) as [Hrep|?]; [|discriminate].
  assert (Hn : numsamples (set_hounds 1 (calibrated e (cap g1)))
               = numsamples (cap g1)).
  { unfold calibrated. now destruct (is_zero (ticksperns (cap g1))). }
  pose proof (cap_numsamples g1) as Hcap.
  apply report_lines in Hrep. rewrite Hn in Hrep.
  exists l, g1.
  destruct Hrep as [[Hs [-> [i [Hi [-> ->]]]]]|[Hs [j [i [Hj [Hi [-> [-> ->]]]]]]]].
  - exists 0, (Z.of_nat i).
    assert (Hr0 : 0 <= Z.of_nat i < MAX_SAMPLES) by lia.
    rewrite (slot_first e (numsamples (cap g1)) _ Hr0).
    rewrite (slot_first e (numsamples (cap g1)) 0)
      by (unfold MAX_SAMPLES; lia).
    split; [reflexivity|]. split; [lia|]. split; [now left|]. now split.
  - exists (Z.of_nat j), (Z.of_nat i).
    split; [reflexivity|]. split; [lia|]. split; [|now split].
    right. split; [reflexivity|]. split; [exact Hs|lia].
Qed.

Lemma C1_witness :
  exists l g1 j i,
    parsed Example.linux Example.argv_T2_n2_s initial_globals = Some (l, g1) /\
    0 <= i < numsamples (cap g1) /\
    (Stdout = Stdout /\ use_stdout l = 1 /\ j = 0 \/
     Stdout = DatFile j /\ use_stdout l <> 1 /\ 0 <= j < numthreads l) /\
    100 = reported_ns Example.linux
            (sample Example.linux (slot Example.linux (numsamples (cap g1)) j 0))
            (sample Example.linux (slot Example.linux (numsamples (cap g1)) j i)) /\
    307 = to_signed 64
            (sample Example.linux
               (slot Example.linux (numsamples (cap g1)) j i + 1)).
Proof.
  apply (C1_data_lines Example.linux Example.argv_T2_n2_s initial_globals
           Stdout 100 307).
  vm_compute. do 15 right. now left.
Defined.

(** ** The loops of [main] in closed form *)

Import Shape.

(** *** The thread loops, by the answers of the thread layer *)

Lemma create_loop_all_ok e n a g :
  (forall i, (i < n)%nat -> pthread_create_rc e (Z.of_nat (a + i)) = 0) ->
  create_loop e n (Z.of_nat a) g =
  (map (fun i => EvPthreadCreate (Z.of_nat i) 0) (seq a n), g, Ret tt).
Proof.
  revert a. induction n as [|n IH]; intros a H; [reflexivity|].
  rewrite create_loop_step.
  pose proof (H 0%nat ltac:(lia)) as H0. rewrite Nat.add_0_r in H0.
  rewrite H0. cbn [Z.eqb].
  replace (Z.of_nat a + 1) with (Z.of_nat (S a)) by lia.
  rewrite IH; [reflexivity|].
  intros i Hi. replace (S a + i)%nat with (a + S i)%nat by lia.
  apply H. lia.
Qed.

Lemma create_loop_first_failure e n a k g :
  (k < n)%nat ->
  (forall i, (i < k)%nat -> pthread_create_rc e (Z.of_nat (a + i)) = 0) ->
  pthread_create_rc e (Z.of_nat (a + k)) <> 0 ->
  create_loop e n (Z.of_nat a) g =
  (map (fun i => EvPthreadCreate (Z.of_nat i) 0) (seq a k)
     ++ [EvPthreadCreate (Z.of_nat (a + k)) (pthread_create_rc e (Z.of_nat (a + k))); EvErrCreate],
   g, Halt (Exited EXIT_FAILURE)).
Proof.
  revert a k. induction n as [|n IH]; intros a k Hk Hok Hfail; [lia|].
  rewrite create_loop_step. destruct k as [|k].
  - rewrite Nat.add_0_r in *. apply Z.eqb_neq in Hfail. now rewrite Hfail.
  - pose proof (Hok 0%nat ltac:(lia)) as H0. rewrite Nat.add_0_r in H0.
    rewrite H0. cbn [Z.eqb].
    replace (Z.of_nat a + 1) with (Z.of_nat (S a)) by lia.
    rewrite (IH (S a) k); try lia.
    + simpl. now replace (a + S k)%nat with (S a + k)%nat by lia.
    + intros i Hi. replace (S a + i)%nat with (a + S i)%nat by lia.
      apply Hok. lia.
    + now replace (S a + k)%nat with (a + S k)%nat by lia.
Qed.

Lemma join_loop_all_ok e n a g :
  (forall i, (i < n)%nat -> pthread_join_rc e (Z.of_nat (a + i)) = 0) ->
  join_loop e n (Z.of_nat a) g =
  (map (fun i => EvPthreadJoin (Z.of_nat i) 0) (seq a n), g, Ret tt).
Proof.
  revert a. induction n as [|n IH]; intros a H; [reflexivity|].
  rewrite join_loop_step.
  pose proof (H 0%nat ltac:(lia)) as H0. rewrite Nat.add_0_r in H0.
  rewrite H0. cbn [Z.eqb].
  replace (Z.of_nat a + 1) with (Z.of_nat (S a)) by lia.
  rewrite IH; [reflexivity|].
  intros i Hi. replace (S a + i)%nat with (a + S i)%nat by lia.
  apply H. lia.
Qed.

Lemma join_loop_first_failure e n a k g :
  (k < n)%nat ->
  (forall i, (i < k)%nat -> pthread_join_rc e (Z.of_nat (a + i)) = 0) ->
  pthread_join_rc e (Z.of_nat (a + k)) <> 0 ->
  join_loop e n (Z.of_nat a) g =
  (map (fun i => EvPthreadJoin (Z.of_nat i) 0) (seq a k)
     ++ [EvPthreadJoin (Z.of_nat (a + k)) (pthread_join_rc e (Z.of_nat (a + k))); EvErrJoin],
   g, Halt (Exited EXIT_FAILURE)).
Proof.
  revert a k. induction n as [|n IH]; intros a k Hk Hok Hfail; [lia|].
  rewrite join_loop_step. destruct k as [|k].
  - rewrite Nat.add_0_r in *. apply Z.eqb_neq in Hfail. now rewrite Hfail.
  - pose proof (Hok 0%nat ltac:(lia)) as H0. rewrite Nat.add_0_r in H0.
    rewrite H0. cbn [Z.eqb].
    replace (Z.of_nat a + 1) with (Z.of_nat (S a)) by lia.
    rewrite (IH (S a) k); try lia.
    + simpl. now replace (a + S k)%nat with (S a + k)%nat by lia.
    + intros i Hi. replace (S a + i)%nat with (a + S i)%nat by lia.
      apply Hok. lia.
    + now replace (S a + k)%nat with (a + S k)%nat by lia.
Qed.

(** The threaded branch once [threadinit] and the allocation of the
    thread array have succeeded. *)
Lemma run_threads_unfolded e l g :
  (threadinit_rc e <? 0) = false -> malloc_threads_ok e = true ->
  run_threads e l g =
  match create_loop e (Z.to_nat (numthreads l)) 0 g with
  | (tc, g1, Halt o) => (threads_prologue e l ++ tc, g1, Halt o)
  | (tc, g1, Ret _) =>
      match join_loop e (Z.to_nat (numthreads l)) 0 (set_hounds 1 g1) with
      | (tj, g2, Halt o) =>
          (threads_prologue e l ++ tc ++ [EvHounds 1] ++ tj, g2, Halt o)
      | (tj, g2, Ret _) =>
          (threads_prologue e l ++ tc ++ [EvHounds 1] ++ tj
             ++ [EvGetticks (cycleend (measured e)); EvNsec (end_ (measured e))],
           g2, Ret (measured e))
      end
  end.
Proof.
  intros Hi Hm. unfold run_threads, write_hounds, threads_prologue.
  fold (threads_size e l). repeat step. rewrite Hi. repeat step.
  rewrite Hm. repeat step. unfold bind at 1.
  destruct (create_loop e (Z.to_nat (numthreads l)) 0 g) as [[tc g1] [[]|o]];
    [|reflexivity].
  repeat step. unfold bind at 1.
  destruct (join_loop e (Z.to_nat (numthreads l)) 0 (set_hounds 1 g1))
    as [[tj g2] [[]|o]]; [|reflexivity].
  repeat step. reflexivity.
Qed.

(** *** The report, by the answers of [fopen] *)

Lemma file_loop_all e x ns j g :
  file_loop e x ns (Z.of_nat j)
            (to_ticks e (sample e (slot e ns (Z.of_nat j) 0)))
            (Z.to_nat ns) 0 g =
  (file_lines e x ns j, g, Ret tt).
Proof.
  exact (file_loop_run e x ns (Z.of_nat j)
           (to_ticks e (sample e (slot e ns (Z.of_nat j) 0)))
           (Z.to_nat ns) 0%nat g).
Qed.

Lemma files_loop_step e l x ns n a g :
  files_loop e l x ns (S n) (Z.of_nat a) g =
  if fopen_ok e (Z.of_nat a) then
    match files_loop e l x ns n (Z.of_nat (S a)) g with
    | (t, g', r) => (file_block e l x ns g a ++ t, g', r)
    end
  else (fopen_failure l a, g, Halt (Exited EXIT_FAILURE)).
Proof.
  cbn [files_loop]. step. destruct (fopen_ok e (Z.of_nat a)).
  - unfold header. repeat step. unfold bind at 1. rewrite file_loop_all.
    step. replace (Z.of_nat a + 1) with (Z.of_nat (S a)) by lia.
    destruct (files_loop e l x ns n (Z.of_nat (S a)) g) as [[t g'] r].
    unfold file_block, header_event. cbn [app]. now rewrite <- app_assoc.
  - repeat step. reflexivity.
Qed.

Lemma files_loop_all_ok e l x ns n a g :
  (forall j, (j < n)%nat -> fopen_ok e (Z.of_nat (a + j)) = true) ->
  files_loop e l x ns n (Z.of_nat a) g =
  (flat_map (file_block e l x ns g) (seq a n), g, Ret tt).
Proof.
  revert a. induction n as [|n IH]; intros a H; [reflexivity|].
  rewrite files_loop_step.
  pose proof (H 0%nat ltac:(lia)) as H0. rewrite Nat.add_0_r in H0.
  rewrite H0, IH; [reflexivity|].
  intros j Hj. replace (S a + j)%nat with (a + S j)%nat by lia.
  apply H. lia.
Qed.

Lemma files_loop_first_failure e l x ns n a k g :
  (k < n)%nat ->
  (forall j, (j < k)%nat -> fopen_ok e (Z.of_nat (a + j)) = true) ->
  fopen_ok e (Z.of_nat (a + k)) = false ->
  files_loop e l x ns n (Z.of_nat a) g =
  (flat_map (file_block e l x ns g) (seq a k) ++ fopen_failure l (a + k),
   g, Halt (Exited EXIT_FAILURE)).
Proof.
  revert a k. induction n as [|n IH]; intros a k Hk Hok Hfail; [lia|].
  rewrite files_loop_step. destruct k as [|k].
  - rewrite Nat.add_0_r in *. now rewrite Hfail.
  - pose proof (Hok 0%nat ltac:(lia)) as H0. rewrite Nat.add_0_r in H0.
    rewrite H0, (IH (S a) k); try lia.
    + cbn [seq flat_map]. rewrite <- app_assoc.
      now replace (a + S k)%nat with (S a + k)%nat by lia.
    + intros j Hj. replace (S a + j)%nat with (a + S j)%nat by lia.
      apply Hok. lia.
    + now replace (S a + k)%nat with (a + S k)%nat by lia.
Qed.

(** The file loop writes the files of the first [k] threads; it stops at
    thread [k] when [k] is not the thread count. *)
Lemma files_loop_cases e l x ns n a g :
  exists k, (k <= n)%nat /\
    fst (fst (files_loop e l x ns n (Z.of_nat a) g)) =
      flat_map (file_block e l x ns g) (seq a k)
        ++ (if (k <? n)%nat then fopen_failure l (a + k) else []) /\
    snd (fst (files_loop e l x ns n (Z.of_nat a) g)) = g /\
    snd (files_loop e l x ns n (Z.of_nat a) g) =
      (if (k <? n)%nat then Halt (Exited EXIT_FAILURE) else Ret tt).
Proof.
  revert a. induction n as [|n IH]; intros a.
  - exists 0%nat. repeat split. lia.
  - rewrite files_loop_step. destruct (fopen_ok e (Z.of_nat a)).
    + destruct (IH (S a)) as [k [Hk [Ht [Hg Hr]]]].
      destruct (files_loop e l x ns n (Z.of_nat (S a)) g) as [[t g'] r].
      cbn [fst snd] in *. exists (S k). split; [lia|].
      change (S k <? S n)%nat with (k <? n)%nat.
      rewrite Ht. cbn [seq flat_map]. rewrite <- app_assoc.
      replace (a + S k)%nat with (S a + k)%nat by lia. auto.
    + exists 0%nat. cbn [fst snd seq flat_map app]. rewrite Nat.add_0_r.
      repeat split. lia.
Qed.

(** The same for the loop as [main] starts it, at thread 0. *)
Lemma files_all_ok e l x ns n g :
  (forall j, (j < n)%nat -> fopen_ok e (Z.of_nat j) = true) ->
  files_loop e l x ns n 0 g =
  (flat_map (file_block e l x ns g) (seq 0 n), g, Ret tt).
Proof. intros H. exact (files_loop_all_ok e l x ns n 0 g H). Qed.

Lemma files_first_failure e l x ns n k g :
  (k < n)%nat ->
  (forall j, (j < k)%nat -> fopen_ok e (Z.of_nat j) = true) ->
  fopen_ok e (Z.of_nat k) = false ->
  files_loop e l x ns n 0 g =
  (flat_map (file_block e l x ns g) (seq 0 k) ++ fopen_failure l k,
   g, Halt (Exited EXIT_FAILURE)).
Proof.
  intros Hk Hok Hf. exact (files_loop_first_failure e l x ns n 0 k g Hk Hok Hf).
Qed.

Lemma files_cases e l x ns n g :
  exists k, (k <= n)%nat /\
    fst (fst (files_loop e l x ns n 0 g)) =
      flat_map (file_block e l x ns g) (seq 0 k)
        ++ (if (k <? n)%nat then fopen_failure l k else []) /\
    snd (fst (files_loop e l x ns n 0 g)) = g /\
    snd (files_loop e l x ns n 0 g) =
      (if (k <? n)%nat then Halt (Exited EXIT_FAILURE) else Ret tt).
Proof. exact (files_loop_cases e l x ns n 0 g). Qed.

(** The report: the summary on stderr, then the stdout output or the
    file loop. *)
Lemma report_unfolded e l t g :
  report e l t g =
  if use_stdout l =? 1 then
    (summary_trace e t g ++ stdout_output e (nspercycle_for e t) g, g, Ret tt)
  else
    match files_loop e l (nspercycle_for e t) (numsamples g)
                     (Z.to_nat (numthreads l)) 0 g with
    | (tf, g', r) => (summary_trace e t g ++ tf, g', r)
    end.
Proof.
  unfold report. fold (nspercycle_for e t). repeat step.
  destruct (use_stdout l =? 1).
  - unfold header. repeat step. rewrite stdout_loop_all. reflexivity.
  - destruct (files_loop e l (nspercycle_for e t) (numsamples g)
                (Z.to_nat (numthreads l)) 0 g) as [[tf g'] r]. reflexivity.
Qed.

(** *** Runs of the threaded path *)

Lemma sampling_threaded e l g :
  use_threads l = 1 -> sampling e l g = run_threads e l g.
Proof. intros H. unfold sampling. now rewrite H. Qed.


(** *** Runs that reach the report *)

(** The sampling stage never stops with the outcome of a completed run. *)
Lemma sampling_stop_not_completed e l g tr g' o :
  sampling e l g = (tr, g', Halt o) -> completed (Halt o) = false.
Proof.
  unfold sampling. destruct (use_threads l =? 1); [|discriminate].
  destruct (threadinit_rc e <? 0) eqn:Hi.
  { unfold run_threads. repeat step. rewrite Hi. repeat step.
    intros E. now inversion E. }
  destruct (malloc_threads_ok e) eqn:Hm.
  2:{ unfold run_threads. repeat step. rewrite Hi. repeat step. rewrite Hm.
      destruct (_ =? 0); repeat step; intros E; now inversion E. }
  rewrite (run_threads_unfolded _ _ _ Hi Hm).
  change 0 with (Z.of_nat 0) at 1.
  destruct (create_loop_cases e (Z.to_nat (numthreads l)) 0 g)
    as [H|[k [rc [_ [_ H]]]]]; rewrite H;
    [|intros E; now inversion E].
  change 0 with (Z.of_nat 0) at 1.
  destruct (join_loop_cases e (Z.to_nat (numthreads l)) 0 (set_hounds 1 g))
    as [H'|[k [rc [_ [_ H']]]]]; rewrite H'; intros E; now inversion E.
Qed.

(** A run whose sampling stage completes, with its report. *)
Lemma main_reported e opts g0 l g1 ts g3 t :
  parsed e opts g0 = Some (l, g1) -> alloc_ok e = true -> rejected l = false ->
  sampling e l (calibrated e (cap g1)) = (ts, g3, Ret t) ->
  main e opts g0 =
  match report e l t g3 with
  | (tr, _, Halt o) => (setup_trace e l g1 ++ ts ++ tr, g3, Halt o)
  | (tr, _, Ret _) =>
      (setup_trace e l g1 ++ ts ++ tr ++ finish_trace l, g3,
       Halt (finish_outcome l))
  end.
Proof. intros Hp Ha Hr Hs. now rewrite (main_run _ _ _ _ _ Hp Ha Hr), Hs. Qed.

(** The runs in which an event of the report occurs. *)
Lemma report_reached e opts g0 ev :
  In ev (trace_of e opts g0) -> stage_of ev = 6%nat ->
  exists l g1,
    parsed e opts g0 = Some (l, g1) /\
    alloc_ok e = true /\ rejected l = false /\
    sampling e l (calibrated e (cap g1)) =
      (if use_threads l =? 1 then threaded_sampling e l else inline_sampling e,
       set_hounds 1 (calibrated e (cap g1)), Ret (measured e)) /\
    In ev (fst (fst (report e l (measured e)
                       (set_hounds 1 (calibrated e (cap g1)))))).
Proof.
  intros Hin H6. unfold trace_of, run in Hin.
  destruct (parsed e opts g0) as [[l g1]|] eqn:Hp.
  2:{ exfalso. revert Hin. fold (run e opts g0). fold (trace_of e opts g0).
      apply upto_not_In with 0%nat; [|rewrite H6; lia].
      apply (parsed_none_run _ _ _ Hp). }
  destruct (alloc_ok e) eqn:Ha.
  2:{ rewrite (main_alloc_failed _ _ _ _ _ Hp Ha) in Hin. cbn [fst] in Hin.
      exfalso. revert Hin. apply upto_not_In with 2%nat; [|lia].
      unfold upto, warn_trace, alloc_trace. rewrite forallb_app.
      destruct (numsamples g1 >? MAX_SAMPLES), (mmap_ok e); reflexivity. }
  destruct (rejected l) eqn:Hr.
  { rewrite (main_rejected _ _ _ _ _ Hp Ha Hr) in Hin. cbn [fst] in Hin.
    exfalso. revert Hin. apply upto_not_In with 3%nat; [|lia].
    unfold upto, warn_trace, alloc_trace. rewrite !forallb_app.
    destruct (numsamples g1 >? MAX_SAMPLES), (mmap_ok e); reflexivity. }
  pose proof (within_sampling e l (calibrated e (cap g1))) as [_ Hu5].
  assert (Hstop : forall ts, upto 5 ts = true ->
                    ~ In ev (setup_trace e l g1 ++ ts)).
  { intros ts Hts. apply upto_not_In with 5%nat; [|lia].
    rewrite upto_app, Hts, andb_true_r.
    apply upto_weaken with 4%nat; [lia|apply setup_trace_upto]. }
  destruct (sampling_cases e l (calibrated e (cap g1)))
    as [H|[[_ [k [rc [_ [_ H]]]]]|[_ [tr [o [H _]]]]]]; rewrite H in Hu5;
    cbn [fst] in Hu5.
  2,3: rewrite (main_sampling_stopped _ _ _ _ _ _ _ _ Hp Ha Hr H) in Hin;
       now apply Hstop in Hin.
  exists l, g1. repeat split; auto.
  destruct (main_completed _ _ _ _ _ _ _ _ Hp Ha Hr H) as [post [o [E [_ Hpost]]]].
  rewrite E in Hin. cbn [fst] in Hin. rewrite app_assoc in Hin.
  apply in_app_or in Hin. destruct Hin as [Hin|Hin];
    [now apply Hstop in Hin|].
  destruct (Hpost _ Hin) as [Hrep| ->]; [exact Hrep|discriminate].
Qed.

Lemma reported_globals e g1 :
  numsamples (set_hounds 1 (calibrated e (cap g1))) = numsamples (cap g1) /\
  interval (set_hounds 1 (calibrated e (cap g1))) = interval g1 /\
  ignore_wire_failures (set_hounds 1 (calibrated e (cap g1)))
    = ignore_wire_failures g1 /\
  ticksperns (set_hounds 1 (calibrated e (cap g1))) =
    (if is_zero (ticksperns g1) then compute_ticksperns e else ticksperns g1).
Proof.
  unfold calibrated. rewrite cap_ticksperns. unfold cap.
  destruct (is_zero (ticksperns g1)), (numsamples g1 >? MAX_SAMPLES);
    repeat split.
Qed.


(** *** Whether the run gets as far as the start signal *)








(** *** The two paths through the sampling stage *)

(** With a [-t] the threaded path is chosen, whatever the count. *)
Lemma parse_with_t e opts l g l' g' :
  existsb is_opt_t opts = true \/ use_threads l = 1 ->
  parse_options e opts l g = ([], g', Ret l') ->
  use_threads l' = 1.
Proof.
  revert l g. induction opts as [|o opts IH]; intros l g;
    cbn [parse_options existsb]; intros H E.
  - inversion E; subst. destruct H as [H|H]; [discriminate|exact H].
  - unfold bind in E.
    option_cases o; simpl in *; try discriminate;
      match type of E with
      | context [parse_options e opts ?l1 ?g1] =>
          destruct (parse_options e opts l1 g1) as [[t2 g2] [l2|o2]] eqn:E2;
          [|discriminate]; inversion E; subst
      end;
      (refine (IH _ _ _ E2); simpl; first [now right | exact H]).
Qed.

(** The threaded path opens with [threadinit]. *)
Lemma run_threads_head e l g :
  exists rest,
    fst (fst (run_threads e l g))
      = EvThreadinit (numthreads l) (threadinit_rc e) :: rest.
Proof.
  unfold run_threads. rewrite bind_emit.
  match goal with
  | |- context [fst (fst (match ?m with _ => _ end))] =>
      destruct m as [[t g'] r]
  end.
  now exists t.
Qed.

(** Once thread set-up has succeeded, a count of at least one makes
    [main] call [pthread_create] for thread 0. *)
Lemma run_threads_first_create e l g :
  (threadinit_rc e <? 0) = false -> malloc_threads_ok e = true ->
  1 <= numthreads l ->
  exists rest,
    fst (fst (run_threads e l g))
      = threads_prologue e l
          ++ EvPthreadCreate 0 (pthread_create_rc e 0) :: rest.
Proof.
  intros Hi Hm Hn. rewrite (run_threads_unfolded _ _ _ Hi Hm).
  destruct (Z.to_nat (numthreads l)) as [|n] eqn:En; [lia|].
  rewrite create_loop_step.
  assert (Hc : exists tc g1 r,
            (if pthread_create_rc e 0 =? 0
             then match create_loop e n (0 + 1) g with
                  | (t, g', r) =>
                      (EvPthreadCreate 0 (pthread_create_rc e 0) :: t, g', r)
                  end
             else ([EvPthreadCreate 0 (pthread_create_rc e 0); EvErrCreate],
                   g, Halt (Exited EXIT_FAILURE)))
            = (EvPthreadCreate 0 (pthread_create_rc e 0) :: tc, g1, r)).
  { destruct (pthread_create_rc e 0 =? 0); [|now eexists _, _, _].
    destruct (create_loop e n (0 + 1) g) as [[t g'] r]. now eexists _, _, _. }
  destruct Hc as [tc [g1 [r ->]]].
  destruct r as [[]|o]; [|now eexists].
  destruct (join_loop e (S n) 0 (set_hounds 1 g1)) as [[tj g2] [[]|o]];
    cbn [fst app]; now eexists.
Qed.

(** The report either returns or exits with [EXIT_FAILURE]. *)
Lemma report_outcome e l t g :
  snd (report e l t g) = Ret tt \/
  snd (report e l t g) = Halt (Exited EXIT_FAILURE).
Proof.
  rewrite report_unfolded. destruct (use_stdout l =? 1); [now left|].
  destruct (files_cases e l (nspercycle_for e t) (numsamples g)
              (Z.to_nat (numthreads l)) g) as [k [_ [_ [_ Hr]]]].
  destruct (files_loop e l (nspercycle_for e t) (numsamples g)
              (Z.to_nat (numthreads l)) 0 g) as [[tf g'] r].
  cbn [snd] in *. subst r. destruct (k <? _)%nat; auto.
Qed.

(** Without [-t]: no call into the thread layer, and [main] calls the
    core itself. *)
Lemma without_t_sequential e opts g0 :
  existsb is_opt_t opts = false ->
  none is_concurrency (trace_of e opts g0) = true /\
  (forall l g1, parsed e opts g0 = Some (l, g1) ->
                numthreads l = 1 /\ use_threads l = 0) /\
  (existsb ends_parsing opts = false -> alloc_ok e = true ->
   exists l g1 post,
     parsed e opts g0 = Some (l, g1) /\
     trace_of e opts g0 = setup_trace e l g1 ++ inline_sampling e ++ post /\
     none is_core (setup_trace e l g1) = true /\
     none is_core post = true /\
     count is_core (trace_of e opts g0) = 1%nat).
Proof.
  intros Ht.
  assert (Hl : forall l g1, parsed e opts g0 = Some (l, g1) ->
                            numthreads l = 1 /\ use_threads l = 0).
  { intros l g1 Hp. apply parsed_some in Hp.
    destruct (parse_no_t _ _ _ _ _ _ Ht Hp) as [H1 H2]. now split. }
  assert (Hrun : forall l g1, parsed e opts g0 = Some (l, g1) ->
            alloc_ok e = true ->
            exists post,
              trace_of e opts g0
                = setup_trace e l g1 ++ inline_sampling e ++ post /\
              staged 6 post = true /\ upto 6 post = true).
  { intros l g1 Hp Ha. destruct (Hl _ _ Hp) as [Hn Hu].
    assert (Hr : rejected l = false).
    { unfold rejected. rewrite Hn. apply andb_false_r. }
    unfold trace_of, run. rewrite (main_run _ _ _ _ _ Hp Ha Hr).
    unfold sampling, finish_trace. rewrite Hu. cbn [Z.eqb].
    rewrite run_inline_run.
    pose proof (within_report e l (measured e)
                  (set_hounds 1 (calibrated e (cap g1)))) as [H6 H6'].
    destruct (report e l (measured e) (set_hounds 1 (calibrated e (cap g1))))
      as [[tr g4] [[]|o]]; cbn [fst] in *; exists tr;
      rewrite ?app_nil_r; auto. }
  assert (Hcore : forall post, staged 6 post = true -> upto 6 post = true ->
                               none is_core post = true).
  { intros post H1 H2. apply stage_none with 6%nat; auto.
    intros []; simpl; intros; (discriminate || lia). }
  split; [|split; [exact Hl|]].
  - destruct (parsed e opts g0) as [[l g1]|] eqn:Hp.
    2:{ apply upto_none with 0%nat; [|apply (parsed_none_run _ _ _ Hp)].
        intros []; simpl; intros; (discriminate || lia). }
    destruct (alloc_ok e) eqn:Ha.
    2:{ unfold trace_of, run. rewrite (main_alloc_failed _ _ _ _ _ Hp Ha).
        cbn [fst]. apply upto_none with 2%nat.
        - intros []; simpl; intros; (discriminate || lia).
        - unfold upto, warn_trace, alloc_trace. rewrite forallb_app.
          destruct (numsamples g1 >? MAX_SAMPLES), (mmap_ok e); reflexivity. }
    destruct (Hrun _ _ eq_refl eq_refl) as [post [E [H1 H2]]]. rewrite E.
    rewrite !none_app. apply andb_true_iff. split; [|apply andb_true_iff; split].
    + apply upto_none with 4%nat; [|apply setup_trace_upto].
      intros []; simpl; intros; (discriminate || lia).
    + reflexivity.
    + apply stage_none with 6%nat; auto.
      intros []; simpl; intros; (discriminate || lia).
  - intros Hu Ha.
    destruct (parse_returns e opts initial_locals g0 Hu) as [l [g1 Hp]].
    apply parsed_some in Hp.
    destruct (Hrun _ _ Hp Ha) as [post [E [H1 H2]]].
    assert (Hs : none is_core (setup_trace e l g1) = true).
    { apply upto_none with 4%nat; [|apply setup_trace_upto].
      intros []; simpl; intros; (discriminate || lia). }
    exists l, g1, post. repeat split; auto.
    rewrite E, !count_app, (none_count _ _ Hs), (none_count _ _ (Hcore _ H1 H2)).
    reflexivity.
Qed.

(** With [-t]: [main] never calls the core, and the run, once past the
    stdout check, is on the threaded path. *)
Lemma with_t_threaded e opts g0 :
  existsb is_opt_t opts = true ->
  none is_core (trace_of e opts g0) = true /\
  outcome_of e opts g0 <> Halt (Exited EXIT_SUCCESS) /\
  (forall l g1, parsed e opts g0 = Some (l, g1) ->
     use_threads l = 1 /\
     (alloc_ok e = true -> rejected l = false ->
      (exists rest,
         trace_of e opts g0 =
         setup_trace e l g1
           ++ EvThreadinit (numthreads l) (threadinit_rc e) :: rest) /\
      ((threadinit_rc e <? 0) = false -> malloc_threads_ok e = true ->
       1 <= numthreads l ->
       exists rest,
         trace_of e opts g0 =
         setup_trace e l g1 ++ threads_prologue e l
           ++ EvPthreadCreate 0 (pthread_create_rc e 0) :: rest)) /\
     (outcome_of e opts g0 = Halt ThreadExited ->
      exists post,
        trace_of e opts g0 =
        setup_trace e l g1 ++ threaded_sampling e l ++ post
          ++ [EvPthreadExit] /\
        none is_concurrency post = true)).
Proof.
  intros Ht.
  assert (Hcore4 : forall tr, upto 4 tr = true -> none is_core tr = true).
  { intros tr Hu. apply upto_none with 4%nat; [|exact Hu].
    intros []; simpl; intros; (discriminate || lia). }
  destruct (parsed e opts g0) as [[l g1]|] eqn:Hp.
  2:{ destruct (parsed_none_run _ _ _ Hp) as [Hu [Ho _]].
      split; [|split; [|discriminate]].
      - apply Hcore4. apply upto_weaken with 0%nat; [lia|exact Hu].
      - destruct Ho as [-> |[-> | ->]]; discriminate. }
  assert (Hth : use_threads l = 1).
  { apply parsed_some in Hp.
    exact (parse_with_t _ _ _ _ _ _ (or_introl Ht) Hp). }
  assert (Hth0 : (use_threads l =? 0) = false) by now rewrite Hth.
  unfold trace_of, outcome_of, run.
  destruct (alloc_ok e) eqn:Ha.
  2:{ rewrite (main_alloc_failed _ _ _ _ _ Hp Ha). cbn [fst snd].
      split; [|split; [discriminate|]].
      - apply Hcore4. apply upto_weaken with 2%nat; [lia|].
        unfold upto, warn_trace, alloc_trace. rewrite forallb_app.
        destruct (numsamples g1 >? MAX_SAMPLES), (mmap_ok e); reflexivity.
      - intros l' g1' E. inversion E; subst l' g1'.
        split; [exact Hth|]. split; [discriminate|discriminate]. }
  destruct (rejected l) eqn:Hr.
  { rewrite (main_rejected _ _ _ _ _ Hp Ha Hr). cbn [fst snd].
    split; [|split; [discriminate|]].
    - apply Hcore4. apply upto_weaken with 3%nat; [lia|].
      unfold upto, warn_trace, alloc_trace. rewrite !forallb_app.
      destruct (numsamples g1 >? MAX_SAMPLES), (mmap_ok e); reflexivity.
    - intros l' g1' E. inversion E; subst l' g1'.
      split; [exact Hth|]. split; [|discriminate].
      intros _ Hx. rewrite Hr in Hx. discriminate Hx. }
  assert (Hsetup : none is_core (setup_trace e l g1) = true)
    by (apply Hcore4, setup_trace_upto).
  assert (Hhead : forall ts g3 r post,
            sampling e l (calibrated e (cap g1)) = (ts, g3, r) ->
            (exists rest,
               setup_trace e l g1 ++ ts ++ post =
               setup_trace e l g1
                 ++ EvThreadinit (numthreads l) (threadinit_rc e) :: rest) /\
            ((threadinit_rc e <? 0) = false -> malloc_threads_ok e = true ->
             1 <= numthreads l ->
             exists rest,
               setup_trace e l g1 ++ ts ++ post =
               setup_trace e l g1 ++ threads_prologue e l
                 ++ EvPthreadCreate 0 (pthread_create_rc e 0) :: rest)).
  { intros ts g3 r post Hs. rewrite (sampling_threaded _ _ _ Hth) in Hs.
    split.
    - destruct (run_threads_head e l (calibrated e (cap g1))) as [rest E].
      rewrite Hs in E. cbn [fst] in E. subst ts. now eexists.
    - intros Hi Hm Hn.
      destruct (run_threads_first_create e l (calibrated e (cap g1))
                  Hi Hm Hn) as [rest E].
      rewrite Hs in E. cbn [fst] in E. subst ts.
      rewrite <- !app_assoc. cbn [app]. now eexists. }
  rewrite (main_run _ _ _ _ _ Hp Ha Hr).
  destruct (sampling_cases e l (calibrated e (cap g1)))
    as [H|[[_ [k [rc [_ [_ H]]]]]|[_ [tr [o [H [_ [_ Hc]]]]]]]].
  - rewrite H, Hth. cbn [Z.eqb Pos.eqb].
    rewrite Hth in H. cbn [Z.eqb Pos.eqb] in H.
    pose proof (within_report e l (measured e)
                  (set_hounds 1 (calibrated e (cap g1)))) as [H6 H6'].
    pose proof (staged_from _ _ H6) as Hf6.
    pose proof (report_outcome e l (measured e)
                  (set_hounds 1 (calibrated e (cap g1)))) as Hro.
    assert (Hs6 : forall p tr,
              (forall ev, p ev = true -> stage_of ev <> 6%nat) ->
              staged 6 tr = true -> upto 6 tr = true -> none p tr = true).
    { intros p tr Hpp. now apply stage_none. }
    assert (Hts : none is_core (threaded_sampling e l) = true).
    { unfold threaded_sampling, threads_prologue, creates_ok, joins_ok.
      rewrite !none_app. repeat (apply andb_true_iff; split);
        first [reflexivity | apply none_map; reflexivity]. }
    destruct (report e l (measured e) (set_hounds 1 (calibrated e (cap g1))))
      as [[tr g4] [[]|o]]; cbn [fst snd] in *.
    + unfold finish_trace, finish_outcome. rewrite Hth0.
      split; [|split; [discriminate|]].
      * rewrite !none_app, Hsetup, Hts.
        rewrite (Hs6 is_core tr); [reflexivity| |exact H6|exact H6'].
        intros []; simpl; intros; (discriminate || lia).
      * intros l' g1' E. inversion E; subst l' g1'.
        split; [exact Hth|]. split.
        -- intros _ _. exact (Hhead _ _ _ (tr ++ [EvPthreadExit]) H).
        -- intros _. exists tr. split; [reflexivity|].
           apply Hs6; [|exact H6|exact H6'].
           intros []; simpl; intros; (discriminate || lia).
    + destruct Hro as [Hro|Hro]; [discriminate|]. inversion Hro; subst o.
      split; [|split; [discriminate|]].
      * rewrite !none_app, Hsetup, Hts.
        rewrite (Hs6 is_core tr); [reflexivity| |exact H6|exact H6'].
        intros []; simpl; intros; (discriminate || lia).
      * intros l' g1' E. inversion E; subst l' g1'.
        split; [exact Hth|]. split; [|discriminate].
        intros _ _. exact (Hhead _ _ _ tr H).
  - rewrite H. cbn [fst snd].
    split; [|split; [discriminate|]].
    + unfold threads_prologue, creates_ok, joins_ok.
      rewrite !none_app, Hsetup.
      repeat (apply andb_true_iff; split);
        first [reflexivity | apply none_map; reflexivity].
    + intros l' g1' E. inversion E; subst l' g1'.
      split; [exact Hth|]. split; [|discriminate].
      intros _ _. pose proof (Hhead _ _ _ [] H) as Hh.
      now rewrite !app_nil_r in Hh.
  - rewrite H. cbn [fst snd].
    pose proof (sampling_stop_not_completed _ _ _ _ _ _ H) as Hnc.
    split; [|split].
    + now rewrite none_app, Hsetup, Hc.
    + intros E. inversion E; subst o. discriminate.
    + intros l' g1' E. inversion E; subst l' g1'.
      split; [exact Hth|]. split.
      * intros _ _. pose proof (Hhead _ _ _ [] H) as Hh.
        now rewrite !app_nil_r in Hh.
      * intros E'. inversion E'; subst o. discriminate.
Qed.

(** C3 (amended). What selects the path is the [-t] option, not the
    count.  A run whose command line has no [-t] ([numthreads] then
    keeps its default 1 and [use_threads] stays 0) makes no call into
    the thread layer; when its options are parsed to the end and the
    allocation succeeds, [main] itself calls the sampling core, once.
    A run given [-t] never calls the core from [main] and never ends in
    [exit(EXIT_SUCCESS)]; once past the stdout check it is on the
    threaded path, whatever the count, also with [-t 1]: the first call
    after setup is [threadinit(numthreads)], and when thread set-up
    succeeds and the count is at least 1 it calls [pthread_create] for
    thread 0; a run that ends in [pthread_exit] has created and joined
    the threads [0 .. numthreads - 1] (none for a count of 0 or
    less). *)
Theorem C3_t_option_selects_the_path e opts g0 :
  (existsb is_opt_t opts = false ->
   none is_concurrency (trace_of e opts g0) = true /\
   (forall l g1, parsed e opts g0 = Some (l, g1) ->
                 numthreads l = 1 /\ use_threads l = 0) /\
   (existsb ends_parsing opts = false -> alloc_ok e = true ->
    exists l g1 post,
      parsed e opts g0 = Some (l, g1) /\
      trace_of e opts g0 = setup_trace e l g1 ++ inline_sampling e ++ post /\
      none is_core (setup_trace e l g1) = true /\
      none is_core post = true /\
      count is_core (trace_of e opts g0) = 1%nat)) /\
  (existsb is_opt_t opts = true ->
   none is_core (trace_of e opts g0) = true /\
   outcome_of e opts g0 <> Halt (Exited EXIT_SUCCESS) /\
   (forall l g1, parsed e opts g0 = Some (l, g1) ->
      use_threads l = 1 /\
      (alloc_ok e = true -> rejected l = false ->
       (exists rest,
          trace_of e opts g0 =
          setup_trace e l g1
            ++ EvThreadinit (numthreads l) (threadinit_rc e) :: rest) /\
       ((threadinit_rc e <? 0) = false -> malloc_threads_ok e = true ->
        1 <= numthreads l ->
        exists rest,
          trace_of e opts g0 =
          setup_trace e l g1 ++ threads_prologue e l
            ++ EvPthreadCreate 0 (pthread_create_rc e 0) :: rest)) /\
      (outcome_of e opts g0 = Halt ThreadExited ->
       exists post,
         trace_of e opts g0 =
         setup_trace e l g1 ++ threaded_sampling e l ++ post
           ++ [EvPthreadExit] /\
         none is_concurrency post = true))).
Proof.
  split.
  - apply without_t_sequential.
  - apply with_t_threaded.
Qed.

Lemma C3_witness :
  (none is_concurrency
     (trace_of Example.linux Example.argv_n2 initial_globals) = true /\
   count is_core (trace_of Example.linux Example.argv_n2 initial_globals)
     = 1%nat) /\
  (none is_core
     (trace_of Example.linux Example.argv_t1_n2 initial_globals) = true /\
   exists rest,
     trace_of Example.linux Example.argv_t1_n2 initial_globals =
     setup_trace Example.linux (mkLocals 1 1 0 "ftq")
       (set_numsamples 2 initial_globals)
       ++ threads_prologue Example.linux (mkLocals 1 1 0 "ftq")
       ++ EvPthreadCreate 0 0 :: rest).
Proof.
  destruct (C3_t_option_selects_the_path
              Example.linux Example.argv_n2 initial_globals) as [H1 _].
  destruct (C3_t_option_selects_the_path
              Example.linux Example.argv_t1_n2 initial_globals) as [_ H2].
  specialize (H1 eq_refl). specialize (H2 eq_refl).
  destruct H1 as [Hn [_ Hrun]].
  destruct (Hrun eq_refl eq_refl) as [l [g1 [post [_ [_ [_ [_ Hc]]]]]]].
  destruct H2 as [Hcore [_ Hl]].
  destruct (Hl (mkLocals 1 1 0 "ftq") (set_numsamples 2 initial_globals)
              eq_refl) as [_ [Hrun2 _]].
  destruct (Hrun2 eq_refl eq_refl) as [_ Hcreate].
  split; [split; [exact Hn|exact Hc]|].
  split; [exact Hcore|].
  apply Hcreate; [reflexivity|reflexivity|simpl; lia].
Defined.

(** ** Further properties of [main] *)


(** *** Usage *)



(** *** Program order *)

(** X2. In every run the events come in the order of the stages of
    [main]: option parsing, sanity check, sample storage, stdout check,
    calibration, sampling, report, [pthread_exit]; no event of an
    earlier stage follows an event of a later one. *)
Theorem events_in_program_order e opts g0 :
  staged 0 (trace_of e opts g0) = true /\
  (forall l1 x l2 y l3,
     trace_of e opts g0 = l1 ++ x :: l2 ++ y :: l3 ->
     (stage_of x <= stage_of y)%nat).
Proof.
  pose proof (within_main e opts g0) as [Hs _].
  fold (run e opts g0) in Hs. fold (trace_of e opts g0) in Hs.
  split; [exact Hs|].
  intros l1 x l2 y l3 E. rewrite E in Hs.
  apply staged_split in Hs. destruct Hs as [_ Hs].
  unfold from in Hs. rewrite forallb_forall in Hs.
  apply Nat.leb_le. apply Hs. apply in_elt.
Qed.

(** *** Failures of the thread layer *)

(** X3. When [pthread_create] fails for thread [k] after succeeding for
    the threads before it, the run stops there: the [k] threads already
    created are never released (the start signal is not written), no
    thread is joined, nothing is reported, and the exit status is
    [EXIT_FAILURE]. *)
Theorem create_failure_stops_before_release e opts g0 l g1 k :
  parsed e opts g0 = Some (l, g1) ->
  alloc_ok e = true -> rejected l = false -> use_threads l = 1 ->
  (threadinit_rc e <? 0) = false -> malloc_threads_ok e = true ->
  (k < Z.to_nat (numthreads l))%nat ->
  (forall i, (i < k)%nat -> pthread_create_rc e (Z.of_nat i) = 0) ->
  pthread_create_rc e (Z.of_nat k) <> 0 ->
  trace_of e opts g0 =
    setup_trace e l g1 ++ threads_prologue e l ++ creates_ok k
      ++ [EvPthreadCreate (Z.of_nat k) (pthread_create_rc e (Z.of_nat k));
          EvErrCreate] /\
  outcome_of e opts g0 = Halt (Exited EXIT_FAILURE) /\
  hounds (final_globals e opts g0) = hounds g0.
Proof.
  intros Hp Ha Hr Ht Hi Hm Hk Hok Hfail.
  assert (Hs : sampling e l (calibrated e (cap g1)) =
               (threads_prologue e l ++ creates_ok k
                  ++ [EvPthreadCreate (Z.of_nat k)
                        (pthread_create_rc e (Z.of_nat k)); EvErrCreate],
                calibrated e (cap g1), Halt (Exited EXIT_FAILURE))).
  { rewrite (sampling_threaded _ _ _ Ht), (run_threads_unfolded _ _ _ Hi Hm).
    change 0 with (Z.of_nat 0) at 1.
    now rewrite (create_loop_first_failure e _ 0 k _ Hk Hok Hfail). }
  unfold trace_of, outcome_of, final_globals, run.
  rewrite (main_sampling_stopped _ _ _ _ _ _ _ _ Hp Ha Hr Hs). cbn [fst snd].
  repeat split.
  now rewrite calibrated_hounds, cap_hounds, (parsed_hounds _ _ _ _ _ Hp).
Qed.

Lemma create_failure_stops_before_release_witness :
  trace_of Failing.create_fails Failing.argv_t3_n2 initial_globals =
    setup_trace Failing.create_fails (mkLocals 3 1 0 "ftq")
      (set_numsamples 2 initial_globals)
      ++ threads_prologue Failing.create_fails (mkLocals 3 1 0 "ftq")
      ++ creates_ok 1 ++ [EvPthreadCreate 1 11; EvErrCreate] /\
  outcome_of Failing.create_fails Failing.argv_t3_n2 initial_globals
    = Halt (Exited EXIT_FAILURE) /\
  hounds (final_globals Failing.create_fails Failing.argv_t3_n2 initial_globals)
    = 0.
Proof.
  apply (create_failure_stops_before_release Failing.create_fails
           Failing.argv_t3_n2 initial_globals (mkLocals 3 1 0 "ftq")
           (set_numsamples 2 initial_globals) 1%nat);
    try reflexivity.
  - simpl. lia.
  - intros i Hi. assert (i = 0%nat) as -> by lia. reflexivity.
  - simpl. lia.
Defined.

(** X4. When every thread has been created and [pthread_join] fails for
    thread [k] after succeeding for the threads before it, the run stops
    there with [EXIT_FAILURE]: the start signal has been written, but the
    end readings are never taken and nothing is reported. *)
Theorem join_failure_stops_before_report e opts g0 l g1 k :
  parsed e opts g0 = Some (l, g1) ->
  alloc_ok e = true -> rejected l = false -> use_threads l = 1 ->
  (threadinit_rc e <? 0) = false -> malloc_threads_ok e = true ->
  (forall i, (i < Z.to_nat (numthreads l))%nat ->
             pthread_create_rc e (Z.of_nat i) = 0) ->
  (k < Z.to_nat (numthreads l))%nat ->
  (forall i, (i < k)%nat -> pthread_join_rc e (Z.of_nat i) = 0) ->
  pthread_join_rc e (Z.of_nat k) <> 0 ->
  trace_of e opts g0 =
    setup_trace e l g1 ++ threads_prologue e l
      ++ creates_ok (Z.to_nat (numthreads l)) ++ [EvHounds 1] ++ joins_ok k
      ++ [EvPthreadJoin (Z.of_nat k) (pthread_join_rc e (Z.of_nat k));
          EvErrJoin] /\
  outcome_of e opts g0 = Halt (Exited EXIT_FAILURE) /\
  hounds (final_globals e opts g0) = 1.
Proof.
  intros Hp Ha Hr Ht Hi Hm Hc Hk Hok Hfail.
  assert (Hs : sampling e l (calibrated e (cap g1)) =
               (threads_prologue e l ++ creates_ok (Z.to_nat (numthreads l))
                  ++ [EvHounds 1] ++ joins_ok k
                  ++ [EvPthreadJoin (Z.of_nat k)
                        (pthread_join_rc e (Z.of_nat k)); EvErrJoin],
                set_hounds 1 (calibrated e (cap g1)),
                Halt (Exited EXIT_FAILURE))).
  { rewrite (sampling_threaded _ _ _ Ht), (run_threads_unfolded _ _ _ Hi Hm).
    change 0 with (Z.of_nat 0) at 1.
    rewrite (create_loop_all_ok e _ 0 _ Hc).
    change 0 with (Z.of_nat 0) at 1.
    now rewrite (join_loop_first_failure e _ 0 k _ Hk Hok Hfail). }
  unfold trace_of, outcome_of, final_globals, run.
  rewrite (main_sampling_stopped _ _ _ _ _ _ _ _ Hp Ha Hr Hs). cbn [fst snd].
  now repeat split.
Qed.

Lemma join_failure_stops_before_report_witness :
  trace_of Failing.join_fails Failing.argv_t3_n2 initial_globals =
    setup_trace Failing.join_fails (mkLocals 3 1 0 "ftq")
      (set_numsamples 2 initial_globals)
      ++ threads_prologue Failing.join_fails (mkLocals 3 1 0 "ftq")
      ++ creates_ok 3 ++ [EvHounds 1] ++ joins_ok 1
      ++ [EvPthreadJoin 1 3; EvErrJoin] /\
  outcome_of Failing.join_fails Failing.argv_t3_n2 initial_globals
    = Halt (Exited EXIT_FAILURE) /\
  hounds (final_globals Failing.join_fails Failing.argv_t3_n2 initial_globals)
    = 1.
Proof.
  apply (join_failure_stops_before_report Failing.join_fails
           Failing.argv_t3_n2 initial_globals (mkLocals 3 1 0 "ftq")
           (set_numsamples 2 initial_globals) 1%nat);
    try reflexivity.
  - simpl. lia.
  - intros i Hi. assert (i = 0%nat) as -> by lia. reflexivity.
  - simpl. lia.
Defined.

(** X5. When [threadinit] returns a negative value the run aborts right
    after the error message: no thread array is allocated, no clock is
    read, no thread is created and the start signal is not written. *)
Theorem threadinit_failure_aborts e opts g0 l g1 :
  parsed e opts g0 = Some (l, g1) ->
  alloc_ok e = true -> rejected l = false -> use_threads l = 1 ->
  threadinit_rc e < 0 ->
  trace_of e opts g0 =
    setup_trace e l g1
      ++ [EvThreadinit (numthreads l) (threadinit_rc e); EvErrThreadinit] /\
  outcome_of e opts g0 = Halt Aborted /\
  hounds (final_globals e opts g0) = hounds g0.
Proof.
  intros Hp Ha Hr Ht Hi. apply Z.ltb_lt in Hi.
  assert (Hs : sampling e l (calibrated e (cap g1)) =
               ([EvThreadinit (numthreads l) (threadinit_rc e); EvErrThreadinit],
                calibrated e (cap g1), Halt Aborted)).
  { rewrite (sampling_threaded _ _ _ Ht). unfold run_threads.
    repeat step. rewrite Hi. repeat step. reflexivity. }
  unfold trace_of, outcome_of, final_globals, run.
  rewrite (main_sampling_stopped _ _ _ _ _ _ _ _ Hp Ha Hr Hs). cbn [fst snd].
  repeat split.
  now rewrite calibrated_hounds, cap_hounds, (parsed_hounds _ _ _ _ _ Hp).
Qed.

Lemma threadinit_failure_aborts_witness :
  trace_of Failing.threadinit_fails Failing.argv_t3_n2 initial_globals =
    setup_trace Failing.threadinit_fails (mkLocals 3 1 0 "ftq")
      (set_numsamples 2 initial_globals)
      ++ [EvThreadinit 3 (-1); EvErrThreadinit] /\
  outcome_of Failing.threadinit_fails Failing.argv_t3_n2 initial_globals
    = Halt Aborted /\
  hounds (final_globals Failing.threadinit_fails Failing.argv_t3_n2
            initial_globals) = 0.
Proof.
  apply (threadinit_failure_aborts Failing.threadinit_fails
           Failing.argv_t3_n2 initial_globals (mkLocals 3 1 0 "ftq")
           (set_numsamples 2 initial_globals));
    try reflexivity.
Defined.

(** *** A file that cannot be created *)

(** X6. When the output file of thread [k] cannot be created, after
    those of the threads before it could, a run that has reached the
    report ends with [EXIT_FAILURE] right after the [perror]: the files
    of the threads [0 .. k-1] are complete and closed, nothing is
    written for thread [k] or the threads after it, and [pthread_exit]
    is not reached. *)
Theorem fopen_failure_ends_the_report e opts g0 l g1 k a b c :
  parsed e opts g0 = Some (l, g1) ->
  In (EvStderrTimes a b c) (trace_of e opts g0) ->
  use_stdout l <> 1 ->
  (k < Z.to_nat (numthreads l))%nat ->
  (forall j, (j < k)%nat -> fopen_ok e (Z.of_nat j) = true) ->
  fopen_ok e (Z.of_nat k) = false ->
  trace_of e opts g0 =
    setup_trace e l g1
      ++ (if use_threads l =? 1 then threaded_sampling e l
          else inline_sampling e)
      ++ summary_trace e (measured e) (set_hounds 1 (calibrated e (cap g1)))
      ++ flat_map (file_block e l (run_nspercycle e) (numsamples (cap g1))
                     (set_hounds 1 (calibrated e (cap g1))))
                  (seq 0 k)
      ++ fopen_failure l k /\
  outcome_of e opts g0 = Halt (Exited EXIT_FAILURE).
Proof.
  intros Hp Hin Hs Hk Hok Hfail.
  destruct (report_reached _ _ _ _ Hin eq_refl)
    as [l' [g1' [Hp' [Ha [Hr [Hsm _]]]]]].
  rewrite Hp in Hp'. inversion Hp'; subst l' g1'.
  unfold trace_of, outcome_of, run.
  rewrite (main_reported _ _ _ _ _ _ _ _ Hp Ha Hr Hsm), report_unfolded.
  apply Z.eqb_neq in Hs. rewrite Hs.
  destruct (reported_globals e g1) as [-> _].
  rewrite (files_first_failure _ _ _ _ _ k _ Hk Hok Hfail).
  cbn [fst snd]. split; reflexivity.
Qed.

Lemma fopen_failure_ends_the_report_witness :
  trace_of Failing.fopen_fails Failing.argv_t3_n2 initial_globals =
    setup_trace Failing.fopen_fails (mkLocals 3 1 0 "ftq")
      (set_numsamples 2 initial_globals)
      ++ threaded_sampling Failing.fopen_fails (mkLocals 3 1 0 "ftq")
      ++ summary_trace Failing.fopen_fails (measured Failing.fopen_fails)
           (set_hounds 1
              (calibrated Failing.fopen_fails
                 (cap (set_numsamples 2 initial_globals))))
      ++ flat_map
           (file_block Failing.fopen_fails (mkLocals 3 1 0 "ftq")
              (run_nspercycle Failing.fopen_fails) 2
              (set_hounds 1
                 (calibrated Failing.fopen_fails
                    (cap (set_numsamples 2 initial_globals)))))
           (seq 0 1)
      ++ fopen_failure (mkLocals 3 1 0 "ftq") 1 /\
  outcome_of Failing.fopen_fails Failing.argv_t3_n2 initial_globals
    = Halt (Exited EXIT_FAILURE).
Proof.
  apply (fopen_failure_ends_the_report Failing.fopen_fails
           Failing.argv_t3_n2 initial_globals (mkLocals 3 1 0 "ftq")
           (set_numsamples 2 initial_globals) 1%nat 1000 3000 2000).
  - reflexivity.
  - vm_compute. do 17 right. now left.
  - discriminate.
  - simpl. lia.
  - intros j Hj. assert (j = 0%nat) as -> by lia. reflexivity.
  - reflexivity.
Defined.

(** *** A thread count of zero *)

(** X7. A thread count of zero is not rejected.  With [-t 0] and
    per-file output the sample buffer and the thread array are asked
    for with a size of 0 bytes; when the allocations give something
    back ([malloc(0)] is not NULL) and [threadinit(0)] succeeds, the run
    goes through thread set-up, writes the start signal, takes the end
    readings, prints the summary and ends in [pthread_exit], without
    creating or joining a thread, calling the core or opening a file. *)
Theorem zero_thread_count_runs_empty e opts g0 l g1 :
  parsed e opts g0 = Some (l, g1) ->
  alloc_ok e = true -> use_threads l = 1 -> numthreads l = 0 ->
  use_stdout l <> 1 ->
  (threadinit_rc e <? 0) = false -> malloc_threads_ok e = true ->
  samples_size e (numsamples (cap g1)) (numthreads l) = 0 /\
  threads_size e l = 0 /\
  trace_of e opts g0 =
    (warn_trace g1 ++ alloc_trace e 0 ++ [EvMemsetSamples 0]
       ++ calib_trace (cap g1))
      ++ [EvThreadinit 0 (threadinit_rc e);
          EvMallocThreads 0 true; EvMemsetThreads 0;
          EvNsec (start (measured e)); EvGetticks (cyclestart (measured e))]
      ++ [EvHounds 1;
          EvGetticks (cycleend (measured e)); EvNsec (end_ (measured e))]
      ++ summary_trace e (measured e) (set_hounds 1 (calibrated e (cap g1)))
      ++ [EvPthreadExit] /\
  outcome_of e opts g0 = Halt ThreadExited.
Proof.
  intros Hp Ha Ht Hn Hs Hi Hm.
  assert (Hr : rejected l = false).
  { unfold rejected. rewrite Hn. apply andb_false_r. }
  assert (H0 : Z.to_nat (numthreads l) = 0%nat) by lia.
  assert (Hsz : samples_size e (numsamples (cap g1)) (numthreads l) = 0).
  { unfold samples_size, size_mul, wrap. rewrite Hn.
    rewrite Z.mod_0_l by (destruct (model e); simpl; lia).
    rewrite Z.mul_0_r. apply Z.mod_0_l. destruct (model e); simpl; lia. }
  assert (Htz : threads_size e l = 0).
  { unfold threads_size, size_mul, wrap. rewrite Hn.
    rewrite Z.mod_0_l by (destruct (model e); simpl; lia).
    rewrite Z.mul_0_r. apply Z.mod_0_l. destruct (model e); simpl; lia. }
  split; [exact Hsz|]. split; [exact Htz|].
  assert (Hsm : sampling e l (calibrated e (cap g1)) =
                (threads_prologue e l
                   ++ [EvHounds 1; EvGetticks (cycleend (measured e));
                       EvNsec (end_ (measured e))],
                 set_hounds 1 (calibrated e (cap g1)), Ret (measured e))).
  { rewrite (sampling_threaded _ _ _ Ht), (run_threads_unfolded _ _ _ Hi Hm).
    rewrite H0. reflexivity. }
  unfold trace_of, outcome_of, run.
  rewrite (main_reported _ _ _ _ _ _ _ _ Hp Ha Hr Hsm), report_unfolded.
  apply Z.eqb_neq in Hs. rewrite Hs, H0. cbn [files_loop].
  unfold ret, finish_trace, finish_outcome. rewrite Ht. cbn [Z.eqb fst snd].
  unfold setup_trace, threads_prologue. cbv zeta. rewrite Hsz, Htz, Hn.
  rewrite app_nil_r, <- !app_assoc. split; reflexivity.
Qed.

Lemma zero_thread_count_runs_empty_witness :
  samples_size Example.linux_no_mmap 2 0 = 0 /\
  threads_size Example.linux_no_mmap (mkLocals 0 1 0 "ftq") = 0 /\
  trace_of Example.linux_no_mmap Failing.argv_t0_n2 initial_globals =
    ([] ++ [EvMmap 0 false; EvPerrorMmap; EvMallocSamples 0 true]
        ++ [EvMemsetSamples 0] ++ [EvComputeTicksperns])
      ++ [EvThreadinit 0 0; EvMallocThreads 0 true; EvMemsetThreads 0;
          EvNsec 1000; EvGetticks 5000]
      ++ [EvHounds 1; EvGetticks 9000; EvNsec 3000]
      ++ summary_trace Example.linux_no_mmap (measured Example.linux_no_mmap)
           (set_hounds 1
              (calibrated Example.linux_no_mmap
                 (cap (set_numsamples 2 initial_globals))))
      ++ [EvPthreadExit] /\
  outcome_of Example.linux_no_mmap Failing.argv_t0_n2 initial_globals
    = Halt ThreadExited.
Proof.
  apply (zero_thread_count_runs_empty Example.linux_no_mmap
           Failing.argv_t0_n2 initial_globals (mkLocals 0 1 0 "ftq")
           (set_numsamples 2 initial_globals));
    first [reflexivity | discriminate].
Defined.

(** *** What a completed run has written *)

Lemma count_map_all {X} p (f : X -> event) xs :
  (forall x, p (f x) = true) -> count p (map f xs) = List.length xs.
Proof.
  intros H. unfold count. now rewrite (all_map _ _ _ H), length_map.
Qed.

Lemma count_flat_map {X} p (f : X -> list event) xs c :
  (forall x, count p (f x) = c) ->
  count p (flat_map f xs) = (List.length xs * c)%nat.
Proof.
  intros H. induction xs as [|x xs IH]; [reflexivity|].
  cbn [flat_map List.length]. rewrite count_app, H, IH. lia.
Qed.

Lemma file_block_lines e l x ns g j :
  count is_sample (file_block e l x ns g j) = Z.to_nat ns /\
  count is_header (file_block e l x ns g j) = 1%nat.
Proof.
  unfold file_block, file_lines. rewrite !count_app. split.
  - rewrite count_map_all by reflexivity. rewrite length_seq.
    unfold count. simpl. lia.
  - rewrite (none_count is_header (map _ _)) by (apply none_map; reflexivity).
    reflexivity.
Qed.

Lemma stdout_output_lines e x g :
  count is_sample (stdout_output e x g) = Z.to_nat (numsamples g) /\
  count is_header (stdout_output e x g) = 1%nat.
Proof.
  unfold stdout_output. split.
  - change (count is_sample (header_event Stdout 0 g :: ?t))
      with (count is_sample t).
    rewrite count_map_all by reflexivity. apply length_seq.
  - unfold count. cbn [filter header_event is_header List.length].
    fold (count is_header
            (map (fun i => sample_line e Stdout x (to_ticks e (sample e 0))
                                       (Z.of_nat i * 2))
                 (seq 0 (Z.to_nat (numsamples g))))).
    now rewrite none_count by (apply none_map; reflexivity).
Qed.

(** The trace of a run that goes through to its last statement. *)
Lemma completed_run_trace e opts g0 :
  completed (outcome_of e opts g0) = true ->
  exists l g1,
    parsed e opts g0 = Some (l, g1) /\
    trace_of e opts g0 =
      setup_trace e l g1
        ++ (if use_threads l =? 1 then threaded_sampling e l
            else inline_sampling e)
        ++ summary_trace e (measured e) (set_hounds 1 (calibrated e (cap g1)))
        ++ (if use_stdout l =? 1
            then stdout_output e (run_nspercycle e)
                   (set_hounds 1 (calibrated e (cap g1)))
            else flat_map
                   (file_block e l (run_nspercycle e) (numsamples (cap g1))
                      (set_hounds 1 (calibrated e (cap g1))))
                   (seq 0 (Z.to_nat (numthreads l))))
        ++ finish_trace l.
Proof.
  unfold outcome_of, trace_of, run. intros Hc.
  destruct (parsed e opts g0) as [[l g1]|] eqn:Hp.
  2:{ destruct (parsed_none_run _ _ _ Hp) as [_ [Ho _]].
      unfold outcome_of, run in Ho.
      destruct Ho as [Ho|[Ho|Ho]]; rewrite Ho in Hc; discriminate. }
  destruct (alloc_ok e) eqn:Ha.
  2:{ rewrite (main_alloc_failed _ _ _ _ _ Hp Ha) in Hc. discriminate. }
  destruct (rejected l) eqn:Hr.
  { rewrite (main_rejected _ _ _ _ _ Hp Ha Hr) in Hc. discriminate. }
  exists l, g1. split; [reflexivity|].
  destruct (sampling_cases e l (calibrated e (cap g1)))
    as [H|[[_ [k [rc [_ [_ H]]]]]|[_ [tr [o [H _]]]]]].
  2,3: rewrite (main_sampling_stopped _ _ _ _ _ _ _ _ Hp Ha Hr H) in Hc;
       cbn [snd] in Hc;
       now rewrite (sampling_stop_not_completed _ _ _ _ _ _ H) in Hc.
  rewrite (main_reported _ _ _ _ _ _ _ _ Hp Ha Hr H), report_unfolded in *.
  destruct (reported_globals e g1) as [Hn _]. rewrite Hn in *.
  destruct (use_stdout l =? 1); [reflexivity|].
  destruct (files_cases e l (nspercycle_for e (measured e)) (numsamples (cap g1))
              (Z.to_nat (numthreads l))
              (set_hounds 1 (calibrated e (cap g1))))
    as [k [Hk [Ht [Hg Hres]]]].
  destruct (files_loop e l (nspercycle_for e (measured e)) (numsamples (cap g1))
              (Z.to_nat (numthreads l)) 0
              (set_hounds 1 (calibrated e (cap g1)))) as [[tf g'] r].
  cbn [fst snd] in *. subst tf g' r.
  destruct (k <? Z.to_nat (numthreads l))%nat eqn:Ek; [discriminate|].
  apply Nat.ltb_ge in Ek. assert (k = Z.to_nat (numthreads l)) by lia.
  subst k. cbn [fst]. now rewrite app_nil_r.
Qed.

Lemma upto_map {X} k (f : X -> event) xs :
  (forall x, (stage_of (f x) <=? k)%nat = true) -> upto k (map f xs) = true.
Proof.
  intros H. unfold upto. apply forallb_forall. intros ev Hin.
  apply in_map_iff in Hin. destruct Hin as [x [<- _]]. apply H.
Qed.

Lemma sampling_shape_upto e l :
  upto 5 (if use_threads l =? 1 then threaded_sampling e l
          else inline_sampling e) = true.
Proof.
  destruct (use_threads l =? 1); [|reflexivity].
  unfold threaded_sampling, creates_ok, joins_ok.
  rewrite !upto_app, !upto_map by reflexivity. reflexivity.
Qed.

Lemma count_flat_map_none {X} p (f : X -> list event) xs :
  (forall x, In x xs -> count p (f x) = 0%nat) ->
  count p (flat_map f xs) = 0%nat.
Proof.
  induction xs as [|x xs IH]; intros H; [reflexivity|].
  cbn [flat_map]. rewrite count_app, (H x (or_introl eq_refl)), IH;
    [reflexivity|].
  intros y Hy. apply H. now right.
Qed.

(** In a sequence of blocks, what is counted in one block only. *)
Lemma count_flat_map_one p (f : nat -> list event) c a n j :
  (a <= j < a + n)%nat ->
  count p (f j) = c ->
  (forall j', j' <> j -> count p (f j') = 0%nat) ->
  count p (flat_map f (seq a n)) = c.
Proof.
  revert a. induction n as [|n IH]; intros a Hj Hc H0; [lia|].
  cbn [seq flat_map]. rewrite count_app.
  destruct (Nat.eq_dec a j) as [->|Ha].
  - rewrite Hc, count_flat_map_none; [lia|].
    intros x Hx. apply in_seq in Hx. apply H0. lia.
  - rewrite (H0 a Ha), (IH (S a)); [reflexivity|lia|exact Hc|exact H0].
Qed.

(** What the block of thread [j'] writes to the file of thread [j] and
    to stdout. *)
Lemma file_block_on e l x ns g j j' :
  count (is_header_on (DatFile (Z.of_nat j))) (file_block e l x ns g j')
    = (if (j =? j')%nat then 1 else 0)%nat /\
  count (is_sample_on (DatFile (Z.of_nat j))) (file_block e l x ns g j')
    = (if (j =? j')%nat then Z.to_nat ns else 0)%nat /\
  count (is_header_on Stdout) (file_block e l x ns g j') = 0%nat /\
  count (is_sample_on Stdout) (file_block e l x ns g j') = 0%nat.
Proof.
  assert (E : (Z.of_nat j =? Z.of_nat j') = (j =? j')%nat).
  { destruct (Nat.eqb_spec j j') as [->|H]; [apply Z.eqb_refl|].
    apply Z.eqb_neq. lia. }
  unfold file_block, file_lines. rewrite !count_app.
  repeat split.
  - rewrite (none_count (is_header_on _) (map _ _))
      by (apply none_map; reflexivity).
    unfold count. cbn [filter is_header_on header_event stream_eqb].
    rewrite E. now destruct (j =? j')%nat.
  - unfold count at 1 3. cbn [filter is_sample_on header_event List.length].
    destruct (j =? j')%nat eqn:Ej.
    + rewrite count_map_all.
      * rewrite length_seq. lia.
      * intros i. unfold sample_line. cbn [is_sample_on stream_eqb].
        exact E.
    + rewrite none_count; [reflexivity|]. apply none_map. intros i.
      unfold sample_line. cbn [is_sample_on stream_eqb]. now rewrite E.
  - rewrite (none_count (is_header_on _) (map _ _))
      by (apply none_map; reflexivity).
    reflexivity.
  - rewrite (none_count (is_sample_on _) (map _ _))
      by (apply none_map; reflexivity).
    reflexivity.
Qed.

Lemma stdout_output_on e x g :
  count (is_header_on Stdout) (stdout_output e x g) = 1%nat /\
  count (is_sample_on Stdout) (stdout_output e x g)
    = Z.to_nat (numsamples g) /\
  (forall j, count (is_header_on (DatFile j)) (stdout_output e x g) = 0%nat /\
             count (is_sample_on (DatFile j)) (stdout_output e x g) = 0%nat).
Proof.
  unfold stdout_output.
  assert (C : forall p ev tr, count p (ev :: tr)
                = ((if p ev then 1 else 0) + count p tr)%nat).
  { intros p ev tr. unfold count. cbn [filter]. now destruct (p ev). }
  rewrite !C. cbn [is_header_on is_sample_on header_event stream_eqb].
  split; [|split].
  - rewrite none_count by (apply none_map; reflexivity). reflexivity.
  - rewrite count_map_all by reflexivity. rewrite length_seq. lia.
  - intros j. rewrite !C.
    cbn [is_header_on is_sample_on header_event stream_eqb].
    rewrite !none_count by (apply none_map; reflexivity). now split.
Qed.

(** X8. A run that goes through to its last statement ([exit] with
    [EXIT_SUCCESS], or [pthread_exit]) has, after setup, sampling and the
    summary on stderr, written exactly this: in stdout mode one header
    and [numsamples] data lines on stdout, and nothing to any file;
    otherwise, for each of the [numthreads] threads in index order, one
    file with its own header and its own [numsamples] data lines, and
    nothing on stdout; [numsamples] is the capped sample count. *)
Theorem completed_run_output e opts g0 :
  completed (outcome_of e opts g0) = true ->
  exists l g1,
    parsed e opts g0 = Some (l, g1) /\
    trace_of e opts g0 =
      setup_trace e l g1
        ++ (if use_threads l =? 1 then threaded_sampling e l
            else inline_sampling e)
        ++ summary_trace e (measured e) (set_hounds 1 (calibrated e (cap g1)))
        ++ (if use_stdout l =? 1
            then stdout_output e (run_nspercycle e)
                   (set_hounds 1 (calibrated e (cap g1)))
            else flat_map
                   (file_block e l (run_nspercycle e) (numsamples (cap g1))
                      (set_hounds 1 (calibrated e (cap g1))))
                   (seq 0 (Z.to_nat (numthreads l))))
        ++ finish_trace l /\
    (use_stdout l = 1 ->
     count (is_header_on Stdout) (trace_of e opts g0) = 1%nat /\
     count (is_sample_on Stdout) (trace_of e opts g0)
       = Z.to_nat (numsamples (cap g1)) /\
     count is_header (trace_of e opts g0) = 1%nat /\
     count is_sample (trace_of e opts g0) = Z.to_nat (numsamples (cap g1))) /\
    (use_stdout l <> 1 ->
     (forall j, (j < Z.to_nat (numthreads l))%nat ->
        count (is_header_on (DatFile (Z.of_nat j))) (trace_of e opts g0)
          = 1%nat /\
        count (is_sample_on (DatFile (Z.of_nat j))) (trace_of e opts g0)
          = Z.to_nat (numsamples (cap g1))) /\
     count (is_header_on Stdout) (trace_of e opts g0) = 0%nat /\
     count (is_sample_on Stdout) (trace_of e opts g0) = 0%nat /\
     count is_header (trace_of e opts g0) = Z.to_nat (numthreads l) /\
     count is_sample (trace_of e opts g0)
       = (Z.to_nat (numthreads l) * Z.to_nat (numsamples (cap g1)))%nat).
Proof.
  intros Hc.
  destruct (completed_run_trace e opts g0 Hc) as [l [g1 [Hp Ht]]].
  exists l, g1. split; [exact Hp|]. split; [exact Ht|].
  destruct (reported_globals e g1) as [Hn _].
  assert (Hout : forall p,
            (forall ev, p ev = true -> stage_of ev = 6%nat) ->
            count p (summary_trace e (measured e)
                       (set_hounds 1 (calibrated e (cap g1)))) = 0%nat ->
            forall out,
              count p (setup_trace e l g1
                         ++ (if use_threads l =? 1 then threaded_sampling e l
                             else inline_sampling e)
                         ++ summary_trace e (measured e)
                              (set_hounds 1 (calibrated e (cap g1)))
                         ++ out ++ finish_trace l)
              = count p out).
  { intros p Hp6 Hsum out. rewrite !count_app, Hsum.
    rewrite (none_count p (setup_trace e l g1)).
    2:{ apply upto_none with 4%nat; [|apply setup_trace_upto].
        intros ev Hev. rewrite (Hp6 _ Hev). lia. }
    rewrite (none_count p (if use_threads l =? 1 then _ else _)).
    2:{ apply upto_none with 5%nat.
        - intros ev Hev. rewrite (Hp6 _ Hev). lia.
        - apply sampling_shape_upto. }
    rewrite (none_count p (finish_trace l)).
    2:{ unfold finish_trace. destruct (use_threads l =? 0); [reflexivity|].
        cbn [none forallb]. destruct (p EvPthreadExit) eqn:E; [|reflexivity].
        apply Hp6 in E. discriminate. }
    lia. }
  assert (P1 : forall f ev, is_header_on f ev = true -> stage_of ev = 6%nat)
    by (intros f []; simpl; intros; (discriminate || reflexivity)).
  assert (P2 : forall f ev, is_sample_on f ev = true -> stage_of ev = 6%nat)
    by (intros f []; simpl; intros; (discriminate || reflexivity)).
  assert (P3 : forall ev, is_header ev = true -> stage_of ev = 6%nat)
    by (intros []; simpl; intros; (discriminate || reflexivity)).
  assert (P4 : forall ev, is_sample ev = true -> stage_of ev = 6%nat)
    by (intros []; simpl; intros; (discriminate || reflexivity)).
  split.
  - intros Hs. rewrite Ht. apply Z.eqb_eq in Hs. rewrite Hs.
    rewrite (Hout _ (P1 Stdout) eq_refl), (Hout _ (P2 Stdout) eq_refl),
      (Hout _ P3 eq_refl), (Hout _ P4 eq_refl).
    destruct (stdout_output_on e (run_nspercycle e)
                (set_hounds 1 (calibrated e (cap g1)))) as [A [B _]].
    destruct (stdout_output_lines e (run_nspercycle e)
                (set_hounds 1 (calibrated e (cap g1)))) as [C D].
    rewrite A, B, C, D, Hn. repeat split.
  - intros Hs. rewrite Ht. apply Z.eqb_neq in Hs. rewrite Hs.
    rewrite (Hout _ (P1 Stdout) eq_refl), (Hout _ (P2 Stdout) eq_refl),
      (Hout _ P3 eq_refl), (Hout _ P4 eq_refl).
    split; [|split; [|split; [|split]]].
    + intros j Hj.
      rewrite (Hout _ (P1 (DatFile (Z.of_nat j))) eq_refl),
        (Hout _ (P2 (DatFile (Z.of_nat j))) eq_refl).
      split.
      * apply count_flat_map_one with j; [lia| |].
        -- destruct (file_block_on e l (run_nspercycle e)
                       (numsamples (cap g1))
                       (set_hounds 1 (calibrated e (cap g1))) j j)
             as [A _].
           now rewrite Nat.eqb_refl in A.
        -- intros j' Hj'.
           destruct (file_block_on e l (run_nspercycle e)
                       (numsamples (cap g1))
                       (set_hounds 1 (calibrated e (cap g1))) j j')
             as [A _].
           apply Nat.neq_sym, Nat.eqb_neq in Hj'. now rewrite Hj' in A.
      * apply count_flat_map_one with j; [lia| |].
        -- destruct (file_block_on e l (run_nspercycle e)
                       (numsamples (cap g1))
                       (set_hounds 1 (calibrated e (cap g1))) j j)
             as [_ [A _]].
           now rewrite Nat.eqb_refl in A.
        -- intros j' Hj'.
           destruct (file_block_on e l (run_nspercycle e)
                       (numsamples (cap g1))
                       (set_hounds 1 (calibrated e (cap g1))) j j')
             as [_ [A _]].
           apply Nat.neq_sym, Nat.eqb_neq in Hj'. now rewrite Hj' in A.
    + apply count_flat_map_none. intros j _.
      apply (file_block_on e l _ _ _ 0%nat j).
    + apply count_flat_map_none. intros j _.
      apply (file_block_on e l _ _ _ 0%nat j).
    + rewrite (count_flat_map is_header _ _ 1%nat)
        by (intros j; apply file_block_lines).
      rewrite length_seq. lia.
    + rewrite (count_flat_map is_sample _ _ (Z.to_nat (numsamples (cap g1))))
        by (intros j; apply file_block_lines).
      rewrite length_seq. lia.
Qed.

Lemma completed_run_output_witness :
  exists l g1,
    parsed Example.linux Example.argv_t2_n2 initial_globals = Some (l, g1) /\
    trace_of Example.linux Example.argv_t2_n2 initial_globals =
      setup_trace Example.linux l g1
        ++ (if use_threads l =? 1 then threaded_sampling Example.linux l
            else inline_sampling Example.linux)
        ++ summary_trace Example.linux (measured Example.linux)
             (set_hounds 1 (calibrated Example.linux (cap g1)))
        ++ (if use_stdout l =? 1
            then stdout_output Example.linux (run_nspercycle Example.linux)
                   (set_hounds 1 (calibrated Example.linux (cap g1)))
            else flat_map
                   (file_block Example.linux l (run_nspercycle Example.linux)
                      (numsamples (cap g1))
                      (set_hounds 1 (calibrated Example.linux (cap g1))))
                   (seq 0 (Z.to_nat (numthreads l))))
        ++ finish_trace l /\
    (use_stdout l = 1 ->
     count (is_header_on Stdout)
       (trace_of Example.linux Example.argv_t2_n2 initial_globals) = 1%nat /\
     count (is_sample_on Stdout)
       (trace_of Example.linux Example.argv_t2_n2 initial_globals)
       = Z.to_nat (numsamples (cap g1)) /\
     count is_header
       (trace_of Example.linux Example.argv_t2_n2 initial_globals) = 1%nat /\
     count is_sample
       (trace_of Example.linux Example.argv_t2_n2 initial_globals)
       = Z.to_nat (numsamples (cap g1))) /\
    (use_stdout l <> 1 ->
     (forall j, (j < Z.to_nat (numthreads l))%nat ->
        count (is_header_on (DatFile (Z.of_nat j)))
          (trace_of Example.linux Example.argv_t2_n2 initial_globals)
          = 1%nat /\
        count (is_sample_on (DatFile (Z.of_nat j)))
          (trace_of Example.linux Example.argv_t2_n2 initial_globals)
          = Z.to_nat (numsamples (cap g1))) /\
     count (is_header_on Stdout)
       (trace_of Example.linux Example.argv_t2_n2 initial_globals) = 0%nat /\
     count (is_sample_on Stdout)
       (trace_of Example.linux Example.argv_t2_n2 initial_globals) = 0%nat /\
     count is_header
       (trace_of Example.linux Example.argv_t2_n2 initial_globals)
       = Z.to_nat (numthreads l) /\
     count is_sample
       (trace_of Example.linux Example.argv_t2_n2 initial_globals)
       = (Z.to_nat (numthreads l) * Z.to_nat (numsamples (cap g1)))%nat).
Proof.
  apply (completed_run_output Example.linux Example.argv_t2_n2
           initial_globals).
  vm_compute. reflexivity.
Defined.

(** X9. Every header of a run carries the sampling frequency
    [1e9 / interval] of the interval the options left, the calibration
    factor in effect (the value supplied, or the computed one when the
    value after parsing is zero), and the warning flag exactly when some
    [-w] was counted; the header on stdout names core 0, the header of a
    file names the core of that file's thread. *)
Theorem header_contents e opts g0 f freq tpn core unwired :
  In (EvHeader f freq tpn core unwired) (trace_of e opts g0) ->
  exists l g1,
    parsed e opts g0 = Some (l, g1) /\
    freq = d_div d_1e9 (d_of_Z (interval g1)) /\
    tpn = (if is_zero (ticksperns g1) then compute_ticksperns e
           else ticksperns g1) /\
    unwired = negb (ignore_wire_failures g1 =? 0) /\
    (f = Stdout /\ core = 0 /\ use_stdout l = 1 \/
     f = DatFile core /\ use_stdout l <> 1 /\ 0 <= core < numthreads l).
Proof.
  intros Hin.
  destruct (report_reached _ _ _ _ Hin eq_refl)
    as [l [g1 [Hp [Ha [Hr [Hsm Hrep]]]]]].
  exists l, g1. split; [exact Hp|].
  destruct (reported_globals e g1) as [Gn [Gi [Gw Gt]]].
  rewrite report_unfolded in Hrep.
  assert (Hhd : forall f' c',
            EvHeader f freq tpn core unwired
              = header_event f' c' (set_hounds 1 (calibrated e (cap g1))) ->
            f = f' /\ core = c' /\
            freq = d_div d_1e9 (d_of_Z (interval g1)) /\
            tpn = (if is_zero (ticksperns g1) then compute_ticksperns e
                   else ticksperns g1) /\
            unwired = negb (ignore_wire_failures g1 =? 0)).
  { intros f' c' E. unfold header_event in E. rewrite Gi, Gw, Gt in E.
    inversion E; subst. repeat split. }
  destruct (use_stdout l =? 1) eqn:Es.
  - apply Z.eqb_eq in Es. cbn [fst] in Hrep.
    apply in_app_or in Hrep. destruct Hrep as [Hrep|Hrep].
    { unfold summary_trace in Hrep.
      repeat (destruct Hrep as [Hrep|Hrep]; [discriminate|]). destruct Hrep. }
    unfold stdout_output in Hrep. destruct Hrep as [Hrep|Hrep].
    + symmetry in Hrep. destruct (Hhd _ _ Hrep) as [-> [-> [-> [-> ->]]]].
      repeat split. now left.
    + apply in_map_iff in Hrep. destruct Hrep as [i [E _]]. discriminate.
  - apply Z.eqb_neq in Es.
    destruct (files_cases e l (nspercycle_for e (measured e))
                (numsamples (set_hounds 1 (calibrated e (cap g1))))
                (Z.to_nat (numthreads l))
                (set_hounds 1 (calibrated e (cap g1))))
      as [k [Hk [Ht _]]].
    destruct (files_loop e l (nspercycle_for e (measured e))
                (numsamples (set_hounds 1 (calibrated e (cap g1))))
                (Z.to_nat (numthreads l)) 0
                (set_hounds 1 (calibrated e (cap g1)))) as [[tf g'] r].
    cbn [fst] in *. subst tf.
    apply in_app_or in Hrep. destruct Hrep as [Hrep|Hrep].
    { unfold summary_trace in Hrep.
      repeat (destruct Hrep as [Hrep|Hrep]; [discriminate|]). destruct Hrep. }
    apply in_app_or in Hrep. destruct Hrep as [Hrep|Hrep].
    2:{ destruct (k <? Z.to_nat (numthreads l))%nat; [|destruct Hrep].
        unfold fopen_failure in Hrep.
        repeat (destruct Hrep as [Hrep|Hrep]; [discriminate|]). destruct Hrep. }
    apply in_flat_map in Hrep. destruct Hrep as [j [Hj Hb]].
    apply in_seq in Hj. unfold file_block in Hb. cbn [app] in Hb.
    destruct Hb as [Hb|[Hb|Hb]]; [discriminate| |].
    + symmetry in Hb. destruct (Hhd _ _ Hb) as [-> [-> [-> [-> ->]]]].
      repeat split. right. repeat split; [exact Es|lia|lia].
    + apply in_app_or in Hb. destruct Hb as [Hb|Hb].
      * unfold file_lines in Hb. apply in_map_iff in Hb.
        destruct Hb as [i [E _]]. discriminate.
      * destruct Hb as [Hb|[]]. discriminate.
Qed.

Lemma header_contents_witness :
  exists l g1,
    parsed Example.linux Example.argv_t2_n2 initial_globals = Some (l, g1) /\
    d_div d_1e9 (d_of_Z DEFAULT_INTERVAL) = d_div d_1e9 (d_of_Z (interval g1)) /\
    d_of_Z 3 = (if is_zero (ticksperns g1) then compute_ticksperns Example.linux
                else ticksperns g1) /\
    false = negb (ignore_wire_failures g1 =? 0) /\
    (DatFile 1 = Stdout /\ 1 = 0 /\ use_stdout l = 1 \/
     DatFile 1 = DatFile 1 /\ use_stdout l <> 1 /\ 0 <= 1 < numthreads l).
Proof.
  apply (header_contents Example.linux Example.argv_t2_n2 initial_globals
           (DatFile 1) (d_div d_1e9 (d_of_Z DEFAULT_INTERVAL)) (d_of_Z 3)
           1 false).
  vm_compute. do 26 right. now left.
Defined.

(** *** The sample buffer and its slices *)


Lemma samples_size_exact e n nthreads :
  0 <= n -> 0 <= nthreads ->
  16 * n * nthreads < 2 ^ ulong_bits (model e) ->
  samples_size e n nthreads = 16 * n * nthreads.
Proof.
  intros Hn Ht Hlt. unfold samples_size, size_mul, wrap, sizeof_ullong.
  assert (H0 : 0 <= n * nthreads) by nia.
  assert (Hpos : 0 < 2 ^ ulong_bits (model e))
    by (destruct (model e); reflexivity).
  destruct (Z.eq_dec n 0) as [->|Hnz].
  { destruct (model e); reflexivity. }
  destruct (Z.eq_dec nthreads 0) as [->|Htz].
  { rewrite (Z.mod_small 0) by lia.
    rewrite !Z.mul_0_r. apply Z.mod_small. lia. }
  - assert (nthreads < 2 ^ ulong_bits (model e)) by nia.
    assert (16 * n < 2 ^ ulong_bits (model e)) by nia.
    rewrite (Z.mod_small nthreads) by lia.
    rewrite (Z.mod_small (8 * n)) by lia.
    rewrite (Z.mod_small (8 * n * 2)) by lia.
    rewrite Z.mod_small by nia. ring.
Qed.





(** Options leave [numsamples] non-negative: it is an unsigned object. *)
Lemma parse_numsamples_nonneg e opts l g l' g' :
  0 <= numsamples g ->
  parse_options e opts l g = ([], g', Ret l') ->
  0 <= numsamples g'.
Proof.
  revert l g. induction opts as [|o opts IH]; intros l g; simpl; intros H E.
  - now inversion E; subst.
  - unfold bind in E.
    option_cases o; simpl in *; try discriminate;
      match type of E with
      | context [parse_options e opts ?l1 ?g1] =>
          destruct (parse_options e opts l1 g1) as [[t2 g2] [l2|o2]] eqn:E2;
          [|discriminate]; inversion E; subst;
          refine (IH _ _ _ E2); simpl; try exact H
      end.
    unfold wrap. apply Z.mod_pos_bound. destruct (model e); simpl; lia.
Qed.

(** X12. In every run on an LP64 machine that leaves the option loop
    with a non-negative thread count, the sample count in effect lies
    between 0 and [MAX_SAMPLES], and the size passed to [mmap] is
    exactly [16 * numsamples * numthreads] bytes, without wrap-around. *)
Theorem allocation_size_is_exact e opts g0 l g1 :
  parsed e opts g0 = Some (l, g1) ->
  model e = LP64 -> 0 <= numsamples g0 -> 0 <= numthreads l ->
  0 <= numsamples (final_globals e opts g0) <= MAX_SAMPLES /\
  exists rest,
    trace_of e opts g0 =
    warn_trace g1
      ++ EvMmap (16 * numsamples (final_globals e opts g0) * numthreads l)
                (mmap_ok e)
      :: rest.
Proof.
  intros Hp Hm H0 Ht.
  pose proof (proj1 (parsed_some _ _ _ _ _) Hp) as Hparse.
  pose proof (parse_numsamples_nonneg _ _ _ _ _ _ H0 Hparse) as Hn.
  assert (Hti : numthreads l <= INT_MAX).
  { clear - Hparse.
    assert (G : forall opts l0 g l g',
              numthreads l0 <= INT_MAX ->
              parse_options e opts l0 g = ([], g', Ret l) ->
              numthreads l <= INT_MAX).
    { clear. induction opts as [|o opts IH]; intros l0 g l g' H E; simpl in E.
      - now inversion E; subst.
      - unfold bind in E.
        option_cases o; simpl in *; try discriminate;
          match type of E with
          | context [parse_options e opts ?l1 ?g1] =>
              destruct (parse_options e opts l1 g1) as [[t2 g2] [l2|o2]] eqn:E2;
              [|discriminate]; inversion E; subst;
              refine (IH _ _ _ _ _ E2); simpl; try exact H
          end.
        apply atoi_range. }
    apply (G opts initial_locals g0 l g1); [|exact Hparse].
    unfold INT_MAX. simpl. lia. }
  rewrite (final_numsamples _ _ _ _ _ Hp).
  assert (Hr : 0 <= Z.min (numsamples g1) MAX_SAMPLES <= MAX_SAMPLES)
    by (unfold MAX_SAMPLES; lia).
  split; [exact Hr|].
  destruct (trace_starts _ _ _ _ _ Hp) as [rest E].
  rewrite cap_numsamples in E. unfold alloc_trace in E. cbn [app] in E.
  rewrite samples_size_exact in E.
  - eexists. exact E.
  - lia.
  - lia.
  - rewrite Hm. change (2 ^ ulong_bits LP64) with 18446744073709551616.
    unfold MAX_SAMPLES, INT_MAX in *.
    assert (Z.min (numsamples g1) 2000000 * numthreads l
            <= 2000000 * (2 ^ 31 - 1))
      by (apply Z.mul_le_mono_nonneg; lia).
    lia.
Qed.

Lemma allocation_size_is_exact_witness :
  0 <= numsamples (final_globals Example.linux Example.argv_nminus5_s
                     initial_globals) <= MAX_SAMPLES /\
  exists rest,
    trace_of Example.linux Example.argv_nminus5_s initial_globals =
    warn_trace (set_numsamples (2 ^ 64 - 5) initial_globals)
      ++ EvMmap (16 * numsamples (final_globals Example.linux
                                    Example.argv_nminus5_s initial_globals) * 1)
                true
      :: rest.
Proof.
  apply (allocation_size_is_exact Example.linux Example.argv_nminus5_s
           initial_globals (mkLocals 1 0 1 "ftq")
           (set_numsamples (2 ^ 64 - 5) initial_globals));
    first [reflexivity | simpl; lia | vm_compute; discriminate].
Defined.

(** ** The option loop in closed form *)

Import Options.

(** Adding in [int] after a wrap is adding before it. *)
Lemma to_int_add a b : to_int (to_int a + b) = to_int (a + b).
Proof.
  unfold to_int, to_signed, wrap.
  assert (E : (a mod 2 ^ 32 + b) mod 2 ^ 32 = (a + b) mod 2 ^ 32)
    by (apply Z.add_mod_idemp_l; lia).
  assert (E' : ((if a mod 2 ^ 32 <? 2 ^ (32 - 1) then a mod 2 ^ 32
                 else a mod 2 ^ 32 - 2 ^ 32) + b) mod 2 ^ 32
               = (a + b) mod 2 ^ 32).
  { destruct (a mod 2 ^ 32 <? 2 ^ (32 - 1)); [exact E|].
    replace (a mod 2 ^ 32 - 2 ^ 32 + b)
      with (a mod 2 ^ 32 + b + (-1) * 2 ^ 32) by ring.
    now rewrite Z.mod_add by lia. }
  cbv zeta. now rewrite E'.
Qed.

(** What the loop leaves, from any locals and globals it starts with. *)
Lemma parse_closed_form e opts l0 g l g' :
  parse_options e opts l0 g = ([], g', Ret l) ->
  numthreads l = match last_of arg_t opts with
                 | Some s => atoi (atoi_overflow e) s
                 | None => numthreads l0 end /\
  use_threads l = (if existsb is_opt_t opts then 1 else use_threads l0) /\
  use_stdout l = (if existsb is_opt_s opts then 1 else use_stdout l0) /\
  outname l = match last_of arg_o opts with
              | Some s => s | None => outname l0 end /\
  interval g' = match last_of arg_f opts with
                | Some s => interval_of_frequency e s
                | None => interval g end /\
  numsamples g' = match last_of arg_n opts with
                  | Some s => wrap (ulong_bits (model e))
                                   (atoi (atoi_overflow e) s)
                  | None => numsamples g end /\
  ticksperns g' = match last_of arg_T opts with
                  | Some d => d | None => ticksperns g end /\
  ignore_wire_failures g' =
    match count_w opts with
    | O => ignore_wire_failures g
    | S _ => to_int (ignore_wire_failures g + Z.of_nat (count_w opts))
    end /\
  set_realtime g' = (if existsb is_opt_r opts then 1 else set_realtime g) /\
  test_argument g' = match last_of arg_a opts with
                     | Some v => v | None => test_argument g end /\
  hounds g' = hounds g.
Proof.
  revert l0 g. induction opts as [|o opts IH]; intros l0 g E.
  - simpl in E. inversion E; subst. repeat split.
  - simpl in E. unfold bind in E.
    option_cases o; simpl in E; try discriminate;
      match type of E with
      | context [parse_options e opts ?l1 ?g1] =>
          destruct (parse_options e opts l1 g1) as [[t2 g2] [l2|o2]] eqn:E2;
          [|discriminate]; inversion E; subst;
          destruct (IH _ _ E2)
            as (H1 & H2 & H3 & H4 & H5 & H6 & H7 & H8 & H9 & H10 & H11)
      end;
      cbn [last_of existsb arg_t arg_o arg_f arg_n arg_a arg_T
           is_opt_t is_opt_s is_opt_r orb];
      unfold count_w in *; cbn [filter is_opt_w List.length];
      cbn [numthreads use_threads use_stdout outname] in *;
      rewrite H1, H2, H3, H4, H5, H6, H7, H8, H9, H10, H11;
      repeat split;
      try (match goal with
           | |- context [last_of ?s opts] => now destruct (last_of s opts)
           | |- context [existsb ?s opts] => now destruct (existsb s opts)
           end).
    destruct (List.length (filter is_opt_w opts)) as [|n] eqn:En.
    + reflexivity.
    + cbn [ignore_wire_failures set_ignore_wire_failures].
      rewrite to_int_add. f_equal. lia.
Qed.

(** X13. The option loop is "last one wins".  When it runs to its end
    (no option led to [usage], no long option made a case read the NULL
    [optarg], every [-o] argument fits the 255 bytes of [outname]), the
    thread count is [atoi] of the argument of the last [-t] (1 without
    [-t]), [use_threads] tells whether a [-t] was given and [use_stdout]
    whether a [-s] was, the name prefix is the argument of the last [-o]
    (the default is ftq), the interval, the sample count and the
    calibration factor come from the last [-f], [-n] and scanning [-T],
    the test argument is that of the last [-a] or the NULL left by a
    later [--argument] (otherwise they keep their initial values), [-r]
    sets [set_realtime] to 1, and [ignore_wire_failures] has grown by the
    number of [-w] given, counted in [int].  The start signal is not
    touched. *)
Theorem option_loop_last_wins e opts g0 l g1 :
  parsed e opts g0 = Some (l, g1) ->
  numthreads l = match last_of arg_t opts with
                 | Some s => atoi (atoi_overflow e) s | None => 1 end /\
  use_threads l = (if existsb is_opt_t opts then 1 else 0) /\
  use_stdout l = (if existsb is_opt_s opts then 1 else 0) /\
  outname l = match last_of arg_o opts with
              | Some s => s | None => "ftq"%string end /\
  interval g1 = match last_of arg_f opts with
                | Some s => interval_of_frequency e s
                | None => interval g0 end /\
  numsamples g1 = match last_of arg_n opts with
                  | Some s => wrap (ulong_bits (model e))
                                   (atoi (atoi_overflow e) s)
                  | None => numsamples g0 end /\
  ticksperns g1 = match last_of arg_T opts with
                  | Some d => d | None => ticksperns g0 end /\
  ignore_wire_failures g1 =
    match count_w opts with
    | O => ignore_wire_failures g0
    | S _ => to_int (ignore_wire_failures g0 + Z.of_nat (count_w opts))
    end /\
  set_realtime g1 = (if existsb is_opt_r opts then 1 else set_realtime g0) /\
  test_argument g1 = match last_of arg_a opts with
                     | Some v => v | None => test_argument g0 end /\
  hounds g1 = hounds g0 /\
  existsb ends_parsing opts = false /\
  (forall s, In (Opt_o s) opts -> fits_outname s = true).
Proof.
  intros Hp. apply parsed_some in Hp.
  pose proof (parse_returned _ _ _ _ _ _ Hp) as He.
  destruct (parse_closed_form _ _ _ _ _ _ Hp)
    as (H1 & H2 & H3 & H4 & H5 & H6 & H7 & H8 & H9 & H10 & H11).
  repeat (split; [assumption|]).
  intros s Hin.
  assert (Hs : ends_parsing (Opt_o s) = false).
  { destruct (ends_parsing (Opt_o s)) eqn:E; [|reflexivity].
    assert (Hx : existsb ends_parsing opts = true)
      by (apply existsb_exists; now exists (Opt_o s)).
    rewrite He in Hx. discriminate Hx. }
  cbn [ends_parsing] in Hs. now apply negb_false_iff in Hs.
Qed.

Lemma option_loop_last_wins_witness :
  parsed Example.linux argv_r_a_n2 initial_globals
    = Some (mkLocals 2 1 0 "out",
            set_ignore_wire_failures 1
              (set_test_argument None
                 (set_numsamples 2 (set_set_realtime 1 initial_globals)))) /\
  numthreads (mkLocals 2 1 0 "out") = 2 /\
  outname (mkLocals 2 1 0 "out") = "out"%string /\
  test_argument
    (set_ignore_wire_failures 1
       (set_test_argument None
          (set_numsamples 2 (set_set_realtime 1 initial_globals)))) = None.
Proof.
  assert (Hp : parsed Example.linux argv_r_a_n2 initial_globals
               = Some (mkLocals 2 1 0 "out",
                       set_ignore_wire_failures 1
                         (set_test_argument None
                            (set_numsamples 2
                               (set_set_realtime 1 initial_globals)))))
    by reflexivity.
  split; [exact Hp|].
  destruct (option_loop_last_wins _ _ _ _ _ Hp)
    as (H1 & _ & _ & H4 & _ & _ & _ & _ & _ & H10 & _).
  split; [exact H1|]. split; [exact H4 | exact H10].
Defined.

(** ** What [main] reads of the globals *)

Lemma sim_ret {A} (a : A) : sim (ret a) (ret a).
Proof. intros g g' V. now repeat split. Qed.

Lemma sim_emit ev : sim (emit ev) (emit ev).
Proof. intros g g' V. now repeat split. Qed.

Lemma sim_halt {A} o : sim (@halt A o) (halt o).
Proof. intros g g' V. now repeat split. Qed.

Lemma sim_modify f f' :
  (forall g g', view g = view g' -> view (f g) = view (f' g')) ->
  sim (modify f) (modify f').
Proof. intros H g g' V. repeat split. simpl. now apply H. Qed.

Lemma sim_bind {A B} (m m' : M A) (k k' : A -> M B) :
  sim m m' -> (forall x, sim (k x) (k' x)) -> sim (bind m k) (bind m' k').
Proof.
  intros Hm Hk g g' V. unfold bind. specialize (Hm g g' V).
  destruct (m g) as [[t1 g1] r1], (m' g') as [[t1' g1'] r1'].
  cbn [fst snd] in Hm. destruct Hm as (Ht & Hr & Hv). subst t1' r1'.
  destruct r1 as [a|o]; [|now repeat split].
  specialize (Hk a g1 g1' Hv).
  destruct (k a g1) as [[t2 g2] r2], (k' a g1') as [[t2' g2'] r2'].
  cbn [fst snd] in *. destruct Hk as (Ht & Hr & Hv'). subst.
  now repeat split.
Qed.

Lemma sim_get {A} (k k' : globals -> M A) :
  (forall g g', view g = view g' -> sim (k g) (k' g')) ->
  sim (bind get k) (bind get k').
Proof.
  intros H g g' V. unfold bind, get. specialize (H g g' V g g' V).
  destruct (k g g) as [[t g1] r], (k' g' g') as [[t' g1'] r'].
  exact H.
Qed.

Ltac sim_step :=
  first [ apply sim_ret | apply sim_emit | apply sim_halt
        | assumption
        | apply sim_bind; [|intros ?]
        | match goal with
          | |- sim (if ?c then _ else _) (if ?c then _ else _) => destruct c
          end ].

Ltac view_eq :=
  let V := fresh in
  intros ? ? V; unfold view in *; simpl;
  injection V; intros; congruence.

Lemma sim_create_loop e n i : sim (create_loop e n i) (create_loop e n i).
Proof.
  revert i. induction n as [|n IH]; intros i; simpl; repeat sim_step.
  apply IH.
Qed.

Lemma sim_join_loop e n i : sim (join_loop e n i) (join_loop e n i).
Proof.
  revert i. induction n as [|n IH]; intros i; simpl; repeat sim_step.
  apply IH.
Qed.

Lemma sim_write_hounds v : sim (write_hounds v) (write_hounds v).
Proof. unfold write_hounds. repeat sim_step. apply sim_modify. view_eq. Qed.

Lemma sim_sampling e l :
  sim (if use_threads l =? 1 then run_threads e l else run_inline e)
      (if use_threads l =? 1 then run_threads e l else run_inline e).
Proof.
  pose proof sim_create_loop. pose proof sim_join_loop.
  pose proof sim_write_hounds.
  destruct (use_threads l =? 1); unfold run_threads, run_inline; cbv zeta;
    repeat (sim_step; auto).
Qed.

Lemma sim_header f x core : sim (header f x core) (header f x core).
Proof.
  unfold header. apply sim_get. intros g g' V. unfold view in V.
  injection V as Hi Hn Hh Hw Ht. rewrite Hi, Hw, Ht. apply sim_emit.
Qed.

Lemma sim_stdout_loop e x base n i :
  sim (stdout_loop e x base n i) (stdout_loop e x base n i).
Proof.
  revert i. induction n as [|n IH]; intros i; simpl; repeat sim_step.
  apply IH.
Qed.

Lemma sim_file_loop e x ns j base n i :
  sim (file_loop e x ns j base n i) (file_loop e x ns j base n i).
Proof.
  revert i. induction n as [|n IH]; intros i; simpl; repeat sim_step.
  apply IH.
Qed.

Lemma sim_files_loop e l x ns n j :
  sim (files_loop e l x ns n j) (files_loop e l x ns n j).
Proof.
  pose proof sim_header. pose proof sim_file_loop.
  revert j. induction n as [|n IH]; intros j; simpl; repeat (sim_step; auto).
Qed.

Lemma sim_report e l t : sim (report e l t) (report e l t).
Proof.
  pose proof sim_header. pose proof sim_stdout_loop.
  pose proof sim_files_loop.
  unfold report. cbv zeta.
  do 3 (apply sim_bind; [apply sim_emit|intros _]). apply sim_get. intros g g' V.
  unfold view in V. injection V as Hi Hn Hh Hw Ht. rewrite Hi, Hn, Ht.
  repeat (sim_step; auto).
Qed.

Lemma sim_sanity_check : sim sanity_check sanity_check.
Proof.
  unfold sanity_check. apply sim_get. intros g g' V.
  assert (Hn : numsamples g = numsamples g')
    by (unfold view in V; now injection V).
  rewrite Hn. repeat sim_step. apply sim_modify. view_eq.
Qed.

Lemma sim_allocate_samples e l :
  sim (allocate_samples e l) (allocate_samples e l).
Proof.
  unfold allocate_samples. apply sim_get. intros g g' V.
  assert (Hn : numsamples g = numsamples g')
    by (unfold view in V; now injection V).
  rewrite Hn. cbv zeta. repeat sim_step.
Qed.

Lemma sim_calibrate e : sim (calibrate e) (calibrate e).
Proof.
  unfold calibrate. apply sim_get. intros g g' V.
  assert (Ht : ticksperns g = ticksperns g')
    by (unfold view in V; now injection V).
  rewrite Ht. repeat sim_step. apply sim_modify. view_eq.
Qed.

Lemma sim_option_case e o l :
  sim (option_case e o l) (option_case e o l).
Proof.
  destruct o as [s| |s|s|s| |[d|]| |s| | |[]]; simpl; repeat sim_step;
    apply sim_modify; view_eq.
Qed.

(** The loop reaches the same locals with and without [-r] and [-a]. *)
Lemma sim_parse_options e opts l :
  sim (parse_options e opts l) (parse_options e (strip opts) l).
Proof.
  revert l. induction opts as [|o opts IH]; intros l.
  - simpl. apply sim_ret.
  - assert (Hskip : forall f,
              (forall g, view (f g) = view g) ->
              sim (bind (bind (modify f) (fun _ => ret l))
                        (fun l' => parse_options e opts l'))
                  (parse_options e (strip opts) l)).
    { intros f Hf g g' V. unfold bind, modify, ret.
      assert (V' : view (f g) = view g') by (now rewrite Hf).
      specialize (IH l (f g) g' V').
      destruct (parse_options e opts l (f g)) as [[t g1] r].
      exact IH. }
    destruct o as [s| |s|s|s| |[d|]| |s| | |[]];
      try (cbn [strip filter is_opt_r is_opt_a orb negb parse_options];
           fold (strip opts);
           apply sim_bind; [apply sim_option_case|intros; apply IH]).
    + cbn [strip filter is_opt_r is_opt_a orb negb parse_options option_case].
      fold (strip opts). now apply Hskip.
    + cbn [strip filter is_opt_r is_opt_a orb negb parse_options option_case].
      fold (strip opts). now apply Hskip.
    + cbn [strip filter is_opt_r is_opt_a orb negb parse_options option_case].
      fold (strip opts). now apply Hskip.
Qed.

Lemma sim_main e opts : sim (main e opts) (main e (strip opts)).
Proof.
  pose proof sim_sanity_check. pose proof sim_allocate_samples.
  pose proof sim_calibrate. pose proof sim_sampling. pose proof sim_report.
  unfold main. apply sim_bind; [apply sim_parse_options|]. intros l.
  unfold check_stdout. repeat (sim_step; auto).
Qed.

(** X14. [main] never reads [set_realtime] or [test_argument]: taking
    every [-r] and [-a] off the command line, and starting from other
    values of these two variables, changes neither the events of the run
    nor the way it ends, nor the other globals it leaves. *)
Theorem realtime_and_argument_not_read e opts g0 g0' :
  view g0 = view g0' ->
  trace_of e (strip opts) g0' = trace_of e opts g0 /\
  outcome_of e (strip opts) g0' = outcome_of e opts g0 /\
  view (final_globals e (strip opts) g0') = view (final_globals e opts g0).
Proof.
  intros V. destruct (sim_main e opts g0 g0' V) as (Ht & Hr & Hv).
  unfold trace_of, outcome_of, final_globals, run. now repeat split.
Qed.

Lemma realtime_and_argument_not_read_witness :
  view initial_globals
    = view (set_set_realtime 1
              (set_test_argument (Some "y"%string) initial_globals)) /\
  trace_of Example.linux (strip argv_r_a_n2)
           (set_set_realtime 1
              (set_test_argument (Some "y"%string) initial_globals))
    = trace_of Example.linux argv_r_a_n2 initial_globals.
Proof.
  split; [reflexivity|].
  apply (realtime_and_argument_not_read Example.linux argv_r_a_n2
           initial_globals
           (set_set_realtime 1
              (set_test_argument (Some "y"%string) initial_globals))).
  reflexivity.
Defined.

(** ** The first data line of an output *)




